(** * The dining philosophers simulation: fork acquisition, responsive waits,
      the philosopher lifecycle and the monitor

    A shallow embedding of [src/philo.c] and [src/free.c].

    - The two structures of the program are records; C integers are [Z]
      (the program performs no arithmetic that leaves the range of its
      types on inputs of realistic size; signed overflow, which C leaves
      undefined, is outside this model).
    - A thread is a value of the small command monad [prog]: calls into the
      C library and into the other files of the program are [action]s, the
      [while] loops are [Loop] nodes, and the code between two calls is
      ordinary Rocq code.
    - [run] executes a thread against the sequence of snapshots of the clock
      and of the shared structure that the rest of the system shows it, and
      yields the thread's trace of events.  Quantifying over all snapshot
      sequences covers every interleaving with the other threads.
    - [gstep] is the interleaving of all threads over one shared [world]. *)

From Stdlib Require Import ZArith List String Bool Lia.
From stdpp Require Import base list relations.
Import ListNotations.
Local Open Scope string_scope.
Local Open Scope list_scope.
Local Open Scope Z_scope.

(** ** Constants of [philo.h] *)

(** Modelled from the spec: [philo.h] is not among the sources.  [TRUE] and
    [FALSE] are the usual C truth values; the code relies on [FALSE] being 0
    ([check_for_death] returns [FALSE] for "nobody died" and its caller tests
    [> 0]) and on [TRUE] being what [evaluate_simulation_status] is compared
    with. *)
Definition TRUE : Z := 1.
Definition FALSE : Z := 0.

(** Modelled from the spec: the third argument of the status printer is a
    flag telling whether the message is the death message; [NOT_DEAD] is its
    false value. *)
Definition NOT_DEAD : Z := 0.

(** ** Data model *)

(** [t_philosopher], with the fields the two source files use.  The
    [thread] handle and the back pointer [simulation] carry no data of their
    own: a philosopher is addressed by its position in
    [sim->philosophers]. *)
Record t_philosopher : Type := mk_philosopher {
  id : Z;
  left_fork_index : Z;
  right_fork_index : Z;
  last_meal_time : Z;
  meals_eaten : Z
}.

(** [t_simulation], with the fields the two source files use.  The mutexes
    ([fork_mutexes], [data_mutex], [print_mutex]) hold no data; their state
    lives in the [world] below. *)
Record t_simulation : Type := mk_simulation {
  philosopher_count : Z;
  time_to_die : Z;
  time_to_eat : Z;
  time_to_sleep : Z;
  required_meals : Z;
  simulation_ended : Z;
  philosophers : list t_philosopher
}.

Definition default_philosopher : t_philosopher := mk_philosopher 0 0 0 0 0.

(** [sim->philosophers[i]].  Reading outside the array is undefined in C;
    the model reads [default_philosopher] there, and the statements about
    the records are made for structures whose array has
    [philosopher_count] entries ([records_allocated]). *)
Definition philosopher_at (sim : t_simulation) (i : Z) : t_philosopher :=
  match philosophers sim !! Z.to_nat i with
  | Some p => p
  | None => default_philosopher
  end.

(** [sim->simulation_ended = v]. *)
Definition set_simulation_ended (v : Z) (sim : t_simulation) : t_simulation :=
  mk_simulation (philosopher_count sim) (time_to_die sim) (time_to_eat sim)
    (time_to_sleep sim) (required_meals sim) v (philosophers sim).

Definition set_philosophers (ps : list t_philosopher) (sim : t_simulation)
  : t_simulation :=
  mk_simulation (philosopher_count sim) (time_to_die sim) (time_to_eat sim)
    (time_to_sleep sim) (required_meals sim) (simulation_ended sim) ps.

(** [sim->philosophers[philo].last_meal_time = t]. *)
Definition set_last_meal_time (philo t : Z) (sim : t_simulation) : t_simulation :=
  set_philosophers
    (alter (fun p => mk_philosopher (id p) (left_fork_index p)
                       (right_fork_index p) t (meals_eaten p))
       (Z.to_nat philo) (philosophers sim)) sim.

(** [sim->philosophers[philo].meals_eaten++]. *)
Definition incr_meals_eaten (philo : Z) (sim : t_simulation) : t_simulation :=
  set_philosophers
    (alter (fun p => mk_philosopher (id p) (left_fork_index p)
                       (right_fork_index p) (last_meal_time p)
                       (meals_eaten p + 1))
       (Z.to_nat philo) (philosophers sim)) sim.

(** The array [sim->philosophers] has [philosopher_count] entries. *)
Definition records_allocated (sim : t_simulation) : Prop :=
  Z.of_nat (length (philosophers sim)) = philosopher_count sim.

(** The data model of the spec: the philosopher at position [i] has id
    [i + 1]. *)
Definition ids_in_order (sim : t_simulation) : Prop :=
  forall i, 0 <= i < philosopher_count sim -> id (philosopher_at sim i) = i + 1.

(** ** The monitor's checks, as state-passing functions ([free.c]) *)

(** The loop of [check_for_death], started at index [i]; [n] bounds the
    iterations left ([philosopher_count - i] suffice).  The result is the
    structure after the loop and the value returned. *)
Fixpoint check_for_death_loop (n : nat) (i current_time : Z) (sim : t_simulation)
  : t_simulation * Z :=
  match n with
  | O => (sim, FALSE)
  | S n' =>
      if i <? philosopher_count sim then
        let time_since_last_meal :=
          current_time - last_meal_time (philosopher_at sim i) in
        if time_since_last_meal >=? time_to_die sim then
          (set_simulation_ended TRUE sim, i + 1)
        else check_for_death_loop n' (i + 1) current_time sim
      else (sim, FALSE)
  end.

(** [check_for_death], given the value [get_current_time_ms] returned. *)
Definition check_for_death_at (current_time : Z) (sim : t_simulation)
  : t_simulation * Z :=
  check_for_death_loop (Z.to_nat (philosopher_count sim)) 0 current_time sim.

(** The counting loop of [check_all_philosophers_satisfied]; the result is
    the final [satisfied_count]. *)
Fixpoint count_satisfied (n : nat) (i satisfied_count : Z) (sim : t_simulation)
  : Z :=
  match n with
  | O => satisfied_count
  | S n' =>
      if i <? philosopher_count sim then
        count_satisfied n' (i + 1)
          (if meals_eaten (philosopher_at sim i) >=? required_meals sim
           then satisfied_count + 1 else satisfied_count) sim
      else satisfied_count
  end.

Definition check_all_philosophers_satisfied (sim : t_simulation)
  : t_simulation * Z :=
  if required_meals sim =? -1 then (sim, FALSE)
  else
    let satisfied_count :=
      count_satisfied (Z.to_nat (philosopher_count sim)) 0 0 sim in
    if satisfied_count >=? philosopher_count sim then
      (set_simulation_ended TRUE sim, TRUE)
    else (sim, FALSE).

(** ** Threads as commands *)

(** The mutexes of [t_simulation]. *)
Inductive mutex : Type :=
| fork_mutex (i : Z)
| data_mutex
| print_mutex.

(** What a thread can ask of the world in one step: a call into the C
    library, a call into a file of the program that is not among the
    sources, or one access to the shared structure. *)
Inductive action : Type -> Type :=
| Lock (m : mutex) : action unit
| Unlock (m : mutex) : action unit
| Destroy (m : mutex) : action unit
| Join (philo : Z) : action unit
| Free (array : string) : action unit
| Sleep (us : Z) : action unit
| Now : action Z
| Finished : action Z
| Status (philo : Z) (msg : string) (is_dead : Z) : action unit
| Access {A : Type} (f : t_simulation -> t_simulation * A) : action A.

(** Commands: [Loop body] runs [body] again and again for as long as it
    answers [true]. *)
Inductive prog : Type -> Type :=
| Ret {R : Type} (r : R) : prog R
| Do {R : Type} (a : action R) : prog R
| Bind {A R : Type} (p : prog A) (k : A -> prog R) : prog R
| Loop (body : prog bool) : prog unit.

Declare Scope prog_scope.
Delimit Scope prog_scope with prog.
Bind Scope prog_scope with prog.
Notation "x ← y ; z" := (Bind y (fun x => z))
  (at level 20, y at level 100, z at level 200, only parsing) : prog_scope.
Notation "x ;; z" := (Bind x (fun _ => z))
  (at level 100, z at level 200, only parsing, right associativity) : prog_scope.
Local Open Scope prog_scope.

(** The calls of the program, under the names the source uses. *)
Definition pthread_mutex_lock (m : mutex) : prog unit := Do (Lock m).
Definition pthread_mutex_unlock (m : mutex) : prog unit := Do (Unlock m).
Definition pthread_mutex_destroy (m : mutex) : prog unit := Do (Destroy m).
Definition pthread_join (philo : Z) : prog unit := Do (Join philo).
Definition free (array : string) : prog unit := Do (Free array).

(** [usleep] takes its argument in microseconds. *)
Definition usleep (us : Z) : prog unit := Do (Sleep us).

(** Modelled from the spec: the time source is not among the sources; it
    answers with the current time in milliseconds. *)
Definition get_current_time_ms : prog Z := Do Now.

(** Modelled from the spec: [is_simulation_finished] is not among the
    sources; it answers with the termination flag, read under the state
    lock. *)
Definition is_simulation_finished : prog Z := Do Finished.

(** Modelled from the spec: the reporter is not among the sources;
    [philo.c] calls it [print_timestamp_and_philo_status_msg] and [free.c]
    calls it [print_philosopher_status], with the same arguments.  A call
    is one event; what the reporter prints for it is its own business. *)
Definition print_timestamp_and_philo_status_msg
  (philo : Z) (msg : string) (is_dead : Z) : prog unit :=
  Do (Status philo msg is_dead).
Definition print_philosopher_status
  (philo : Z) (msg : string) (is_dead : Z) : prog unit :=
  Do (Status philo msg is_dead).

(** One access to the shared structure that only writes. *)
Definition store (f : t_simulation -> t_simulation) : prog unit :=
  Do (Access (fun sim => (f sim, tt))).

(** The truth value of a C integer. *)
Definition c_true (v : Z) : bool := negb (v =? 0).

(** ** [philo.c] *)

(** The three branches of [acquire_forks], in the order of the source. *)
Inductive branch : Type := first_branch | middle_branch | last_branch.

(** The [if] / [else if] / [else] chain of [acquire_forks]: which branch a
    philosopher of the given id takes. *)
Definition acquire_forks_branch (id : Z) : branch :=
  if Z.rem id 2 =? 1 then first_branch
  else if Z.rem id 2 =? 1 then middle_branch
  else last_branch.

(** In the functions of [philo.c], [sim] is the structure as the start-up
    code initialised it: the fields these functions read from it
    ([philosopher_count], the three durations, and the [id] and fork
    indices of each philosopher) are written nowhere in the sources.  [philo]
    is the position of the philosopher in [sim->philosophers]. *)
Section Philo.

Variable sim : t_simulation.
Variable philo : Z.

Definition acquire_forks : prog unit :=
  let p := philosopher_at sim philo in
  match acquire_forks_branch (id p) with
  | first_branch =>
      pthread_mutex_lock (fork_mutex (left_fork_index p)) ;;
      print_timestamp_and_philo_status_msg philo "has taken a left fork" NOT_DEAD ;;
      pthread_mutex_lock (fork_mutex (right_fork_index p)) ;;
      print_timestamp_and_philo_status_msg philo "has taken a right fork" NOT_DEAD
  | middle_branch =>
      pthread_mutex_lock (fork_mutex (right_fork_index p)) ;;
      print_timestamp_and_philo_status_msg philo "has taken a right fork" NOT_DEAD ;;
      pthread_mutex_lock (fork_mutex (left_fork_index p)) ;;
      print_timestamp_and_philo_status_msg philo "has taken a left fork" NOT_DEAD
  | last_branch =>
      pthread_mutex_lock (fork_mutex (right_fork_index p)) ;;
      print_timestamp_and_philo_status_msg philo "has taken a right fork" NOT_DEAD ;;
      pthread_mutex_lock (fork_mutex (left_fork_index p)) ;;
      print_timestamp_and_philo_status_msg philo "has taken a left fork" NOT_DEAD
  end.

Definition release_forks : prog unit :=
  let p := philosopher_at sim philo in
  pthread_mutex_unlock (fork_mutex (left_fork_index p)) ;;
  pthread_mutex_unlock (fork_mutex (right_fork_index p)).

(** The argument of [usleep] in [philo_spend_time], from the time left. *)
Definition sleep_increment (remaining_time : Z) : Z :=
  if remaining_time >? 10 then 1000
  else if remaining_time >? 1 then 100
  else 10.

Definition philo_spend_time (duration_ms : Z) : prog unit :=
  start_time ← get_current_time_ms ;
  Loop (
    finished ← is_simulation_finished ;
    if c_true finished then Ret false
    else
      current_time ← get_current_time_ms ;
      if current_time - start_time >=? duration_ms then Ret false
      else
        let remaining_time := duration_ms - (current_time - start_time) in
        usleep (sleep_increment remaining_time) ;;
        Ret true).

Definition philosopher_eat : prog unit :=
  let p := philosopher_at sim philo in
  if philosopher_count sim =? 1 then
    pthread_mutex_lock (fork_mutex (left_fork_index p)) ;;
    print_timestamp_and_philo_status_msg philo "has taken a fork" NOT_DEAD ;;
    philo_spend_time (time_to_die sim + 1) ;;
    pthread_mutex_unlock (fork_mutex (left_fork_index p))
  else
    acquire_forks ;;
    print_timestamp_and_philo_status_msg philo "is eating" NOT_DEAD ;;
    pthread_mutex_lock data_mutex ;;
    now ← get_current_time_ms ;
    store (set_last_meal_time philo now) ;;
    store (incr_meals_eaten philo) ;;
    pthread_mutex_unlock data_mutex ;;
    philo_spend_time (time_to_eat sim) ;;
    release_forks.

Definition philosopher_lifecycle : prog unit :=
  let p := philosopher_at sim philo in
  (if Z.rem (id p) 2 =? 0 then usleep (Z.quot (time_to_eat sim) 2)
   else Ret tt) ;;
  Loop (
    finished ← is_simulation_finished ;
    if c_true finished then Ret false
    else
      philosopher_eat ;;
      finished ← is_simulation_finished ;
      if c_true finished then Ret false
      else
        print_timestamp_and_philo_status_msg philo "is sleeping" NOT_DEAD ;;
        philo_spend_time (time_to_sleep sim) ;;
        finished ← is_simulation_finished ;
        if c_true finished then Ret false
        else
          print_timestamp_and_philo_status_msg philo "is thinking" NOT_DEAD ;;
          (if Z.rem (philosopher_count sim) 2 =? 1 then usleep 100
           else Ret tt) ;;
          Ret true).

End Philo.

(** The bodies of the two loops of [philo.c], as the functions above have
    them, named for the proofs. *)
Definition philo_spend_time_body (duration_ms start_time : Z) : prog bool :=
  finished ← is_simulation_finished ;
  if c_true finished then Ret false
  else
    current_time ← get_current_time_ms ;
    if current_time - start_time >=? duration_ms then Ret false
    else
      let remaining_time := duration_ms - (current_time - start_time) in
      usleep (sleep_increment remaining_time) ;;
      Ret true.

Definition philosopher_lifecycle_body (sim : t_simulation) (philo : Z) : prog bool :=
  finished ← is_simulation_finished ;
  if c_true finished then Ret false
  else
    philosopher_eat sim philo ;;
    finished ← is_simulation_finished ;
    if c_true finished then Ret false
    else
      print_timestamp_and_philo_status_msg philo "is sleeping" NOT_DEAD ;;
      philo_spend_time (time_to_sleep sim) ;;
      finished ← is_simulation_finished ;
      if c_true finished then Ret false
      else
        print_timestamp_and_philo_status_msg philo "is thinking" NOT_DEAD ;;
        (if Z.rem (philosopher_count sim) 2 =? 1 then usleep 100
         else Ret tt) ;;
        Ret true.

(** ** [free.c] *)

(** [check_for_death] reads the clock and scans the records; the caller
    holds [data_mutex]. *)
Definition check_for_death : prog Z :=
  current_time ← get_current_time_ms ;
  Do (Access (check_for_death_at current_time)).

Definition evaluate_simulation_status : prog Z :=
  pthread_mutex_lock data_mutex ;;
  death_philosopher_id ← check_for_death ;
  if death_philosopher_id >? 0 then
    pthread_mutex_unlock data_mutex ;;
    print_philosopher_status (death_philosopher_id - 1) "died" TRUE ;;
    Ret TRUE
  else
    all_satisfied ← Do (Access check_all_philosophers_satisfied) ;
    pthread_mutex_unlock data_mutex ;;
    Ret all_satisfied.

(** [i = -1; while (++i < count) call(i);], entered with [i] already
    incremented. *)
Fixpoint for_each_index (n : nat) (i count : Z) (call : Z -> prog unit)
  : prog unit :=
  match n with
  | O => Ret tt
  | S n' =>
      if i <? count then call i ;; for_each_index n' (i + 1) count call
      else Ret tt
  end.

(** The two arrays are allocated when the monitor runs, so both [if]s of
    the source free their array; the two pointers, which the source then
    sets to [NULL], are not part of the model. *)
Definition cleanup_simulation_resources (sim : t_simulation) : prog unit :=
  let count := philosopher_count sim in
  for_each_index (Z.to_nat count) 0 count pthread_join ;;
  for_each_index (Z.to_nat count) 0 count
    (fun i => pthread_mutex_destroy (fork_mutex i)) ;;
  pthread_mutex_destroy print_mutex ;;
  pthread_mutex_destroy data_mutex ;;
  free "philosophers" ;;
  free "fork_mutexes".

Definition check_interval (sim : t_simulation) : Z :=
  let check_interval_us := Z.quot (time_to_die sim) 10 in
  let check_interval_us :=
    if check_interval_us <? 500 then 500 else check_interval_us in
  if check_interval_us >? 5000 then 5000 else check_interval_us.

(** The polling loop of [monitor_simulation_and_cleanup]. *)
Definition monitor_poll (sim : t_simulation) : prog unit :=
  let check_interval_us := check_interval sim in
  Loop (
    status ← evaluate_simulation_status ;
    if status =? TRUE then Ret false
    else usleep check_interval_us ;; Ret true).

Definition monitor_simulation_and_cleanup (sim : t_simulation) : prog unit :=
  monitor_poll sim ;;
  cleanup_simulation_resources sim.

(** ** Running one thread *)

(** What the rest of the system shows a thread when it looks: the clock and
    the shared structure. *)
Record snapshot : Type := mk_snapshot {
  snap_time : Z;
  snap_sim : t_simulation
}.

(** The events of a trace: the calls with their answers. *)
Inductive ev : Type :=
| EvLock (m : mutex)
| EvUnlock (m : mutex)
| EvDestroy (m : mutex)
| EvJoin (philo : Z)
| EvFree (array : string)
| EvSleep (us : Z)
| EvTime (t : Z)
| EvFinished (v : Z)
| EvStatus (philo : Z) (msg : string) (is_dead : Z)
| EvMem (before after : t_simulation).

(** How a run ends: with a result and the snapshots not yet consumed, for
    want of a further snapshot, or for want of loop iterations. *)
Inductive outcome (R : Type) : Type :=
| Done (r : R) (rest : list snapshot)
| EnvEnd
| FuelEnd.
Arguments Done {R} r rest.
Arguments EnvEnd {R}.
Arguments FuelEnd {R}.

Definition perform {R : Type} (a : action R) (env : list snapshot)
  : list ev * outcome R :=
  match a in action R0 return list ev * outcome R0 with
  | Lock m => ([EvLock m], Done tt env)
  | Unlock m => ([EvUnlock m], Done tt env)
  | Destroy m => ([EvDestroy m], Done tt env)
  | Join i => ([EvJoin i], Done tt env)
  | Free a => ([EvFree a], Done tt env)
  | Sleep us => ([EvSleep us], Done tt env)
  | Status i msg d => ([EvStatus i msg d], Done tt env)
  | Now =>
      match env with
      | [] => ([], EnvEnd)
      | s :: env' => ([EvTime (snap_time s)], Done (snap_time s) env')
      end
  | Finished =>
      match env with
      | [] => ([], EnvEnd)
      | s :: env' =>
          ([EvFinished (simulation_ended (snap_sim s))],
           Done (simulation_ended (snap_sim s)) env')
      end
  | Access f =>
      match env with
      | [] => ([], EnvEnd)
      | s :: env' =>
          ([EvMem (snap_sim s) (fst (f (snap_sim s)))],
           Done (snd (f (snap_sim s))) env')
      end
  end.

(** Sequencing of two runs. *)
Definition then_run {A R : Type} (first : list ev * outcome A)
  (next : A -> list snapshot -> list ev * outcome R) : list ev * outcome R :=
  match snd first with
  | Done a env' => (fst first ++ fst (next a env'), snd (next a env'))
  | EnvEnd => (fst first, EnvEnd)
  | FuelEnd => (fst first, FuelEnd)
  end.

(** At most [n] iterations of a loop body. *)
Fixpoint iterate (body : list snapshot -> list ev * outcome bool) (n : nat)
  (env : list snapshot) : list ev * outcome unit :=
  match n with
  | O => ([], FuelEnd)
  | S n' =>
      then_run (body env)
        (fun continue env' =>
           if continue then iterate body n' env' else ([], Done tt env'))
  end.

(** [run p fuel env]: the trace and the outcome of [p] when every loop may
    take up to [fuel] iterations and the environment shows the snapshots
    [env], one for each look. *)
Fixpoint run {R : Type} (p : prog R) (fuel : nat) (env : list snapshot)
  {struct p} : list ev * outcome R :=
  match p in prog R0 return list ev * outcome R0 with
  | Ret r => ([], Done r env)
  | Do a => perform a env
  | Bind p k => then_run (run p fuel env) (fun a env' => run (k a) fuel env')
  | Loop body => iterate (run body fuel) fuel env
  end.

(** The number of looks at the environment in a trace: each consumed one
    snapshot. *)
Fixpoint looks (tr : list ev) : nat :=
  match tr with
  | [] => O
  | (EvTime _ | EvFinished _ | EvMem _ _) :: tr' => S (looks tr')
  | _ :: tr' => looks tr'
  end.

(** Every snapshot consumed by a run shows as a look in its trace. *)
Definition looks_accounted {R : Type} (env : list snapshot) (r : list ev * outcome R)
  : Prop :=
  match snd r with
  | Done _ rest => length env = (looks (fst r) + length rest)%nat
  | EnvEnd => looks (fst r) = length env
  | FuelEnd => True
  end.

(** The mutexes a trace locks, in order. *)
Fixpoint locks_of (tr : list ev) : list mutex :=
  match tr with
  | [] => []
  | EvLock m :: tr' => m :: locks_of tr'
  | _ :: tr' => locks_of tr'
  end.

(** ** Vocabulary of the statements *)

(** Philosopher [i] has gone without a meal for [time_to_die] or longer. *)
Definition starving (current_time : Z) (sim : t_simulation) (i : Z) : Prop :=
  current_time - last_meal_time (philosopher_at sim i) >= time_to_die sim.

(** Philosopher [i] has eaten [required_meals] times or more. *)
Definition satisfied (sim : t_simulation) (i : Z) : Prop :=
  meals_eaten (philosopher_at sim i) >= required_meals sim.

(** Modelled from the spec: the policy table of the design notes,
    [{odd: [left, right], even: [right, left]}]. *)
Definition fork_policy (p : t_philosopher) : list mutex :=
  if Z.odd (id p)
  then [fork_mutex (left_fork_index p); fork_mutex (right_fork_index p)]
  else [fork_mutex (right_fork_index p); fork_mutex (left_fork_index p)].

(** The iterations of the responsive wait that went on to sleep: each saw
    the flag down and less than [duration_ms] elapsed. *)
Inductive wait_iterations (duration_ms start_time : Z) : nat -> list ev -> Prop :=
| wait_none : wait_iterations duration_ms start_time O []
| wait_more (v t : Z) (n : nat) (tr : list ev) :
    c_true v = false ->
    t - start_time < duration_ms ->
    wait_iterations duration_ms start_time n tr ->
    wait_iterations duration_ms start_time (S n)
      (EvFinished v :: EvTime t
       :: EvSleep (sleep_increment (duration_ms - (t - start_time))) :: tr).

(** The end of the responsive wait.  It has returned ([true]) after seeing
    the flag up, or the flag down and [duration_ms] or more elapsed; it has
    not returned ([false]) when its last iteration is not begun or has only
    seen the flag down. *)
Inductive wait_end (duration_ms start_time : Z) : list ev -> bool -> Prop :=
| wait_flag (v : Z) :
    c_true v = true -> wait_end duration_ms start_time [EvFinished v] true
| wait_deadline (v t : Z) :
    c_true v = false -> t - start_time >= duration_ms ->
    wait_end duration_ms start_time [EvFinished v; EvTime t] true
| wait_cut : wait_end duration_ms start_time [] false
| wait_cut_looking (v : Z) :
    c_true v = false -> wait_end duration_ms start_time [EvFinished v] false.

Definition returned {R : Type} (o : outcome R) : bool :=
  match o with Done _ _ => true | _ => false end.

(** The three phase messages of the lifecycle, as a proposition and as a
    test. *)
Definition phase_message (msg : string) : Prop :=
  msg = "is eating" \/ msg = "is sleeping" \/ msg = "is thinking".

Definition is_phase_message (msg : string) : bool :=
  ((msg =? "is eating") || (msg =? "is sleeping") || (msg =? "is thinking"))%string.

(** An event that is not a phase message. *)
Definition quiet_event (e : ev) : Prop :=
  match e with
  | EvStatus _ msg _ => is_phase_message msg = false
  | _ => True
  end.

(** The taking of a fork: the lock of a fork mutex or a report that is not
    a phase message. *)
Definition fork_taking (e : ev) : Prop :=
  match e with
  | EvLock (fork_mutex _) => True
  | EvStatus _ msg _ => is_phase_message msg = false
  | _ => False
  end.

(** What the polling loop of the monitor may do: take and release
    [data_mutex] only, sleep, look at the clock, report, and leave the
    shared structure as it is or raise the flag in it. *)
Definition poll_event (e : ev) : Prop :=
  match e with
  | EvLock m | EvUnlock m => m = data_mutex
  | EvDestroy _ | EvJoin _ | EvFree _ | EvFinished _ => False
  | EvSleep _ | EvTime _ | EvStatus _ _ _ => True
  | EvMem s s' => s' = s \/ s' = set_simulation_ended TRUE s
  end.

(** The reports of a trace. *)
Fixpoint reports_of (tr : list ev) : list ev :=
  match tr with
  | [] => []
  | EvStatus i msg d :: tr' => EvStatus i msg d :: reports_of tr'
  | _ :: tr' => reports_of tr'
  end.

Definition is_status (e : ev) : Prop :=
  match e with EvStatus _ _ _ => True | _ => False end.

(** An event that keeps a raised flag raised. *)
Definition latch_event (e : ev) : Prop :=
  match e with
  | EvMem s s' =>
      simulation_ended s' = simulation_ended s \/ simulation_ended s' = TRUE
  | _ => True
  end.

(** An event that leaves the flag as it is. *)
Definition flag_kept (e : ev) : Prop :=
  match e with
  | EvMem s s' => simulation_ended s' = simulation_ended s
  | _ => True
  end.

Definition is_mem (e : ev) : Prop :=
  match e with EvMem _ _ => True | _ => False end.

(** The events of a responsive wait. *)
Definition wait_event (e : ev) : Prop :=
  match e with
  | EvTime _ | EvFinished _ | EvSleep _ => True
  | _ => False
  end.

(** The release of a mutex. *)
Definition is_unlock (e : ev) : Prop :=
  match e with EvUnlock _ => True | _ => False end.

(** An access of the monitor is the death check's or the satisfaction
    check's. *)
Definition check_event (e : ev) : Prop :=
  match e with
  | EvMem s s' =>
      (exists current_time, s' = fst (check_for_death_at current_time s)) \/
      s' = fst (check_all_philosophers_satisfied s)
  | _ => True
  end.

(** An event that touches a fork mutex. *)
Definition fork_event (e : ev) : Prop :=
  match e with
  | EvLock (fork_mutex _) | EvUnlock (fork_mutex _) | EvDestroy (fork_mutex _) => True
  | _ => False
  end.

(** Modelled from the spec: the start-up delay of an even-id philosopher,
    half the eating time, a time in milliseconds, as the number of
    microseconds [usleep] has to be given for it. *)
Definition stagger_delay_us (sim : t_simulation) : Z :=
  Z.quot (time_to_eat sim) 2 * 1000.

(** ** All threads together *)

#[global] Instance mutex_eq_dec : EqDecision mutex.
Proof. solve_decision. Defined.

(** The shared state: the structure, the clock, the owner of each mutex,
    and what every thread has done so far.  Thread 0 is the monitor, thread
    [i + 1] is the philosopher at position [i]. *)
Record world : Type := mk_world {
  mem : t_simulation;
  clock : Z;
  owner : mutex -> option nat;
  history : list (nat * ev)
}.

Definition set_mem (s : t_simulation) (w : world) : world :=
  mk_world s (clock w) (owner w) (history w).

Definition set_owner (m : mutex) (o : option nat) (w : world) : world :=
  mk_world (mem w) (clock w)
    (fun m' => if decide (m' = m) then o else owner w m') (history w).

Definition advance (d : Z) (w : world) : world :=
  mk_world (mem w) (clock w + d) (owner w) (history w).

Definition record (t : nat) (e : ev) (w : world) : world :=
  mk_world (mem w) (clock w) (owner w) (history w ++ [(t, e)]).

(** The events of thread [t] in a history. *)
Fixpoint events_of (t : nat) (h : list (nat * ev)) : list ev :=
  match h with
  | [] => []
  | (t', e) :: h' =>
      if Nat.eqb t' t then e :: events_of t h' else events_of t h'
  end.

(** Modelled from the spec: the start-up code is not among the sources; it
    starts one thread per philosopher, each running
    [philosopher_lifecycle], and then runs the monitor. *)
Definition thread_code (sim : t_simulation) (t : nat) : prog unit :=
  match t with
  | O => monitor_simulation_and_cleanup sim
  | S i => philosopher_lifecycle sim (Z.of_nat i)
  end.

(** [tr] is the beginning of some run of [p]. *)
Definition is_trace {R : Type} (p : prog R) (tr : list ev) : Prop :=
  exists fuel env, tr `prefix_of` fst (run p fuel env).

(** [tr] is a run of [p] to its end. *)
Definition is_complete {R : Type} (p : prog R) (tr : list ev) : Prop :=
  exists fuel env r rest, run p fuel env = (tr, Done r rest).

(** What an event of thread [t] needs of the world and does to it.  A mutex
    is taken when free and released by its owner; a join waits for the
    thread joined; a look sees the world as it is; an access replaces the
    structure.  A free leaves [mem] as it is: [mem] goes on showing what a
    freed array held, and the pointers that the cleanup sets to [NULL]
    are not part of the model, so what [mem] says of the array is meant
    for the states before the free. *)
Inductive effect (sim : t_simulation) (t : nat) (w : world) : ev -> world -> Prop :=
| effect_lock (m : mutex) :
    owner w m = None -> effect sim t w (EvLock m) (set_owner m (Some t) w)
| effect_unlock (m : mutex) :
    owner w m = Some t -> effect sim t w (EvUnlock m) (set_owner m None w)
| effect_destroy (m : mutex) : effect sim t w (EvDestroy m) w
| effect_join (i : Z) :
    is_complete (thread_code sim (S (Z.to_nat i)))
      (events_of (S (Z.to_nat i)) (history w)) ->
    effect sim t w (EvJoin i) w
| effect_free (a : string) : effect sim t w (EvFree a) w
| effect_sleep (us : Z) : effect sim t w (EvSleep us) w
| effect_time : effect sim t w (EvTime (clock w)) w
| effect_finished : effect sim t w (EvFinished (simulation_ended (mem w))) w
| effect_status (i : Z) (msg : string) (d : Z) : effect sim t w (EvStatus i msg d) w
| effect_mem (s' : t_simulation) : effect sim t w (EvMem (mem w) s') (set_mem s' w).

(** One step of the system: a thread performs the next event of its code,
    or time passes. *)
Inductive gstep (sim : t_simulation) : world -> world -> Prop :=
| gstep_thread (t : nat) (e : ev) (w w' : world) :
    Z.of_nat t <= philosopher_count sim ->
    is_trace (thread_code sim t) (events_of t (history w) ++ [e]) ->
    effect sim t w e w' ->
    gstep sim w (record t e w')
| gstep_tick (d : Z) (w : world) :
    0 <= d -> gstep sim w (advance d w).

(** The world when the threads start, at time [t0], on the structure [sim]
    as initialised. *)
Definition start (sim : t_simulation) (t0 : Z) : world :=
  mk_world sim t0 (fun _ => None) [].

Definition reachable (sim : t_simulation) (w : world) : Prop :=
  exists t0, rtc (gstep sim) (start sim t0) w.

(** ** Properties of every event of a command *)

(** [every phi p]: whatever the environment answers, each action of [p]
    yields events that satisfy [phi]. *)
Inductive every (phi : ev -> Prop) : forall {R : Type}, prog R -> Prop :=
| every_ret {R : Type} (r : R) : every phi (Ret r)
| every_do {R : Type} (a : action R) :
    (forall env, Forall phi (fst (perform a env))) -> every phi (Do a)
| every_bind {A R : Type} (p : prog A) (k : A -> prog R) :
    every phi p -> (forall a, every phi (k a)) -> every phi (Bind p k)
| every_loop (body : prog bool) : every phi body -> every phi (Loop body).

(** Decomposes a goal [every phi p] along the structure of [p]; the
    accesses to the shared structure are left to the caller. *)
Ltac every_step :=
  match goal with
  | |- every _ (Ret _) => apply every_ret
  | |- every _ (Loop _) => apply every_loop
  | |- every _ (Bind _ _) => apply every_bind; [|intros ?]
  | |- every _ (if ?b then _ else _) => destruct b
  | |- every _ (match ?b with first_branch => _ | _ => _ end) => destruct b
  | |- every _ (Do (Access _)) => fail 1
  | |- every _ (Do _) =>
      apply every_do; intros [|? ?]; cbn; repeat constructor
  | |- every _ (for_each_index ?n _ _ _) => fail 1
  | |- every _ ?p => progress (let h := head_of p in unfold h)
  end
with head_of p :=
  match p with
  | ?f _ _ _ => f
  | ?f _ _ => f
  | ?f _ => f
  | ?f => f
  end.

(** ** Automata over traces *)

(** A trace scanned by an automaton with states [Q]: the state reached, or
    [None] when some event was refused. *)
Fixpoint scan {Q : Type} (delta : Q -> ev -> option Q) (q : Q) (tr : list ev)
  : option Q :=
  match tr with
  | [] => Some q
  | e :: tr' =>
      match delta q e with
      | Some q' => scan delta q' tr'
      | None => None
      end
  end.

(** A run begun in state [q] is accepted by the automaton [delta], and its
    outcome and final state satisfy [post]. *)
Definition accepts {Q R : Type} (delta : Q -> ev -> option Q) (q : Q)
  (r : list ev * outcome R) (post : outcome R -> Q -> Prop) : Prop :=
  exists q', scan delta q (fst r) = Some q' /\ post (snd r) q'.

(** What a philosopher may do around its first sight of the raised flag:
    [Watching] before it, [Leaving] after it (only forks are put down and
    the flag is looked at once more), [Gone] after that second look, and
    [Unlatched] when a later look showed the flag down again, which the
    latch excludes. *)
Inductive leaving : Type := Watching | Leaving | Gone | Unlatched.

Definition leaving_step (q : leaving) (e : ev) : option leaving :=
  match q, e with
  | Unlatched, _ => Some Unlatched
  | Watching, EvFinished v => if c_true v then Some Leaving else Some Watching
  | Watching, _ => Some Watching
  | Leaving, EvUnlock _ => Some Leaving
  | Leaving, EvFinished v => if c_true v then Some Gone else Some Unlatched
  | Leaving, _ => None
  | Gone, _ => None
  end.

(** After a wait or an eat phase begun while [Watching], the philosopher is
    still [Watching], or is [Leaving] and the wait or phase has returned. *)
Definition still_or_leaving {R : Type} (o : outcome R) (q : leaving) : Prop :=
  q = Watching \/ (q = Leaving /\ returned o = true).

(** After one iteration of the lifecycle loop: it goes on only while
    [Watching], it ends the loop only after a sight of the raised flag, and
    it lacks loop iterations only while [Watching]. *)
Definition after_iteration (o : outcome bool) (q : leaving) : Prop :=
  q = Unlatched \/
  match o with
  | Done true _ => q = Watching
  | Done false _ => q = Leaving \/ q = Gone
  | EnvEnd => True
  | FuelEnd => q = Watching
  end.

(** After the lifecycle: it has returned only after a sight of the raised
    flag, and it lacks loop iterations only while [Watching]. *)
Definition after_lifecycle (o : outcome unit) (q : leaving) : Prop :=
  q = Unlatched \/
  match o with
  | Done _ _ => q = Leaving \/ q = Gone
  | EnvEnd => True
  | FuelEnd => q = Watching
  end.

(** Whether the philosopher has just looked at the flag and seen it down
    ([Checked]), having since done nothing but take forks. *)
Inductive gate : Type := Checked | Unchecked.

(** A phase message is let through only when [Checked]. *)
Definition gate_step (q : gate) (e : ev) : option gate :=
  match e with
  | EvFinished v => if c_true v then Some Unchecked else Some Checked
  | EvLock (fork_mutex _) => Some q
  | EvStatus _ msg _ =>
      if is_phase_message msg
      then match q with Checked => Some Unchecked | Unchecked => None end
      else Some q
  | _ => Some Unchecked
  end.

(** At most one report: the state tells whether one has been made. *)
Definition report_step (reported : bool) (e : ev) : option bool :=
  match e with
  | EvStatus _ _ _ => if reported then None else Some true
  | _ => Some reported
  end.

(** ** Inputs of the examples *)

Definition two_philosophers : t_simulation :=
  mk_simulation 2 800 200 200 (-1) FALSE
    [mk_philosopher 1 0 1 0 0; mk_philosopher 2 1 0 0 0].

Definition one_starving : t_simulation :=
  mk_simulation 3 800 200 200 (-1) FALSE
    [mk_philosopher 1 0 1 1000 0; mk_philosopher 2 1 2 100 0;
     mk_philosopher 3 2 0 150 0].

Definition all_fed : t_simulation :=
  mk_simulation 2 800 200 200 3 FALSE
    [mk_philosopher 1 0 1 900 3; mk_philosopher 2 1 0 950 4].

Definition lone_philosopher : t_simulation :=
  mk_simulation 1 300 200 200 (-1) FALSE [mk_philosopher 1 0 0 0 0].

Definition lone_snapshot (t : Z) : snapshot := mk_snapshot t lone_philosopher.

Definition two_snapshot (t flag : Z) : snapshot :=
  mk_snapshot t (set_simulation_ended flag two_philosophers).

(** The first philosopher of two starts a meal at time 10; the flag is up
    when it next looks, at time 20. *)
Definition flag_raised_while_eating : list snapshot :=
  [two_snapshot 10 0; two_snapshot 10 0; two_snapshot 10 0; two_snapshot 10 0;
   two_snapshot 10 0; two_snapshot 20 1; two_snapshot 20 1; two_snapshot 20 1].
Definition lone_hungry : t_simulation :=
  mk_simulation 1 300 200 200 5 FALSE [mk_philosopher 1 0 0 0 0].

(** The monitor of a lone philosopher, started at time 1000 with the last
    meal at time 0: it takes [data_mutex], reads the clock and raises the
    flag. *)
Definition monitor_locked : world :=
  record 0 (EvLock data_mutex)
    (set_owner data_mutex (Some O) (start lone_hungry 1000)).
Definition monitor_timed : world := record 0 (EvTime 1000) monitor_locked.
Definition flag_raised : world :=
  record 0 (EvMem lone_hungry (set_simulation_ended TRUE lone_hungry))
    (set_mem (set_simulation_ended TRUE lone_hungry) monitor_timed).

(** ** Vocabulary of the further properties *)

(** The indices [i, i + 1, ...], [n] of them: the values [i] takes in
    [i = -1; while (++i < count)] when started at [i] with [n] to go. *)
Fixpoint indices_from (n : nat) (i : Z) : list Z :=
  match n with
  | O => []
  | S n' => i :: indices_from n' (i + 1)
  end.


(** [n] iterations suffice for a loop at index [i] that runs to [count]. *)
Definition iterations_suffice (count i : Z) (n : nat) : Prop :=
  count - i <= Z.of_nat n.

(** A command that, run to its end from the state [q] of an automaton,
    is accepted and leaves the automaton in [q] again; cut short, it is
    accepted. *)
Definition keeps {Q R : Type} (delta : Q -> ev -> option Q) (q : Q) (p : prog R)
  : Prop :=
  forall fuel env,
    accepts delta q (run p fuel env) (fun o q' => returned o = true -> q' = q).

(** Whether [m] is among the mutexes held. *)
Definition holds (m : mutex) (held : list mutex) : bool :=
  existsb (fun m' => bool_decide (m' = m)) held.

(** Giving [m] back: it must be held. *)
Fixpoint release (m : mutex) (held : list mutex) : option (list mutex) :=
  match held with
  | [] => None
  | m' :: held' =>
      if decide (m' = m) then Some held'
      else option_map (cons m') (release m held')
  end.

(** The locking discipline of a thread; the state is the list of the
    mutexes it holds.  A thread releases only what it holds.  While it
    holds [data_mutex] it only reads the clock, accesses the shared
    structure and releases [data_mutex]; it accesses the structure only
    then. *)
Definition discipline_step (held : list mutex) (e : ev) : option (list mutex) :=
  match e with
  | EvTime _ => Some held
  | EvMem _ _ => if holds data_mutex held then Some held else None
  | EvUnlock m =>
      if holds data_mutex held && negb (bool_decide (m = data_mutex)) then None
      else release m held
  | EvLock m => if holds data_mutex held then None else Some (m :: held)
  | _ => if holds data_mutex held then None else Some held
  end.

(** How often a trace locks, and unlocks, the mutex [m]. *)
Fixpoint lock_count (m : mutex) (tr : list ev) : nat :=
  match tr with
  | [] => O
  | EvLock m' :: tr' =>
      if decide (m' = m) then S (lock_count m tr') else lock_count m tr'
  | _ :: tr' => lock_count m tr'
  end.

Fixpoint unlock_count (m : mutex) (tr : list ev) : nat :=
  match tr with
  | [] => O
  | EvUnlock m' :: tr' =>
      if decide (m' = m) then S (unlock_count m tr') else unlock_count m tr'
  | _ :: tr' => unlock_count m tr'
  end.

(** How often [m] occurs among the mutexes held. *)
Fixpoint held_count (m : mutex) (held : list mutex) : nat :=
  match held with
  | [] => O
  | m' :: held' =>
      if decide (m' = m) then S (held_count m held') else held_count m held'
  end.

(** An event that changes no mutex and needs none: allowed whenever
    [data_mutex] is not held. *)
Definition lock_free_event (e : ev) : Prop :=
  match e with
  | EvLock _ | EvUnlock _ | EvMem _ _ => False
  | _ => True
  end.


(** In a world, what each thread holds by its own history is what it owns:
    the mutexes a thread holds are distinct and owned by it. *)
Definition owned_as_held (w : world) : Prop :=
  forall t held,
    scan discipline_step [] (events_of t (history w)) = Some held ->
    List.NoDup held /\ forall m, In m held -> owner w m = Some t.

(** Whether the last access left the flag raised; the cleanup is let
    through only then. *)
Definition raised_step (raised : bool) (e : ev) : option bool :=
  match e with
  | EvMem _ s' => Some (simulation_ended s' =? TRUE)
  | EvJoin _ | EvDestroy _ | EvFree _ => if raised then Some true else None
  | _ => Some raised
  end.

(** An event of the cleanup. *)
Definition cleanup_event (e : ev) : Prop :=
  match e with
  | EvJoin _ | EvDestroy _ | EvFree _ => True
  | _ => False
  end.

(** The phases of the lifecycle and their messages. *)
Inductive phase : Type := Eating | Sleeping | Thinking.

Definition message_of (q : phase) : string :=
  match q with
  | Eating => "is eating"
  | Sleeping => "is sleeping"
  | Thinking => "is thinking"
  end.

(** The phase reported after [q]; a lone philosopher ([lone]) reports no
    eating. *)
Definition next_phase (lone : bool) (q : phase) : phase :=
  match q with
  | Eating => Sleeping
  | Sleeping => Thinking
  | Thinking => if lone then Sleeping else Eating
  end.

Definition first_phase (lone : bool) : phase :=
  if lone then Sleeping else Eating.

(** The phase messages of a trace, in order. *)
Fixpoint phases_of (tr : list ev) : list string :=
  match tr with
  | [] => []
  | EvStatus _ msg _ :: tr' =>
      if is_phase_message msg then msg :: phases_of tr' else phases_of tr'
  | _ :: tr' => phases_of tr'
  end.

(** The messages are those of the phases from [q] on, in the order of the
    cycle. *)
Fixpoint in_cycle (lone : bool) (q : phase) (msgs : list string) : Prop :=
  match msgs with
  | [] => True
  | msg :: msgs' => msg = message_of q /\ in_cycle lone (next_phase lone q) msgs'
  end.

(** The automaton of the cycle: a phase message is let through when it is
    the one expected. *)
Definition phase_step (lone : bool) (q : phase) (e : ev) : option phase :=
  match e with
  | EvStatus _ msg _ =>
      if is_phase_message msg
      then if (msg =? message_of q)%string then Some (next_phase lone q) else None
      else Some q
  | _ => Some q
  end.

(** The configuration: the fields of the structure that are set at
    start-up and only read afterwards. *)
Definition configuration (s : t_simulation) : Z * Z * Z * Z * Z :=
  (philosopher_count s, time_to_die s, time_to_eat s, time_to_sleep s,
   required_meals s).

(** What of the structure is set once and read by every thread: the
    configuration and, for each philosopher, its id and fork indices. *)
Definition static_of (s : t_simulation)
  : Z * Z * Z * Z * Z * list (Z * Z * Z) :=
  (philosopher_count s, time_to_die s, time_to_eat s, time_to_sleep s,
   required_meals s,
   map (fun p => (id p, left_fork_index p, right_fork_index p)) (philosophers s)).

(** From [s] to [s'] every record is still there and no meal count has
    gone down. *)
Definition meals_grow (s s' : t_simulation) : Prop :=
  forall n p, philosophers s !! n = Some p ->
              exists p', philosophers s' !! n = Some p' /\
                         meals_eaten p <= meals_eaten p'.

(** An access of the philosopher at position [philo] stamps its last meal
    or counts a meal. *)
Definition meal_event (philo : Z) (e : ev) : Prop :=
  match e with
  | EvMem s s' =>
      (exists t, s' = set_last_meal_time philo t s) \/
      s' = incr_meals_eaten philo s
  | _ => True
  end.

(** What a philosopher may hold when it reports: both its forks [l] and
    [r] for "is eating", nothing for "is sleeping" and "is thinking". *)
Definition phase_allowed (l r : mutex) (held : list mutex) (msg : string) : bool :=
  if (msg =? "is eating")%string then holds l held && holds r held
  else if is_phase_message msg then match held with [] => true | _ => false end
  else true.

(** The locking discipline together with the rule of the table: a phase is
    reported only with the forks it needs. *)
Definition table_step (l r : mutex) (held : list mutex) (e : ev)
  : option (list mutex) :=
  match e with
  | EvStatus _ msg _ =>
      if phase_allowed l r held msg then discipline_step held e else None
  | _ => discipline_step held e
  end.

(** Whether, by its events so far, a philosopher is at its meal: it has
    reported "is eating" and has put down no fork since. *)
Fixpoint dining_from (b : bool) (tr : list ev) : bool :=
  match tr with
  | [] => b
  | EvStatus _ msg _ :: tr' => dining_from (b || (msg =? "is eating")%string) tr'
  | EvUnlock (fork_mutex _) :: tr' => dining_from false tr'
  | _ :: tr' => dining_from b tr'
  end.

Definition dining (tr : list ev) : bool := dining_from false tr.

(** The fork mutexes of the philosopher at position [philo]. *)
Definition left_fork (sim : t_simulation) (philo : Z) : mutex :=
  fork_mutex (left_fork_index (philosopher_at sim philo)).

Definition right_fork (sim : t_simulation) (philo : Z) : mutex :=
  fork_mutex (right_fork_index (philosopher_at sim philo)).

#[global] Instance t_philosopher_eq_dec : EqDecision t_philosopher.
Proof. solve_decision. Defined.

#[global] Instance t_simulation_eq_dec : EqDecision t_simulation.
Proof. solve_decision. Defined.

(** How far the recording of a meal has got: nothing under way, "is
    eating" reported, [data_mutex] taken, the clock read, [last_meal_time]
    set, [meals_eaten] incremented. *)
Inductive meal : Type :=
| Away | Reported | Taken | Read (now : Z) | Stamped | Counted.

(** The recording of a meal by the philosopher at position [philo]: after
    the report, [data_mutex] is taken, the clock is read, [last_meal_time]
    is set to the time read, [meals_eaten] is incremented and [data_mutex]
    is released, with nothing in between; outside of it the philosopher
    neither accesses the structure nor takes [data_mutex]. *)
Definition meal_step (philo : Z) (q : meal) (e : ev) : option meal :=
  match q, e with
  | Away, EvStatus _ msg _ =>
      if (msg =? "is eating")%string then Some Reported else Some Away
  | Away, EvMem _ _ => None
  | Away, EvLock data_mutex => None
  | Away, _ => Some Away
  | Reported, EvLock data_mutex => Some Taken
  | Taken, EvTime now => Some (Read now)
  | Read now, EvMem s s' =>
      if decide (s' = set_last_meal_time philo now s) then Some Stamped else None
  | Stamped, EvMem s s' =>
      if decide (s' = incr_meals_eaten philo s) then Some Counted else None
  | Counted, EvUnlock data_mutex => Some Away
  | _, _ => None
  end.

(** An event that is no part of the recording of a meal. *)
Definition meal_free_event (e : ev) : Prop :=
  match e with
  | EvMem _ _ | EvLock data_mutex => False
  | EvStatus _ msg _ => (msg =? "is eating")%string = false
  | _ => True
  end.

(** What the events so far end with, by the state of the recording. *)
Definition meal_so_far (philo : Z) (q : meal) (tr : list ev) : Prop :=
  match q with
  | Away => True
  | Reported => exists pre i d, tr = pre ++ [EvStatus i "is eating" d]
  | Taken =>
      exists pre i d, tr = pre ++ [EvStatus i "is eating" d; EvLock data_mutex]
  | Read now =>
      exists pre i d,
        tr = pre ++ [EvStatus i "is eating" d; EvLock data_mutex; EvTime now]
  | Stamped =>
      exists pre i d now s,
        tr = pre ++ [EvStatus i "is eating" d; EvLock data_mutex; EvTime now;
                     EvMem s (set_last_meal_time philo now s)]
  | Counted =>
      exists pre i d now s s2,
        tr = pre ++ [EvStatus i "is eating" d; EvLock data_mutex; EvTime now;
                     EvMem s (set_last_meal_time philo now s);
                     EvMem s2 (incr_meals_eaten philo s2)]
  end.

(** How many times a trace increments the [meals_eaten] of the philosopher
    at position [philo]. *)
Fixpoint meals_counted (philo : Z) (tr : list ev) : Z :=
  match tr with
  | [] => 0
  | EvMem s s' :: tr' =>
      (if decide (s' = incr_meals_eaten philo s) then 1 else 0)
      + meals_counted philo tr'
  | _ :: tr' => meals_counted philo tr'
  end.

(** In a world, every record the simulation started with is still there,
    and its [meals_eaten] is the initial value plus the increments its own
    philosopher has made. *)
Definition meals_accounted (sim : t_simulation) (w : world) : Prop :=
  forall i p0, philosophers sim !! i = Some p0 ->
    exists p, philosophers (mem w) !! i = Some p /\
      meals_eaten p
      = meals_eaten p0 + meals_counted (Z.of_nat i) (events_of (S i) (history w)).

(** In a world, no clock reading made and no [last_meal_time] recorded
    is later than the clock. *)
Definition clock_bounds (w : world) : Prop :=
  (forall t v, In (t, EvTime v) (history w) -> v <= clock w) /\
  (forall i p, philosophers (mem w) !! i = Some p -> last_meal_time p <= clock w).

(** The record with its last meal at [now], and the record with one more
    meal; the other fields are kept. *)
Definition with_last_meal (now : Z) (p : t_philosopher) : t_philosopher :=
  mk_philosopher (id p) (left_fork_index p) (right_fork_index p) now (meals_eaten p).

Definition with_one_more_meal (p : t_philosopher) : t_philosopher :=
  mk_philosopher (id p) (left_fork_index p) (right_fork_index p)
    (last_meal_time p) (meals_eaten p + 1).

(** From [s] to [s'] the record at position [philo] has become [f] of
    itself and nothing else has changed: not the other records, the length
    of the array, the configuration or the flag. *)
Definition only_record_changed
  (philo : Z) (f : t_philosopher -> t_philosopher) (s s' : t_simulation) : Prop :=
  configuration s' = configuration s /\
  simulation_ended s' = simulation_ended s /\
  length (philosophers s') = length (philosophers s) /\
  (forall p, philosophers s !! Z.to_nat philo = Some p ->
             philosophers s' !! Z.to_nat philo = Some (f p)) /\
  (forall n, n <> Z.to_nat philo -> philosophers s' !! n = philosophers s !! n).

(** Whether the cleanup has freed the array of philosophers, by the
    history.  What is said of the array and of its records is said of the
    states in which it has not been freed. *)
Definition array_freed (h : list (nat * ev)) : bool :=
  existsb (fun te => match snd te with
                     | EvFree a => (a =? "philosophers")%string
                     | _ => false
                     end) h.

(** The first philosopher of two, started at time 10, has looked at the
    flag, taken both forks and reported "is eating". *)
Definition first_at_table : world :=
  record 1 (EvStatus 0 "is eating" NOT_DEAD)
    (record 1 (EvStatus 0 "has taken a right fork" NOT_DEAD)
       (record 1 (EvLock (fork_mutex 1))
          (set_owner (fork_mutex 1) (Some 1%nat)
             (record 1 (EvStatus 0 "has taken a left fork" NOT_DEAD)
                (record 1 (EvLock (fork_mutex 0))
                   (set_owner (fork_mutex 0) (Some 1%nat)
                      (record 1 (EvFinished FALSE)
                         (start two_philosophers 10)))))))).

(** It has then taken [data_mutex] and read the clock. *)
Definition about_to_stamp : world :=
  record 1 (EvTime 10)
    (record 1 (EvLock data_mutex)
       (set_owner data_mutex (Some 1%nat) first_at_table)).

(** It has then set its [last_meal_time] and incremented its
    [meals_eaten]. *)
Definition meal_stamped : world :=
  record 1 (EvMem two_philosophers (set_last_meal_time 0 10 two_philosophers))
    (set_mem (set_last_meal_time 0 10 two_philosophers) about_to_stamp).

Definition meal_counted : world :=
  record 1 (EvMem (set_last_meal_time 0 10 two_philosophers)
              (incr_meals_eaten 0 (set_last_meal_time 0 10 two_philosophers)))
    (set_mem (incr_meals_eaten 0 (set_last_meal_time 0 10 two_philosophers))
       meal_stamped).

(** What the first philosopher of two is answered on its way to
    [meal_counted]: the flag down, the time 10, and the structure as each
    access finds it. *)
Definition first_meal_answers : list snapshot :=
  [mk_snapshot 10 two_philosophers; mk_snapshot 10 two_philosophers;
   mk_snapshot 10 two_philosophers;
   mk_snapshot 10 (set_last_meal_time 0 10 two_philosophers)].

(** * Proofs *)

(** ** The code on small inputs *)

Example check_for_death_at_first_starving :
  check_for_death_at 1000 one_starving
  = (set_simulation_ended TRUE one_starving, 2).
Proof. reflexivity. Qed.

Example check_for_death_at_nobody :
  check_for_death_at 1000 all_fed = (all_fed, FALSE).
Proof. reflexivity. Qed.

Example check_all_philosophers_satisfied_all_fed :
  check_all_philosophers_satisfied all_fed
  = (set_simulation_ended TRUE all_fed, TRUE).
Proof. reflexivity. Qed.

Example check_all_philosophers_satisfied_unbounded :
  check_all_philosophers_satisfied two_philosophers = (two_philosophers, FALSE).
Proof. reflexivity. Qed.

Example sleep_increment_steps :
  sleep_increment 11 = 1000 /\ sleep_increment 10 = 100 /\
  sleep_increment 2 = 100 /\ sleep_increment 1 = 10.
Proof. repeat split. Qed.

Example check_interval_clamped :
  check_interval two_philosophers = 500 /\
  check_interval (mk_simulation 1 20000 200 200 (-1) FALSE []) = 2000 /\
  check_interval (mk_simulation 1 60000 200 200 (-1) FALSE []) = 5000.
Proof. repeat split. Qed.

Example acquire_forks_branch_by_parity :
  acquire_forks_branch 1 = first_branch /\ acquire_forks_branch 2 = last_branch.
Proof. split; reflexivity. Qed.

Example philo_spend_time_three_ms :
  run (philo_spend_time 3) 5
    [two_snapshot 0 0; two_snapshot 0 0; two_snapshot 1 0; two_snapshot 1 0;
     two_snapshot 2 0; two_snapshot 2 0; two_snapshot 3 0]
  = ([EvTime 0; EvFinished 0; EvTime 1; EvSleep 100; EvFinished 0; EvTime 2;
      EvSleep 10; EvFinished 0; EvTime 3], Done tt []).
Proof. reflexivity. Qed.

(** ** The monitor's checks *)

Lemma check_for_death_loop_spec (n : nat) (current_time : Z) (sim : t_simulation) :
  forall i, 0 <= i -> philosopher_count sim - i <= Z.of_nat n ->
  (exists j, i <= j < philosopher_count sim /\ starving current_time sim j /\
             (forall k, i <= k < j -> ~ starving current_time sim k) /\
             check_for_death_loop n i current_time sim
             = (set_simulation_ended TRUE sim, j + 1))
  \/ ((forall k, i <= k < philosopher_count sim -> ~ starving current_time sim k) /\
      check_for_death_loop n i current_time sim = (sim, FALSE)).
Proof.
  induction n as [|n IH]; intros i Hi Hn; cbn [check_for_death_loop].
  - right. split; [intros k Hk; lia | reflexivity].
  - destruct (Z.ltb_spec i (philosopher_count sim)) as [Hlt|Hge].
    + destruct (Z.geb_spec (current_time - last_meal_time (philosopher_at sim i))
                  (time_to_die sim)) as [Hs|Hs].
      * left. exists i. unfold starving. repeat split; lia.
      * destruct (IH (i + 1)) as [(j & Hj & Hsj & Hmin & Hr)|[Hnone Hr]]; try lia.
        -- left. exists j. repeat split; try lia; try assumption.
           intros k Hk. destruct (Z.eq_dec k i) as [->|Hne].
           ++ unfold starving. lia.
           ++ apply Hmin. lia.
        -- right. split; [|assumption].
           intros k Hk. destruct (Z.eq_dec k i) as [->|Hne].
           ++ unfold starving. lia.
           ++ apply Hnone. lia.
    + right. split; [intros k Hk; lia | reflexivity].
Qed.

Lemma check_for_death_at_spec (current_time : Z) (sim : t_simulation) :
  (exists j, 0 <= j < philosopher_count sim /\ starving current_time sim j /\
             (forall k, 0 <= k < j -> ~ starving current_time sim k) /\
             check_for_death_at current_time sim
             = (set_simulation_ended TRUE sim, j + 1))
  \/ ((forall k, 0 <= k < philosopher_count sim -> ~ starving current_time sim k) /\
      check_for_death_at current_time sim = (sim, FALSE)).
Proof.
  unfold check_for_death_at. apply check_for_death_loop_spec; lia.
Qed.

Lemma count_satisfied_bounds (n : nat) (sim : t_simulation) :
  forall i c, 0 <= i <= philosopher_count sim ->
  philosopher_count sim - i <= Z.of_nat n ->
  c <= count_satisfied n i c sim <= c + (philosopher_count sim - i) /\
  (count_satisfied n i c sim = c + (philosopher_count sim - i) <->
   forall k, i <= k < philosopher_count sim -> satisfied sim k).
Proof.
  induction n as [|n IH]; intros i c Hi Hn; cbn [count_satisfied].
  - split; [lia|]. split; [intros _ k Hk; lia | intros _; lia].
  - destruct (Z.ltb_spec i (philosopher_count sim)) as [Hlt|Hge].
    + destruct (Z.geb_spec (meals_eaten (philosopher_at sim i)) (required_meals sim))
        as [Hs|Hs].
      * destruct (IH (i + 1) (c + 1)) as [Hb Hiff]; try lia.
        split; [lia|]. split.
        -- intros Heq k Hk. destruct (Z.eq_dec k i) as [->|Hne].
           ++ unfold satisfied; lia.
           ++ apply Hiff; lia.
        -- intros Hall. assert (count_satisfied n (i + 1) (c + 1) sim
                                = c + 1 + (philosopher_count sim - (i + 1))) as ->.
           { apply Hiff. intros k Hk. apply Hall. lia. }
           lia.
      * destruct (IH (i + 1) c) as [Hb Hiff]; try lia.
        split; [lia|]. split.
        -- intros Heq. lia.
        -- intros Hall. exfalso. specialize (Hall i). unfold satisfied in Hall. lia.
    + split; [lia|]. split; [intros _ k Hk; lia | intros _; lia].
Qed.

(** ** Events of a command, one by one *)

Lemma every_iterate (phi : ev -> Prop) (body : list snapshot -> list ev * outcome bool) :
  (forall env, Forall phi (fst (body env))) ->
  forall n env, Forall phi (fst (iterate body n env)).
Proof.
  intros Hbody. induction n as [|n IH]; intros env; cbn [iterate].
  - constructor.
  - unfold then_run. specialize (Hbody env).
    destruct (body env) as [tr [[|] rest| |]]; cbn [fst snd] in *; try assumption.
    + apply Forall_app. split; [assumption | apply IH].
    + rewrite app_nil_r. assumption.
Qed.

Lemma every_run (phi : ev -> Prop) {R : Type} (p : prog R) :
  every phi p -> forall fuel env, Forall phi (fst (run p fuel env)).
Proof.
  induction 1 as [R r | R a Ha | A R p k Hp IHp Hk IHk | body Hb IHb];
    intros fuel env; cbn [run].
  - constructor.
  - apply Ha.
  - unfold then_run. specialize (IHp fuel env).
    destruct (run p fuel env) as [tr [a rest| |]]; cbn [fst snd] in *; try assumption.
    apply Forall_app. split; [assumption | apply IHk].
  - apply every_iterate. intros env'. apply IHb.
Qed.

Lemma Forall_In {A : Type} (phi : A -> Prop) (l : list A) (x : A) :
  Forall phi l -> In x l -> phi x.
Proof. intros H. exact (proj1 (List.Forall_forall phi l) H x). Qed.

Lemma every_trace (phi : ev -> Prop) {R : Type} (p : prog R) (tr : list ev) :
  every phi p -> is_trace p tr -> Forall phi tr.
Proof.
  intros Hp (fuel & env & k & Hk).
  pose proof (every_run phi p Hp fuel env) as H.
  rewrite Hk in H. apply Forall_app in H. apply H.
Qed.

(** ** Snapshots consumed by a run *)

Lemma looks_app (tr1 tr2 : list ev) : looks (tr1 ++ tr2) = (looks tr1 + looks tr2)%nat.
Proof.
  induction tr1 as [|e tr1 IH]; [reflexivity|].
  destruct e; cbn; rewrite IH; reflexivity.
Qed.

Lemma perform_looks {R : Type} (a : action R) (env : list snapshot) :
  match snd (perform a env) with
  | Done _ rest => length env = (looks (fst (perform a env)) + length rest)%nat
  | EnvEnd => looks (fst (perform a env)) = length env
  | FuelEnd => True
  end.
Proof.
  destruct a; cbn; try reflexivity; destruct env; reflexivity.
Qed.

Lemma then_run_looks {A R : Type} (env : list snapshot)
  (first : list ev * outcome A) (next : A -> list snapshot -> list ev * outcome R) :
  looks_accounted env first ->
  (forall a env', looks_accounted env' (next a env')) ->
  looks_accounted env (then_run first next).
Proof.
  unfold looks_accounted, then_run. intros Hfirst Hnext.
  destruct first as [tr [a rest| |]]; cbn [fst snd] in *; try assumption.
  specialize (Hnext a rest). rewrite looks_app.
  destruct (snd (next a rest)); lia.
Qed.

Lemma iterate_looks (body : list snapshot -> list ev * outcome bool) :
  (forall env, looks_accounted env (body env)) ->
  forall n env, looks_accounted env (iterate body n env).
Proof.
  intros Hbody. induction n as [|n IH]; intros env; cbn [iterate].
  - exact I.
  - apply then_run_looks; [apply Hbody|].
    intros [|] env'; [apply IH | reflexivity].
Qed.

Lemma run_looks {R : Type} (p : prog R) :
  forall fuel env, looks_accounted env (run p fuel env).
Proof.
  induction p as [R r | R a | A R p IHp k IHk | body IHb]; intros fuel env; cbn [run].
  - reflexivity.
  - apply perform_looks.
  - apply then_run_looks; [apply IHp | intros a env'; apply IHk].
  - apply iterate_looks. intros env'. apply IHb.
Qed.

(** ** Traces scanned by an automaton *)

Lemma scan_app {Q : Type} (delta : Q -> ev -> option Q) (q : Q) (tr1 tr2 : list ev) :
  scan delta q (tr1 ++ tr2) =
  match scan delta q tr1 with
  | Some q1 => scan delta q1 tr2
  | None => None
  end.
Proof.
  revert q. induction tr1 as [|e tr1 IH]; intros q; [reflexivity|].
  cbn. destruct (delta q e); [apply IH | reflexivity].
Qed.

Lemma accepts_then {Q A R : Type} (delta : Q -> ev -> option Q) (q : Q)
  (first : list ev * outcome A)
  (next : A -> list snapshot -> list ev * outcome R)
  (mid : outcome A -> Q -> Prop) (post : outcome R -> Q -> Prop) :
  accepts delta q first mid ->
  (forall a rest q1, mid (Done a rest) q1 -> accepts delta q1 (next a rest) post) ->
  (forall q1, mid EnvEnd q1 -> post EnvEnd q1) ->
  (forall q1, mid FuelEnd q1 -> post FuelEnd q1) ->
  accepts delta q (then_run first next) post.
Proof.
  intros (q1 & Hscan & Hmid) Hnext Henv Hfuel. unfold accepts, then_run.
  destruct first as [tr [a rest| |]]; cbn [fst snd] in *.
  - destruct (Hnext a rest q1 Hmid) as (q2 & Hscan2 & Hpost).
    exists q2. rewrite scan_app, Hscan. auto.
  - exists q1. auto.
  - exists q1. auto.
Qed.

Lemma accepts_weaken {Q R : Type} (delta : Q -> ev -> option Q) (q : Q)
  (r : list ev * outcome R) (post post' : outcome R -> Q -> Prop) :
  accepts delta q r post -> (forall o q', post o q' -> post' o q') ->
  accepts delta q r post'.
Proof. intros (q' & Hscan & Hpost) Himp. exists q'. auto. Qed.


Lemma every_access (phi : ev -> Prop) {A : Type} (f : t_simulation -> t_simulation * A) :
  (forall s, phi (EvMem s (fst (f s)))) -> every phi (Do (Access f)).
Proof.
  intros H. apply every_do. intros [|s env]; cbn; repeat constructor. apply H.
Qed.

Lemma every_for_each_index (phi : ev -> Prop) (count : Z) (call : Z -> prog unit) :
  (forall i, every phi (call i)) ->
  forall n i, every phi (for_each_index n i count call).
Proof.
  intros Hcall. induction n as [|n IH]; intros i; cbn [for_each_index].
  - apply every_ret.
  - destruct (i <? count); [|apply every_ret].
    apply every_bind; [apply Hcall | intros _; apply IH].
Qed.

Lemma every_weaken (phi psi : ev -> Prop) {R : Type} (p : prog R) :
  (forall e, phi e -> psi e) -> every phi p -> every psi p.
Proof.
  intros Himp. induction 1; constructor; auto.
  intros env. eapply Forall_impl; [apply H | exact Himp].
Qed.

(** The death check and the satisfaction check leave the structure as it
    is or raise the flag in it. *)
Lemma check_for_death_at_frame (current_time : Z) (sim : t_simulation) :
  fst (check_for_death_at current_time sim) = sim \/
  fst (check_for_death_at current_time sim) = set_simulation_ended TRUE sim.
Proof.
  destruct (check_for_death_at_spec current_time sim)
    as [(j & _ & _ & _ & Hr)|[_ Hr]]; rewrite Hr; cbn; auto.
Qed.

Lemma check_all_philosophers_satisfied_frame (sim : t_simulation) :
  fst (check_all_philosophers_satisfied sim) = sim \/
  fst (check_all_philosophers_satisfied sim) = set_simulation_ended TRUE sim.
Proof.
  unfold check_all_philosophers_satisfied.
  destruct (required_meals sim =? -1); [cbn; auto|].
  destruct (_ >=? _); cbn; auto.
Qed.

Lemma poll_event_latch (e : ev) : poll_event e -> latch_event e.
Proof.
  destruct e; cbn; try tauto. intros [-> | ->]; cbn; auto.
Qed.

Lemma philo_spend_time_events (duration_ms : Z) :
  every wait_event (philo_spend_time duration_ms).
Proof. repeat every_step. Qed.

Lemma monitor_poll_events (sim : t_simulation) : every poll_event (monitor_poll sim).
Proof.
  repeat every_step.
  - apply every_access. intros s. cbn. apply check_for_death_at_frame.
  - apply every_access. intros s. cbn. apply check_all_philosophers_satisfied_frame.
Qed.

Lemma cleanup_latch (sim : t_simulation) :
  every latch_event (cleanup_simulation_resources sim).
Proof.
  unfold cleanup_simulation_resources. cbn zeta.
  repeat first [apply every_for_each_index; intros ? | every_step].
Qed.

Lemma monitor_latch (sim : t_simulation) :
  every latch_event (monitor_simulation_and_cleanup sim).
Proof.
  unfold monitor_simulation_and_cleanup. apply every_bind.
  - eapply every_weaken; [apply poll_event_latch | apply monitor_poll_events].
  - intros _. apply cleanup_latch.
Qed.

Lemma philosopher_lifecycle_keeps_flag (sim : t_simulation) (philo : Z) :
  every flag_kept (philosopher_lifecycle sim philo).
Proof.
  repeat every_step; apply every_access; intros s; reflexivity.
Qed.

Lemma philosopher_lifecycle_latch (sim : t_simulation) (philo : Z) :
  every latch_event (philosopher_lifecycle sim philo).
Proof.
  eapply every_weaken; [|apply philosopher_lifecycle_keeps_flag].
  intros []; cbn; auto.
Qed.

Lemma single_philosopher_eat_no_access (sim : t_simulation) (philo : Z) :
  philosopher_count sim = 1 ->
  every (fun e => ~ is_mem e) (philosopher_eat sim philo).
Proof.
  intros Hone. unfold philosopher_eat.
  rewrite Hone. change (1 =? 1) with true. cbn iota zeta.
  repeat every_step; cbn; tauto.
Qed.

Lemma single_philosopher_no_access (sim : t_simulation) (philo : Z) :
  philosopher_count sim = 1 ->
  every (fun e => ~ is_mem e) (philosopher_lifecycle sim philo).
Proof.
  intros Hone. unfold philosopher_lifecycle, philosopher_eat.
  rewrite Hone. change (1 =? 1) with true. cbn iota zeta.
  repeat every_step; cbn; tauto.
Qed.

(** ** Fork acquisition *)

Lemma rem_2_of_id (i : Z) : 0 <= i -> Z.rem i 2 = if Z.odd i then 1 else 0.
Proof.
  intros Hi. rewrite Z.rem_mod_nonneg by lia. apply Zmod_odd.
Qed.

Lemma acquire_forks_branch_of_id (i : Z) :
  0 <= i ->
  acquire_forks_branch i = if Z.odd i then first_branch else last_branch.
Proof.
  intros Hi. unfold acquire_forks_branch. rewrite rem_2_of_id by assumption.
  destruct (Z.odd i); reflexivity.
Qed.

Lemma middle_branch_unreachable (i : Z) : acquire_forks_branch i <> middle_branch.
Proof.
  unfold acquire_forks_branch. destruct (Z.rem i 2 =? 1); discriminate.
Qed.

(** C1: a philosopher with a positive id takes its forks in the order its
    parity dictates: left then right when the id is odd, right then left
    when it is even; no id takes the middle branch of [acquire_forks]; the
    locks taken are those of the policy table of the spec; and with two
    philosophers or more the eat phase starts with exactly this
    acquisition, followed by "is eating". *)
Theorem acquire_forks_parity_order
  (sim : t_simulation) (philo : Z) (fuel : nat) (env : list snapshot) :
  let p := philosopher_at sim philo in
  1 <= id p ->
  2 <= philosopher_count sim ->
  (forall i, acquire_forks_branch i <> middle_branch) /\
  run (acquire_forks sim philo) fuel env =
    (if Z.odd (id p)
     then [EvLock (fork_mutex (left_fork_index p));
           EvStatus philo "has taken a left fork" NOT_DEAD;
           EvLock (fork_mutex (right_fork_index p));
           EvStatus philo "has taken a right fork" NOT_DEAD]
     else [EvLock (fork_mutex (right_fork_index p));
           EvStatus philo "has taken a right fork" NOT_DEAD;
           EvLock (fork_mutex (left_fork_index p));
           EvStatus philo "has taken a left fork" NOT_DEAD],
     Done tt env) /\
  locks_of (fst (run (acquire_forks sim philo) fuel env)) = fork_policy p /\
  exists tr,
    fst (run (philosopher_eat sim philo) fuel env) =
    fst (run (acquire_forks sim philo) fuel env)
    ++ EvStatus philo "is eating" NOT_DEAD :: tr.
Proof.
  intros p Hid Hcount.
  assert (Hrun : run (acquire_forks sim philo) fuel env =
    (if Z.odd (id p)
     then [EvLock (fork_mutex (left_fork_index p));
           EvStatus philo "has taken a left fork" NOT_DEAD;
           EvLock (fork_mutex (right_fork_index p));
           EvStatus philo "has taken a right fork" NOT_DEAD]
     else [EvLock (fork_mutex (right_fork_index p));
           EvStatus philo "has taken a right fork" NOT_DEAD;
           EvLock (fork_mutex (left_fork_index p));
           EvStatus philo "has taken a left fork" NOT_DEAD],
     Done tt env)).
  { unfold acquire_forks. fold p.
    rewrite acquire_forks_branch_of_id by lia.
    destruct (Z.odd (id p)); reflexivity. }
  split; [exact middle_branch_unreachable|].
  split; [exact Hrun|].
  split.
  - rewrite Hrun. unfold fork_policy. destruct (Z.odd (id p)); reflexivity.
  - unfold philosopher_eat.
    destruct (Z.eqb_spec (philosopher_count sim) 1) as [Heq|_]; [lia|].
    cbn [run]. rewrite Hrun. cbn. eexists; reflexivity.
Qed.

Lemma acquire_forks_parity_order_witness :
  locks_of (fst (run (acquire_forks two_philosophers 1) 1 [])) =
  [fork_mutex 0; fork_mutex 1].
Proof.
  refine (proj1 (proj2 (proj2
    (acquire_forks_parity_order two_philosophers 1 1 [] _ _)))).
  - vm_compute. discriminate.
  - vm_compute. discriminate.
Defined.

(** ** The monitor's evaluation *)

Lemma run_evaluate_simulation_status
  (fuel : nat) (now t2 t3 : Z) (s1 sim sim' : t_simulation) (rest : list snapshot) :
  run evaluate_simulation_status fuel
    (mk_snapshot now s1 :: mk_snapshot t2 sim :: mk_snapshot t3 sim' :: rest) =
  if snd (check_for_death_at now sim) >? 0 then
    ([EvLock data_mutex; EvTime now;
      EvMem sim (fst (check_for_death_at now sim));
      EvUnlock data_mutex;
      EvStatus (snd (check_for_death_at now sim) - 1) "died" TRUE],
     Done TRUE (mk_snapshot t3 sim' :: rest))
  else
    ([EvLock data_mutex; EvTime now;
      EvMem sim (fst (check_for_death_at now sim));
      EvMem sim' (fst (check_all_philosophers_satisfied sim'));
      EvUnlock data_mutex],
     Done (snd (check_all_philosophers_satisfied sim')) rest).
Proof.
  unfold evaluate_simulation_status, check_for_death. cbn.
  destruct (snd (check_for_death_at now sim) >? 0); reflexivity.
Qed.


(** ** The monitor reports once *)

Lemma silent_scan (tr : list ev) (reported : bool) :
  Forall (fun e => ~ is_status e) tr ->
  scan report_step reported tr = Some reported.
Proof.
  induction 1 as [|e tr He _ IH]; [reflexivity|].
  destruct e; cbn in *; try exact IH. tauto.
Qed.

Lemma scan_report_once (tr : list ev) :
  forall reported q, scan report_step reported tr = Some q ->
  (length (reports_of tr) <= if reported then 0 else 1)%nat.
Proof.
  induction tr as [|e tr IH]; intros reported q Hscan; [cbn; destruct reported; lia|].
  destruct e; cbn in *; try exact (IH _ _ Hscan).
  destruct reported; [discriminate|].
  specialize (IH true q Hscan). cbn in IH. lia.
Qed.

Lemma evaluate_simulation_status_reports (fuel : nat) (env : list snapshot) :
  accepts report_step false (run evaluate_simulation_status fuel env)
    (fun o reported =>
       reported = false \/ exists rest, o = Done TRUE rest).
Proof.
  unfold accepts, evaluate_simulation_status, check_for_death.
  destruct env as [|s1 [|s2 env]]; cbn; eauto.
  destruct (snd (check_for_death_at (snap_time s1) (snap_sim s2)) >? 0); cbn; eauto.
  destruct env as [|s3 env]; cbn; eauto.
Qed.

Lemma cleanup_silent (sim : t_simulation) :
  every (fun e => ~ is_status e) (cleanup_simulation_resources sim).
Proof.
  unfold cleanup_simulation_resources. cbn zeta.
  repeat first [apply every_for_each_index; intros ? | every_step]; cbn; tauto.
Qed.

Lemma monitor_poll_reports (sim : t_simulation) (fuel : nat) :
  forall n env,
  accepts report_step false
    (iterate
       (run (status ← evaluate_simulation_status ;
             if status =? TRUE then Ret false
             else usleep (check_interval sim) ;; Ret true) fuel) n env)
    (fun _ _ => True).
Proof.
  induction n as [|n IH]; intros env; cbn [iterate].
  - exists false. cbn. auto.
  - eapply accepts_then with
      (mid := fun o reported =>
                match o with Done true _ => reported = false | _ => True end);
      [| | auto | auto].
    + cbn [run].
      eapply accepts_then; [apply evaluate_simulation_status_reports | | auto | auto].
      cbn beta. intros status rest reported Hreported.
      destruct (Z.eqb_spec status TRUE) as [->|Hne].
      * exists reported. cbn. auto.
      * destruct Hreported as [-> | [rest' [= Hs _]]]; [|contradiction].
        exists false. cbn. auto.
    + intros [|] rest reported Hmid.
      * subst reported. apply IH.
      * exists reported. cbn. auto.
Qed.

Lemma monitor_reports_once (sim : t_simulation) (fuel : nat) (env : list snapshot) :
  (length (reports_of (fst (run (monitor_simulation_and_cleanup sim) fuel env)))
   <= 1)%nat.
Proof.
  assert (Hacc : accepts report_step false
                   (run (monitor_simulation_and_cleanup sim) fuel env)
                   (fun _ _ => True)).
  { unfold monitor_simulation_and_cleanup, monitor_poll. cbn [run].
    eapply accepts_then; [apply monitor_poll_reports | | auto | auto].
    intros [] rest reported _. exists reported. split; [|exact I].
    apply silent_scan. apply every_run. apply cleanup_silent. }
  destruct Hacc as (q & Hscan & _).
  exact (scan_report_once _ _ _ Hscan).
Qed.
(** C2: the death check names the first starving philosopher.  The monitor
    evaluates at time [now] on the structure [sim], whose array is
    allocated and whose ids are in order.  If some philosopher is
    starving, the evaluation raises the flag (the structure the death
    check leaves has [simulation_ended] at [TRUE], whatever it was, and
    the records and the configuration as they were), reports "died" once,
    for the starving philosopher [j] of lowest position, whose id [j + 1]
    is the lowest id of a starving philosopher and is what the death check
    returns, and answers [TRUE].  If none is starving, the death check
    leaves the structure, and so the flag, as it is and the evaluation
    reports nothing.  And no run of the monitor reports more than once. *)
Theorem death_check_names_first_starving
  (fuel : nat) (now t2 t3 : Z) (s1 sim sim' : t_simulation) (rest : list snapshot) :
  records_allocated sim ->
  ids_in_order sim ->
  let env := mk_snapshot now s1 :: mk_snapshot t2 sim :: mk_snapshot t3 sim' :: rest in
  ((exists k, 0 <= k < philosopher_count sim /\ starving now sim k) ->
   exists j,
     0 <= j < philosopher_count sim /\ starving now sim j /\
     id (philosopher_at sim j) = j + 1 /\
     (forall k, 0 <= k < philosopher_count sim -> starving now sim k ->
                id (philosopher_at sim j) <= id (philosopher_at sim k)) /\
     snd (check_for_death_at now sim) = j + 1 /\
     simulation_ended (fst (check_for_death_at now sim)) = TRUE /\
     philosophers (fst (check_for_death_at now sim)) = philosophers sim /\
     configuration (fst (check_for_death_at now sim)) = configuration sim /\
     run evaluate_simulation_status fuel env =
       ([EvLock data_mutex; EvTime now;
         EvMem sim (set_simulation_ended TRUE sim);
         EvUnlock data_mutex;
         EvStatus j "died" TRUE],
        Done TRUE (mk_snapshot t3 sim' :: rest))) /\
  ((forall k, 0 <= k < philosopher_count sim -> ~ starving now sim k) ->
   check_for_death_at now sim = (sim, FALSE) /\
   simulation_ended (fst (check_for_death_at now sim)) = simulation_ended sim /\
   forall i msg d,
     ~ In (EvStatus i msg d) (fst (run evaluate_simulation_status fuel env))) /\
  (forall fuel' env',
     (length (reports_of
                (fst (run (monitor_simulation_and_cleanup sim) fuel' env')))
      <= 1)%nat).
Proof.
  intros _ Hids env. subst env.
  match goal with
  | |- ?A /\ ?B /\ _ =>
      cut (A /\ B);
      [intros [HA HB];
       exact (conj HA (conj HB (fun f e => monitor_reports_once sim f e)))|]
  end.
  rewrite run_evaluate_simulation_status.
  destruct (check_for_death_at_spec now sim)
    as [(j & Hj & Hsj & Hmin & Hr)|[Hnone Hr]]; rewrite Hr; cbn [fst snd].
  - split.
    + intros _. exists j.
      destruct (Z.gtb_spec (j + 1) 0) as [_|Hbad]; [|lia].
      replace (j + 1 - 1) with j by lia.
      repeat split; try lia; try assumption.
      * apply Hids. lia.
      * intros k Hk Hsk. rewrite !Hids by lia.
        destruct (Z.lt_ge_cases k j) as [Hlt|Hge]; [|lia].
        exfalso. apply (Hmin k); [lia | assumption].
    + intros Hnone. exfalso. apply (Hnone j); [lia | assumption].
  - split.
    + intros (k & Hk & Hsk). exfalso. apply (Hnone k); assumption.
    + intros _. split; [reflexivity|]. split; [reflexivity|].
      intros i msg d. unfold FALSE. cbn. intuition discriminate.
Qed.

Lemma ids_in_order_by_length (sim : t_simulation) :
  (forall i, (i < length (philosophers sim))%nat ->
             id (philosopher_at sim (Z.of_nat i)) = Z.of_nat i + 1) ->
  records_allocated sim ->
  ids_in_order sim.
Proof.
  intros H Hlen i Hi. unfold records_allocated in Hlen.
  specialize (H (Z.to_nat i)). rewrite Z2Nat.id in H by lia. apply H. lia.
Qed.

Lemma one_starving_ids : ids_in_order one_starving.
Proof.
  apply ids_in_order_by_length; [|reflexivity].
  intros i Hi. cbn in Hi.
  destruct i as [|[|[|i]]]; [reflexivity..|lia].
Qed.

Lemma death_check_names_first_starving_witness :
  exists j,
    0 <= j < 3 /\ starving 1000 one_starving j /\
    id (philosopher_at one_starving j) = j + 1 /\
    (forall k, 0 <= k < 3 -> starving 1000 one_starving k ->
               id (philosopher_at one_starving j) <= id (philosopher_at one_starving k)) /\
    snd (check_for_death_at 1000 one_starving) = j + 1 /\
    simulation_ended (fst (check_for_death_at 1000 one_starving)) = TRUE /\
    philosophers (fst (check_for_death_at 1000 one_starving))
    = philosophers one_starving /\
    configuration (fst (check_for_death_at 1000 one_starving))
    = configuration one_starving /\
    run evaluate_simulation_status 0
      [mk_snapshot 1000 one_starving; mk_snapshot 1000 one_starving;
       mk_snapshot 1000 one_starving] =
    ([EvLock data_mutex; EvTime 1000;
      EvMem one_starving (set_simulation_ended TRUE one_starving);
      EvUnlock data_mutex; EvStatus j "died" TRUE],
     Done TRUE [mk_snapshot 1000 one_starving]).
Proof.
  refine (proj1 (death_check_names_first_starving 0 1000 1000 1000
            one_starving one_starving one_starving [] eq_refl one_starving_ids) _).
  exists 1. split; [cbn; lia|]. unfold starving. vm_compute. discriminate.
Defined.

Lemma check_all_philosophers_satisfied_unset (sim : t_simulation) :
  required_meals sim = -1 ->
  check_all_philosophers_satisfied sim = (sim, FALSE).
Proof.
  intros H. unfold check_all_philosophers_satisfied. rewrite H. reflexivity.
Qed.

Lemma check_all_philosophers_satisfied_set (sim : t_simulation) :
  required_meals sim <> -1 ->
  ((forall i, 0 <= i < philosopher_count sim -> satisfied sim i) /\
   check_all_philosophers_satisfied sim = (set_simulation_ended TRUE sim, TRUE))
  \/ (~ (forall i, 0 <= i < philosopher_count sim -> satisfied sim i) /\
      check_all_philosophers_satisfied sim = (sim, FALSE)).
Proof.
  intros Hset. unfold check_all_philosophers_satisfied.
  destruct (Z.eqb_spec (required_meals sim) (-1)) as [|_]; [contradiction|].
  destruct (Z.lt_ge_cases (philosopher_count sim) 0) as [Hneg|Hpos].
  - left. split; [intros i Hi; lia|].
    replace (Z.to_nat (philosopher_count sim)) with O by lia.
    cbn [count_satisfied].
    destruct (Z.geb_spec 0 (philosopher_count sim)); [reflexivity | lia].
  - destruct (count_satisfied_bounds (Z.to_nat (philosopher_count sim)) sim 0 0)
      as [Hb Hiff]; try lia.
    destruct (Z.geb_spec
                (count_satisfied (Z.to_nat (philosopher_count sim)) 0 0 sim)
                (philosopher_count sim)) as [Hge|Hlt].
    + left. split; [|reflexivity]. apply Hiff. lia.
    + right. split; [|reflexivity]. intros Hall. apply Hiff in Hall. lia.
Qed.

(** C3: the satisfaction check, on a structure [sim] whose array is
    allocated.  With [required_meals] unset (-1) the check
    changes nothing and answers [FALSE].  With [required_meals] set, the
    check raises the flag (the structure it leaves has [simulation_ended]
    at [TRUE], whatever it was, and the records and the configuration as
    they were) and answers [TRUE] when every philosopher is satisfied, and
    changes nothing and answers [FALSE] otherwise.  In the
    monitor's evaluation (at time [now], on the structure [sim], which
    stays as it is while the monitor holds [data_mutex]) the check is run
    only when the death check found nobody starving: with somebody
    starving the only access is the death check's, which raises the flag.
    So, with [required_meals] set, the evaluation answers [TRUE] without
    reporting anything exactly when nobody is starving and everybody is
    satisfied, and its last access has then left the flag at [TRUE]. *)
Theorem satisfaction_check_after_death_check
  (fuel : nat) (now t2 t3 : Z) (s1 sim : t_simulation) (rest : list snapshot) :
  records_allocated sim ->
  let env := mk_snapshot now s1 :: mk_snapshot t2 sim :: mk_snapshot t3 sim :: rest in
  let everybody_satisfied :=
    forall i, 0 <= i < philosopher_count sim -> satisfied sim i in
  let nobody_starving :=
    forall i, 0 <= i < philosopher_count sim -> ~ starving now sim i in
  (required_meals sim = -1 ->
   check_all_philosophers_satisfied sim = (sim, FALSE)) /\
  (required_meals sim <> -1 ->
   (everybody_satisfied ->
    check_all_philosophers_satisfied sim = (set_simulation_ended TRUE sim, TRUE) /\
    simulation_ended (fst (check_all_philosophers_satisfied sim)) = TRUE /\
    philosophers (fst (check_all_philosophers_satisfied sim)) = philosophers sim /\
    configuration (fst (check_all_philosophers_satisfied sim)) = configuration sim) /\
   (~ everybody_satisfied ->
    check_all_philosophers_satisfied sim = (sim, FALSE) /\
    simulation_ended (fst (check_all_philosophers_satisfied sim))
    = simulation_ended sim)) /\
  (~ nobody_starving ->
   exists j,
     simulation_ended (fst (check_for_death_at now sim)) = TRUE /\
     run evaluate_simulation_status fuel env =
       ([EvLock data_mutex; EvTime now;
         EvMem sim (set_simulation_ended TRUE sim);
         EvUnlock data_mutex;
         EvStatus j "died" TRUE],
        Done TRUE (mk_snapshot t3 sim :: rest))) /\
  (nobody_starving ->
   run evaluate_simulation_status fuel env =
     ([EvLock data_mutex; EvTime now;
       EvMem sim sim;
       EvMem sim (fst (check_all_philosophers_satisfied sim));
       EvUnlock data_mutex],
      Done (snd (check_all_philosophers_satisfied sim)) rest)) /\
  (required_meals sim <> -1 ->
   ((exists tr rest',
       run evaluate_simulation_status fuel env = (tr, Done TRUE rest') /\
       forall i msg d, ~ In (EvStatus i msg d) tr)
    <-> nobody_starving /\ everybody_satisfied) /\
   (nobody_starving -> everybody_satisfied ->
    exists tr s',
      fst (run evaluate_simulation_status fuel env)
      = tr ++ [EvMem sim s'; EvUnlock data_mutex] /\
      simulation_ended s' = TRUE)).
Proof.
  intros _ env everybody_satisfied nobody_starving. subst env.
  rewrite run_evaluate_simulation_status.
  split; [apply check_all_philosophers_satisfied_unset|].
  split.
  { intros Hset.
    destruct (check_all_philosophers_satisfied_set sim Hset) as [[Hall Hr]|[Hnot Hr]];
      (split; intros H; [|try contradiction]); try contradiction;
      rewrite Hr; repeat split. }
  destruct (check_for_death_at_spec now sim)
    as [(j & Hj & Hsj & Hmin & Hr)|[Hnone Hr]]; rewrite Hr; cbn [fst snd].
  - destruct (Z.gtb_spec (j + 1) 0) as [_|Hbad]; [|lia].
    replace (j + 1 - 1) with j by lia.
    assert (Hsome : ~ nobody_starving).
    { intros Hnone. apply (Hnone j); [lia | assumption]. }
    split; [intros _; exists j; split; reflexivity|].
    split; [intros Hnone; contradiction|].
    intros Hset. split; [|intros Hnone; contradiction]. split.
    + intros (tr & rest' & Hrun & Hquiet). exfalso.
      injection Hrun as <- _. apply (Hquiet j "died" TRUE). cbn. tauto.
    + intros [Hnone _]. contradiction.
  - change (FALSE >? 0) with false. cbn iota.
    split; [intros Hsome; contradiction|].
    split; [intros _; reflexivity|].
    intros Hset.
    destruct (check_all_philosophers_satisfied_set sim Hset) as [[Hall Hr']|[Hnot Hr']];
      rewrite Hr'; cbn [fst snd].
    + split.
      * split; [intros _; split; assumption|].
        intros _. eexists _, _. split; [reflexivity|].
        intros i msg d. cbn. intuition discriminate.
      * intros _ _.
        exists [EvLock data_mutex; EvTime now; EvMem sim sim],
               (set_simulation_ended TRUE sim).
        split; reflexivity.
    + split; [|intros _ Hall; contradiction].
      split; [|intros [_ Hall]; contradiction].
      intros (tr & rest' & Hrun & _). exfalso.
      injection Hrun as _ Hv _. discriminate Hv.
Qed.

Lemma all_fed_nobody_starving :
  forall i, 0 <= i < philosopher_count all_fed -> ~ starving 1000 all_fed i.
Proof.
  intros i Hi. cbn in Hi. unfold starving.
  assert (i = 0 \/ i = 1) as [->| ->] by lia; vm_compute; intros H; apply H; reflexivity.
Qed.

Lemma all_fed_everybody_satisfied :
  forall i, 0 <= i < philosopher_count all_fed -> satisfied all_fed i.
Proof.
  intros i Hi. cbn in Hi. unfold satisfied.
  assert (i = 0 \/ i = 1) as [->| ->] by lia; vm_compute; discriminate.
Qed.

Lemma satisfaction_check_after_death_check_witness :
  (check_all_philosophers_satisfied all_fed = (set_simulation_ended TRUE all_fed, TRUE)
   /\ simulation_ended (fst (check_all_philosophers_satisfied all_fed)) = TRUE
   /\ philosophers (fst (check_all_philosophers_satisfied all_fed))
      = philosophers all_fed
   /\ configuration (fst (check_all_philosophers_satisfied all_fed))
      = configuration all_fed)
  /\ (exists tr rest',
        run evaluate_simulation_status 0
          [mk_snapshot 1000 all_fed; mk_snapshot 1000 all_fed;
           mk_snapshot 1000 all_fed] = (tr, Done TRUE rest') /\
        forall i msg d, ~ In (EvStatus i msg d) tr)
  /\ (exists tr s',
        fst (run evaluate_simulation_status 0
               [mk_snapshot 1000 all_fed; mk_snapshot 1000 all_fed;
                mk_snapshot 1000 all_fed])
        = tr ++ [EvMem all_fed s'; EvUnlock data_mutex] /\
        simulation_ended s' = TRUE).
Proof.
  pose proof (satisfaction_check_after_death_check 0 1000 1000 1000
                all_fed all_fed [] eq_refl) as (_ & Hset & _ & _ & Hiff).
  assert (Hk : required_meals all_fed <> -1) by (vm_compute; discriminate).
  split; [|split].
  - exact (proj1 (Hset Hk) all_fed_everybody_satisfied).
  - exact (proj2 (proj1 (Hiff Hk))
             (conj all_fed_nobody_starving all_fed_everybody_satisfied)).
  - exact (proj2 (Hiff Hk) all_fed_nobody_starving all_fed_everybody_satisfied).
Defined.

(** ** The responsive wait *)

Lemma philo_spend_time_unfold (duration_ms : Z) :
  philo_spend_time duration_ms =
  Bind get_current_time_ms
    (fun start_time => Loop (philo_spend_time_body duration_ms start_time)).
Proof. reflexivity. Qed.

Lemma philosopher_lifecycle_unfold (sim : t_simulation) (philo : Z) :
  philosopher_lifecycle sim philo =
  Bind (if Z.rem (id (philosopher_at sim philo)) 2 =? 0
        then usleep (Z.quot (time_to_eat sim) 2) else Ret tt)
    (fun _ => Loop (philosopher_lifecycle_body sim philo)).
Proof. reflexivity. Qed.

(** One iteration of the wait, by what the environment shows. *)
Lemma run_philo_spend_time_body (d start : Z) (fuel : nat) (env : list snapshot) :
  run (philo_spend_time_body d start) fuel env =
  match env with
  | [] => ([], EnvEnd)
  | s :: env1 =>
      let v := simulation_ended (snap_sim s) in
      if c_true v then ([EvFinished v], Done false env1)
      else
        match env1 with
        | [] => ([EvFinished v], EnvEnd)
        | s2 :: env2 =>
            let t := snap_time s2 in
            if t - start >=? d then ([EvFinished v; EvTime t], Done false env2)
            else ([EvFinished v; EvTime t;
                   EvSleep (sleep_increment (d - (t - start)))],
                  Done true env2)
        end
  end.
Proof.
  unfold philo_spend_time_body. destruct env as [|s env1]; [reflexivity|].
  cbn. destruct (c_true (simulation_ended (snap_sim s))); [reflexivity|].
  destruct env1 as [|s2 env2]; [reflexivity|].
  cbn. destruct (snap_time s2 - start >=? d); reflexivity.
Qed.

Lemma iterate_philo_spend_time_body (d start : Z) (fuel : nat) :
  forall (n : nat) (env : list snapshot),
  exists k its last,
    fst (iterate (run (philo_spend_time_body d start) fuel) n env) = its ++ last /\
    wait_iterations d start k its /\
    wait_end d start last
      (returned (snd (iterate (run (philo_spend_time_body d start) fuel) n env))) /\
    (snd (iterate (run (philo_spend_time_body d start) fuel) n env) = FuelEnd ->
     k = n /\ last = []) /\
    (snd (iterate (run (philo_spend_time_body d start) fuel) n env) = EnvEnd ->
     looks (its ++ last) = length env) /\
    (forall r rest,
       snd (iterate (run (philo_spend_time_body d start) fuel) n env) = Done r rest ->
       length env = (looks (its ++ last) + length rest)%nat).
Proof.
  induction n as [|n IH]; intros env.
  - exists O, [], []. cbn. repeat split; try constructor; try discriminate.
  - cbn [iterate]. rewrite run_philo_spend_time_body.
    destruct env as [|s env1].
    { exists O, [], []. cbn. repeat split; try constructor; discriminate. }
    cbn zeta. destruct (c_true (simulation_ended (snap_sim s))) eqn:Hv.
    { exists O, [], [EvFinished (simulation_ended (snap_sim s))]. cbn.
      repeat split; try constructor; try discriminate; try assumption.
      intros r rest [= _ <-]. reflexivity. }
    destruct env1 as [|s2 env2].
    { exists O, [], [EvFinished (simulation_ended (snap_sim s))]. cbn.
      repeat split; try constructor; try discriminate; assumption. }
    destruct (Z.geb_spec (snap_time s2 - start) d) as [Hd|Hd].
    { exists O, [], [EvFinished (simulation_ended (snap_sim s)); EvTime (snap_time s2)].
      cbn. repeat split; try constructor; try discriminate; try assumption; try lia.
      intros r rest [= _ <-]. reflexivity. }
    destruct (IH env2) as (k & its & last & Htr & Hits & Hend & Hfuel & Henv & Hdone).
    unfold then_run. cbn [fst snd].
    destruct (iterate (run (philo_spend_time_body d start) fuel) n env2) as [tr o].
    cbn [fst snd] in *. subst tr.
    exists (S k), (EvFinished (simulation_ended (snap_sim s)) :: EvTime (snap_time s2)
                   :: EvSleep (sleep_increment (d - (snap_time s2 - start))) :: its), last.
    repeat split.
    + constructor; assumption.
    + assumption.
    + f_equal. apply Hfuel. assumption.
    + apply Hfuel. assumption.
    + intros Ho. cbn. f_equal. f_equal. apply Henv. assumption.
    + intros r rest Ho. cbn. f_equal. f_equal. apply (Hdone r rest). assumption.
Qed.

(** C4: the responsive wait.  A run of [philo_spend_time duration_ms] reads
    the clock once ([start_time]), then iterates; every iteration first
    looks at the flag.  The iterations that went on saw the flag down and
    less than [duration_ms] elapsed, and slept 1000, 100 or 10 microseconds
    as more than 10, more than 1, or at most 1 millisecond remained.  The
    wait has returned exactly when its last iteration saw the flag up, or
    the flag down and [duration_ms] or more elapsed; it has not returned
    only for want of loop iterations (all [fuel] iterations went on) or for
    want of a snapshot (all of [env] was looked at). *)
Theorem responsive_wait_returns_on_flag_or_deadline
  (duration_ms : Z) (fuel : nat) (env : list snapshot) :
  let tr := fst (run (philo_spend_time duration_ms) fuel env) in
  let o := snd (run (philo_spend_time duration_ms) fuel env) in
  (forall remaining_time,
     (remaining_time > 10 -> sleep_increment remaining_time = 1000) /\
     (1 < remaining_time <= 10 -> sleep_increment remaining_time = 100) /\
     (remaining_time <= 1 -> sleep_increment remaining_time = 10)) /\
  ((env = [] /\ tr = [] /\ o = EnvEnd) \/
   exists start_time n its last,
     tr = EvTime start_time :: its ++ last /\
     wait_iterations duration_ms start_time n its /\
     wait_end duration_ms start_time last (returned o) /\
     (o = FuelEnd -> n = fuel /\ last = []) /\
     (o = EnvEnd -> looks tr = length env)).
Proof.
  intros tr o. split.
  { intros r. unfold sleep_increment.
    destruct (Z.gtb_spec r 10), (Z.gtb_spec r 1); repeat split; intros; lia. }
  subst tr o. rewrite philo_spend_time_unfold. cbn [run].
  destruct env as [|s env]; [left; repeat split|right].
  cbn [get_current_time_ms run perform then_run fst snd].
  destruct (iterate_philo_spend_time_body duration_ms (snap_time s) fuel fuel env)
    as (k & its & last & Htr & Hits & Hend & Hfuel & Henv & _).
  exists (snap_time s), k, its, last.
  destruct (iterate (run (philo_spend_time_body duration_ms (snap_time s)) fuel) fuel env)
    as [tr o].
  cbn [fst snd app] in *. subst tr.
  repeat split; try assumption.
  - apply Hfuel. assumption.
  - apply Hfuel. assumption.
  - intros Ho. cbn. f_equal. apply Henv. assumption.
Qed.

(** ** The eat phase of a lone philosopher *)

Lemma locks_of_app (tr1 tr2 : list ev) :
  locks_of (tr1 ++ tr2) = locks_of tr1 ++ locks_of tr2.
Proof.
  induction tr1 as [|e tr1 IH]; [reflexivity|].
  destruct e; cbn; rewrite IH; reflexivity.
Qed.

Lemma wait_events_lock_nothing (tr : list ev) :
  Forall wait_event tr -> locks_of tr = [].
Proof.
  induction 1 as [|e tr He _ IH]; [reflexivity|].
  destruct e; cbn in *; tauto.
Qed.

Lemma wait_events_report_nothing (tr : list ev) (i : Z) (msg : string) (d : Z) :
  Forall wait_event tr -> ~ In (EvStatus i msg d) tr.
Proof.
  intros H Hin. exact (Forall_In _ _ _ H Hin).
Qed.

(** C7: with one philosopher the eat phase takes the single fork, reports
    "has taken a fork", waits [time_to_die + 1] milliseconds in the
    responsive wait [philo_spend_time], puts the same fork down and returns.
    It takes no other mutex, reports nothing else (so never "is eating"),
    and does not touch the shared structure. *)
Theorem single_philosopher_eat
  (sim : t_simulation) (philo : Z) (fuel : nat) (env : list snapshot) :
  philosopher_count sim = 1 ->
  let fork := fork_mutex (left_fork_index (philosopher_at sim philo)) in
  let wait := run (philo_spend_time (time_to_die sim + 1)) fuel env in
  let tr := fst (run (philosopher_eat sim philo) fuel env) in
  run (philosopher_eat sim philo) fuel env =
    match snd wait with
    | Done _ rest =>
        (EvLock fork :: EvStatus philo "has taken a fork" NOT_DEAD
         :: fst wait ++ [EvUnlock fork], Done tt rest)
    | EnvEnd =>
        (EvLock fork :: EvStatus philo "has taken a fork" NOT_DEAD :: fst wait,
         EnvEnd)
    | FuelEnd =>
        (EvLock fork :: EvStatus philo "has taken a fork" NOT_DEAD :: fst wait,
         FuelEnd)
    end /\
  locks_of tr = [fork] /\
  (forall i msg d, In (EvStatus i msg d) tr ->
     i = philo /\ msg = "has taken a fork" /\ d = NOT_DEAD) /\
  (forall s s', ~ In (EvMem s s') tr).
Proof.
  intros Hone fork wait tr.
  assert (Hrun : run (philosopher_eat sim philo) fuel env =
    match snd wait with
    | Done _ rest =>
        (EvLock fork :: EvStatus philo "has taken a fork" NOT_DEAD
         :: fst wait ++ [EvUnlock fork], Done tt rest)
    | EnvEnd =>
        (EvLock fork :: EvStatus philo "has taken a fork" NOT_DEAD :: fst wait,
         EnvEnd)
    | FuelEnd =>
        (EvLock fork :: EvStatus philo "has taken a fork" NOT_DEAD :: fst wait,
         FuelEnd)
    end).
  { unfold philosopher_eat. rewrite Hone. change (1 =? 1) with true. cbn iota zeta.
    cbn -[philo_spend_time]. fold wait. fold fork.
    unfold then_run. destruct (snd wait); reflexivity. }
  split; [exact Hrun|].
  pose proof (every_run wait_event _
                (philo_spend_time_events (time_to_die sim + 1)) fuel env) as Hwait.
  fold wait in Hwait.
  assert (Htr : exists tail, tr = EvLock fork
                  :: EvStatus philo "has taken a fork" NOT_DEAD :: fst wait ++ tail
                  /\ (tail = [] \/ tail = [EvUnlock fork])).
  { subst tr. rewrite Hrun. destruct (snd wait); cbn [fst].
    - eexists; split; [reflexivity | auto].
    - exists []. rewrite app_nil_r. auto.
    - exists []. rewrite app_nil_r. auto. }
  destruct Htr as (tail & -> & Htail).
  split; [|split].
  - cbn [locks_of]. rewrite locks_of_app, (wait_events_lock_nothing _ Hwait).
    destruct Htail as [-> | ->]; reflexivity.
  - intros i msg d [Hin|[Hin|Hin]]; try discriminate.
    + injection Hin as <- <- <-. auto.
    + apply in_app_or in Hin as [Hin|Hin].
      * exfalso. exact (wait_events_report_nothing _ _ _ _ Hwait Hin).
      * destruct Htail as [-> | ->]; cbn in Hin; intuition discriminate.
  - intros s s' [Hin|[Hin|Hin]]; try discriminate.
    apply in_app_or in Hin as [Hin|Hin].
    + exact (Forall_In _ _ _ Hwait Hin).
    + destruct Htail as [-> | ->]; cbn in Hin; intuition discriminate.
Qed.

Lemma single_philosopher_eat_witness :
  run (philosopher_eat lone_philosopher 0) 2
    [lone_snapshot 0; lone_snapshot 0; lone_snapshot 200;
     lone_snapshot 200; lone_snapshot 301] =
  ([EvLock (fork_mutex 0); EvStatus 0 "has taken a fork" NOT_DEAD;
    EvTime 0; EvFinished 0; EvTime 200; EvSleep 1000;
    EvFinished 0; EvTime 301; EvUnlock (fork_mutex 0)],
   Done tt []).
Proof.
  exact (proj1 (single_philosopher_eat lone_philosopher 0 2
    [lone_snapshot 0; lone_snapshot 0; lone_snapshot 200;
     lone_snapshot 200; lone_snapshot 301] eq_refl)).
Defined.

(** ** Leaving the lifecycle *)

Lemma scan_unlatched (tr : list ev) : scan leaving_step Unlatched tr = Some Unlatched.
Proof. induction tr as [|e tr IH]; [reflexivity | exact IH]. Qed.

Lemma accepts_unlatched {R : Type} (r : list ev * outcome R)
  (post : outcome R -> leaving -> Prop) :
  post (snd r) Unlatched -> accepts leaving_step Unlatched r post.
Proof. intros H. exists Unlatched. split; [apply scan_unlatched | exact H]. Qed.

Lemma wait_iterations_watching (d start : Z) (n : nat) (its : list ev) :
  wait_iterations d start n its -> scan leaving_step Watching its = Some Watching.
Proof.
  induction 1 as [|v t n tr Hv Ht _ IH]; [reflexivity|].
  cbn. rewrite Hv. exact IH.
Qed.

Lemma wait_end_leaving (d start : Z) (last : list ev) (b : bool) :
  wait_end d start last b ->
  exists q, scan leaving_step Watching last = Some q /\
            (q = Watching \/ (q = Leaving /\ b = true)).
Proof.
  destruct 1 as [v Hv | v t Hv Ht | | v Hv]; cbn; rewrite ?Hv; eauto.
Qed.

Lemma philo_spend_time_leaving (d : Z) (fuel : nat) (env : list snapshot) :
  accepts leaving_step Watching (run (philo_spend_time d) fuel env) still_or_leaving.
Proof.
  unfold accepts, still_or_leaving. rewrite philo_spend_time_unfold. cbn [run].
  destruct env as [|s env]; [exists Watching; cbn; auto|].
  cbn [get_current_time_ms run perform then_run fst snd].
  destruct (iterate_philo_spend_time_body d (snap_time s) fuel fuel env)
    as (k & its & last & Htr & Hits & Hend & _).
  rewrite Htr. cbn [app scan leaving_step]. rewrite scan_app.
  rewrite (wait_iterations_watching _ _ _ _ Hits).
  apply (wait_end_leaving _ _ _ _ Hend).
Qed.

Lemma philosopher_eat_leaving (sim : t_simulation) (philo : Z)
  (fuel : nat) (env : list snapshot) :
  accepts leaving_step Watching (run (philosopher_eat sim philo) fuel env) still_or_leaving.
Proof.
  unfold accepts, still_or_leaving, philosopher_eat.
  destruct (philosopher_count sim =? 1).
  - cbn -[philo_spend_time]. unfold then_run.
    destruct (philo_spend_time_leaving (time_to_die sim + 1) fuel env)
      as (q & Hq & Hcase).
    destruct (run (philo_spend_time (time_to_die sim + 1)) fuel env) as [trw ow].
    cbn [fst snd] in *.
    destruct ow as [[] rest| |]; cbn [fst snd app]; rewrite ?scan_app, Hq;
      destruct Hcase as [-> | [-> Hret]]; cbn; eauto; discriminate.
  - cbn [run].
    set (acq := run (acquire_forks sim philo) fuel env).
    assert (Hacq : exists tra, acq = (tra, Done tt env) /\
                     scan leaving_step Watching tra = Some Watching).
    { subst acq. unfold acquire_forks. cbn zeta.
      destruct (acquire_forks_branch _); cbn; eauto. }
    destruct Hacq as (tra & -> & Htra).
    cbn -[philo_spend_time release_forks]. rewrite scan_app, Htra.
    destruct env as [|s1 [|s2 [|s3 env]]]; cbn -[philo_spend_time release_forks];
      eauto.
    unfold then_run.
    destruct (philo_spend_time_leaving (time_to_eat sim) fuel env)
      as (q & Hq & Hcase).
    destruct (run (philo_spend_time (time_to_eat sim)) fuel env) as [trw ow].
    cbn [fst snd] in *.
    destruct ow as [[] rest| |]; cbn [fst snd app]; rewrite ?scan_app, Hq;
      destruct Hcase as [-> | [-> Hret]]; cbn; eauto; discriminate.
Qed.

(** A look at the flag, by the state it is made in. *)
Lemma is_simulation_finished_leaving (q : leaving) (fuel : nat) (env : list snapshot) :
  q <> Gone ->
  accepts leaving_step q (run is_simulation_finished fuel env)
    (fun o q' =>
       match o with
       | Done v _ => leaving_step q (EvFinished v) = Some q'
       | EnvEnd => q' = q
       | FuelEnd => False
       end).
Proof.
  intros Hq. unfold accepts. destruct env as [|s env]; cbn; [eauto|].
  destruct q; try contradiction; cbn;
    destruct (c_true (simulation_ended (snap_sim s))); eauto.
Qed.

Lemma philosopher_lifecycle_body_leaving (sim : t_simulation) (philo : Z)
  (fuel : nat) (env : list snapshot) :
  accepts leaving_step Watching (run (philosopher_lifecycle_body sim philo) fuel env)
    after_iteration.
Proof.
  unfold philosopher_lifecycle_body. cbn [run].
  eapply accepts_then;
    [apply is_simulation_finished_leaving; discriminate | | |]; cbn beta.
  2: { intros q1 ->. right. exact I. }
  2: { intros q1 []. }
  intros v1 env1 q1 Hq1. cbn in Hq1.
  destruct (c_true v1).
  { injection Hq1 as <-. exists Leaving. cbn. split; [reflexivity|]. right. auto. }
  injection Hq1 as <-. cbn [run].
  eapply accepts_then; [apply philosopher_eat_leaving | | |]; cbn beta.
  2: { intros q1 _. right. exact I. }
  2: { intros q1 [-> | [_ Hret]]; [right; reflexivity | discriminate]. }
  intros [] env2 q2 Hq2.
  eapply accepts_then;
    [apply is_simulation_finished_leaving; destruct Hq2 as [-> | [-> _]]; discriminate
    | | |]; cbn beta.
  2: { intros q3 _. right. exact I. }
  2: { intros q3 []. }
  intros v2 env3 q3 Hq3.
  destruct Hq2 as [-> | [-> _]]; cbn in Hq3; destruct (c_true v2);
    injection Hq3 as <-.
  { exists Leaving. cbn. split; [reflexivity|]. right. auto. }
  2: { exists Gone. cbn. split; [reflexivity|]. right. auto. }
  2: { apply accepts_unlatched. left. reflexivity. }
  cbn [run].
  eapply accepts_then with (mid := fun o q => q = Watching /\ returned o = true).
  { exists Watching. cbn. auto. }
  2: { intros q [_ H]. discriminate H. }
  2: { intros q [_ H]. discriminate H. }
  intros [] env4 q4 [-> _].
  eapply accepts_then; [apply philo_spend_time_leaving | | |]; cbn beta.
  2: { intros q5 _. right. exact I. }
  2: { intros q5 [-> | [_ Hret]]; [right; reflexivity | discriminate]. }
  intros [] env5 q5 Hq5.
  eapply accepts_then;
    [apply is_simulation_finished_leaving; destruct Hq5 as [-> | [-> _]]; discriminate
    | | |]; cbn beta.
  2: { intros q6 _. right. exact I. }
  2: { intros q6 []. }
  intros v3 env6 q6 Hq6.
  destruct Hq5 as [-> | [-> _]]; cbn in Hq6; destruct (c_true v3);
    injection Hq6 as <-.
  { exists Leaving. cbn. split; [reflexivity|]. right. auto. }
  2: { exists Gone. cbn. split; [reflexivity|]. right. auto. }
  2: { apply accepts_unlatched. left. reflexivity. }
  exists Watching. destruct (Z.rem (philosopher_count sim) 2 =? 1); cbn;
    (split; [reflexivity | right; reflexivity]).
Qed.

Lemma philosopher_lifecycle_loop_leaving (sim : t_simulation) (philo : Z) (fuel : nat) :
  forall n env,
  accepts leaving_step Watching
    (iterate (run (philosopher_lifecycle_body sim philo) fuel) n env)
    after_lifecycle.
Proof.
  induction n as [|n IH]; intros env; cbn [iterate].
  - exists Watching. cbn. split; [reflexivity | right; reflexivity].
  - eapply accepts_then; [apply philosopher_lifecycle_body_leaving | | |];
      cbn beta.
    + intros [|] rest q1 [-> | Hq1].
      * apply accepts_unlatched. left. reflexivity.
      * subst q1. apply IH.
      * apply accepts_unlatched. left. reflexivity.
      * exists q1. cbn. split; [reflexivity | right; exact Hq1].
    + intros q1 _. destruct q1; (left; reflexivity) || (right; exact I).
    + intros q1 [-> | ->]; [left | right]; reflexivity.
Qed.

Lemma philosopher_lifecycle_leaving (sim : t_simulation) (philo : Z)
  (fuel : nat) (env : list snapshot) :
  accepts leaving_step Watching (run (philosopher_lifecycle sim philo) fuel env) after_lifecycle.
Proof.
  rewrite philosopher_lifecycle_unfold. cbn [run].
  eapply accepts_then with (mid := fun o q => q = Watching /\ returned o = true).
  - destruct (Z.rem _ 2 =? 0); exists Watching; cbn; auto.
  - intros [] rest q1 [-> _]. apply philosopher_lifecycle_loop_leaving.
  - intros q [_ H]. discriminate H.
  - intros q [_ H]. discriminate H.
Qed.

Lemma scan_watching_quiet (tr : list ev) :
  (forall v, In (EvFinished v) tr -> c_true v = false) ->
  scan leaving_step Watching tr = Some Watching.
Proof.
  induction tr as [|e tr IH]; intros Hquiet; [reflexivity|].
  assert (Htl : scan leaving_step Watching tr = Some Watching).
  { apply IH. intros v Hv. apply Hquiet. right. exact Hv. }
  destruct e; cbn; try exact Htl.
  rewrite (Hquiet v) by (left; reflexivity). exact Htl.
Qed.

Lemma scan_gone (tr : list ev) (q : leaving) :
  scan leaving_step Gone tr = Some q -> tr = [] /\ q = Gone.
Proof.
  destruct tr as [|e tr]; cbn.
  - intros [= <-]. auto.
  - destruct e; discriminate.
Qed.

Lemma scan_leaving_shape (tr : list ev) (q : leaving) :
  scan leaving_step Leaving tr = Some q ->
  (forall v, In (EvFinished v) tr -> c_true v = true) ->
  exists unlocks last,
    tr = unlocks ++ last /\ Forall is_unlock unlocks /\
    ((last = [] /\ q = Leaving) \/ (exists v, last = [EvFinished v]) /\ q = Gone).
Proof.
  induction tr as [|e tr IH]; intros Hscan Hlatch.
  - injection Hscan as <-. exists [], []. repeat split; auto.
  - destruct e; try discriminate Hscan; cbn in Hscan.
    + destruct IH as (unlocks & last & -> & Hun & Hlast); [exact Hscan| |].
      { intros v Hv. apply Hlatch. right. exact Hv. }
      exists (EvUnlock m :: unlocks), last. repeat split; try assumption.
      constructor; [exact I | assumption].
    + rewrite (Hlatch v) in Hscan by (left; reflexivity).
      apply scan_gone in Hscan as [-> ->].
      exists [], [EvFinished v]. repeat split; eauto.
Qed.

Lemma unlocks_report_nothing (tr : list ev) (i : Z) (msg : string) (d : Z) :
  Forall is_unlock tr -> ~ In (EvStatus i msg d) tr.
Proof. intros H Hin. exact (Forall_In _ _ _ H Hin). Qed.


(** ** Every phase follows a look at the flag *)

Lemma quiet_scan (tr : list ev) :
  Forall quiet_event tr -> forall q, exists q', scan gate_step q tr = Some q'.
Proof.
  induction 1 as [|e tr He _ IH]; intros q; [cbn; eauto|].
  destruct e as [[]| | | | | | | | |]; cbn in *; try apply IH.
  - destruct (c_true v); apply IH.
  - rewrite He. apply IH.
Qed.

Lemma accepts_quiet {R : Type} (p : prog R) (fuel : nat) (env : list snapshot)
  (q : gate) :
  every quiet_event p ->
  accepts gate_step q (run p fuel env) (fun _ _ => True).
Proof.
  intros Hp. destruct (quiet_scan _ (every_run _ _ Hp fuel env) q) as [q' Hq'].
  exists q'. auto.
Qed.

Lemma wait_event_quiet (e : ev) : wait_event e -> quiet_event e.
Proof. destruct e; cbn; tauto. Qed.

Lemma philo_spend_time_quiet (d : Z) : every quiet_event (philo_spend_time d).
Proof.
  eapply every_weaken; [exact wait_event_quiet | apply philo_spend_time_events].
Qed.

Lemma is_simulation_finished_gate (q : gate) (fuel : nat) (env : list snapshot) :
  accepts gate_step q (run is_simulation_finished fuel env)
    (fun o q' =>
       match o with
       | Done v _ => q' = if c_true v then Unchecked else Checked
       | _ => True
       end).
Proof.
  unfold accepts. destruct env as [|s env]; cbn; [eauto|].
  destruct (c_true (simulation_ended (snap_sim s))); eauto.
Qed.

Lemma philosopher_eat_gate (sim : t_simulation) (philo : Z)
  (fuel : nat) (env : list snapshot) :
  accepts gate_step Checked (run (philosopher_eat sim philo) fuel env)
    (fun _ _ => True).
Proof.
  unfold philosopher_eat. destruct (philosopher_count sim =? 1).
  - apply accepts_quiet. cbn zeta.
    repeat first [apply philo_spend_time_quiet | every_step].
  - cbn [run].
    eapply accepts_then with (mid := fun o q => q = Checked /\ returned o = true).
    { unfold acquire_forks. cbn zeta.
      destruct (acquire_forks_branch _); exists Checked; cbn; auto. }
    2: { intros q [_ H]. discriminate H. }
    2: { intros q [_ H]. discriminate H. }
    intros [] rest q [-> _].
    eapply accepts_then with (mid := fun o q => True).
    { exists Unchecked. cbn. auto. }
    2, 3: auto.
    intros [] rest' q _.
    change (accepts gate_step q
              (run (pthread_mutex_lock data_mutex ;;
                    now ← get_current_time_ms ;
                    store (set_last_meal_time philo now) ;;
                    store (incr_meals_eaten philo) ;;
                    pthread_mutex_unlock data_mutex ;;
                    philo_spend_time (time_to_eat sim) ;;
                    release_forks sim philo) fuel rest') (fun _ _ => True)).
    apply accepts_quiet.
    repeat first [apply philo_spend_time_quiet | apply every_access; intros ?; exact I
                 | every_step].
Qed.

Lemma philosopher_lifecycle_body_gate (sim : t_simulation) (philo : Z)
  (fuel : nat) (env : list snapshot) (q : gate) :
  accepts gate_step q (run (philosopher_lifecycle_body sim philo) fuel env)
    (fun _ _ => True).
Proof.
  unfold philosopher_lifecycle_body. cbn [run].
  eapply accepts_then; [apply is_simulation_finished_gate | | auto | auto].
  cbn beta. intros v1 env1 q1 ->.
  destruct (c_true v1); [exists Unchecked; cbn; auto|]. cbn [run].
  eapply accepts_then; [apply philosopher_eat_gate | | auto | auto].
  intros [] env2 q2 _.
  eapply accepts_then; [apply is_simulation_finished_gate | | auto | auto].
  cbn beta. intros v2 env3 q3 ->.
  destruct (c_true v2); [exists Unchecked; cbn; auto|]. cbn [run].
  eapply accepts_then with (mid := fun o q => True).
  { exists Unchecked. cbn. auto. }
  2, 3: auto.
  intros [] env4 q4 _.
  eapply accepts_then;
    [apply accepts_quiet; apply philo_spend_time_quiet | | auto | auto].
  intros [] env5 q5 _.
  eapply accepts_then; [apply is_simulation_finished_gate | | auto | auto].
  cbn beta. intros v3 env6 q6 ->.
  destruct (c_true v3); [exists Unchecked; cbn; auto|]. cbn [run].
  eapply accepts_then with (mid := fun o q => True).
  { exists Unchecked. cbn. auto. }
  2, 3: auto.
  intros [] env7 q7 _.
  destruct (Z.rem (philosopher_count sim) 2 =? 1);
    [exists Unchecked | exists q7]; cbn; auto.
Qed.

Lemma philosopher_lifecycle_gate (sim : t_simulation) (philo : Z)
  (fuel : nat) (env : list snapshot) :
  accepts gate_step Unchecked (run (philosopher_lifecycle sim philo) fuel env)
    (fun _ _ => True).
Proof.
  rewrite philosopher_lifecycle_unfold. cbn [run].
  eapply accepts_then with (mid := fun o q => True).
  { apply accepts_quiet. repeat every_step. }
  2, 3: auto.
  intros [] rest q _. revert rest q.
  induction fuel as [|n IH] at 2; intros rest q; cbn [iterate].
  - exists q. cbn. auto.
  - eapply accepts_then; [apply philosopher_lifecycle_body_gate | | auto | auto].
    intros [|] rest' q' _; [apply IH | exists q'; cbn; auto].
Qed.

Lemma is_phase_message_spec (msg : string) :
  is_phase_message msg = true <-> phase_message msg.
Proof.
  unfold is_phase_message, phase_message.
  rewrite !orb_true_iff, !String.eqb_eq. tauto.
Qed.

Lemma scan_gate_checked (tr : list ev) :
  forall q0, scan gate_step q0 tr = Some Checked ->
  (q0 = Checked /\ Forall fork_taking tr) \/
  (exists pre v taking,
     tr = pre ++ EvFinished v :: taking /\ c_true v = false /\
     Forall fork_taking taking).
Proof.
  induction tr as [|e tr IH]; intros q0 Hscan.
  - injection Hscan as ->. left. split; [reflexivity | constructor].
  - cbn [scan] in Hscan.
    destruct (gate_step q0 e) as [q1|] eqn:Hstep; [|discriminate].
    destruct (IH q1 Hscan) as [[-> Htaking] | (pre & v & taking & -> & Hv & Htaking)].
    + destruct e as [[]| | | | | | | | |]; cbn in Hstep; try discriminate.
      * injection Hstep as ->. left. split; [reflexivity|].
        constructor; [exact I | assumption].
      * destruct (c_true v) eqn:Hv; [discriminate|].
        right. exists [], v, tr. auto.
      * destruct (is_phase_message msg) eqn:Hmsg.
        -- destruct q0; discriminate.
        -- injection Hstep as ->. left. split; [reflexivity|].
           constructor; assumption.
    + right. exists (e :: pre), v, taking. auto.
Qed.

Lemma phase_needs_checked (q : gate) (i : Z) (msg : string) (d : Z) (tr : list ev) :
  phase_message msg ->
  scan gate_step q (EvStatus i msg d :: tr) <> None -> q = Checked.
Proof.
  intros Hmsg. apply is_phase_message_spec in Hmsg. cbn. rewrite Hmsg.
  destruct q; [reflexivity | contradiction].
Qed.

(** Each phase message of the lifecycle follows a look at the flag that
    saw it down, with nothing but the taking of forks in between. *)
Lemma phase_follows_look (sim : t_simulation) (philo : Z)
  (fuel : nat) (env : list snapshot)
  (tr1 tr2 : list ev) (i : Z) (msg : string) (d : Z) :
  fst (run (philosopher_lifecycle sim philo) fuel env)
  = tr1 ++ EvStatus i msg d :: tr2 ->
  phase_message msg ->
  exists pre v taking,
    tr1 = pre ++ EvFinished v :: taking /\ c_true v = false /\
    Forall fork_taking taking.
Proof.
  intros Htr Hmsg.
  destruct (philosopher_lifecycle_gate sim philo fuel env) as (q & Hscan & _).
  rewrite Htr, scan_app in Hscan.
  destruct (scan gate_step Unchecked tr1) as [q1|] eqn:Hq1; [|discriminate].
  assert (q1 = Checked) as ->.
  { apply (phase_needs_checked q1 i msg d tr2 Hmsg). rewrite Hscan. discriminate. }
  destruct (scan_gate_checked _ _ Hq1) as [[Hbad _] | H]; [discriminate | exact H].
Qed.
(** C5: a philosopher begins no phase after it has seen the flag raised.
    In any run of the lifecycle each phase message ("is eating",
    "is sleeping", "is thinking") follows a look at the flag that saw it
    down, with nothing but the taking of forks in between: the loop looks
    at the flag before each eat phase and right after the eat and sleep
    phases.  And take the first look at the flag that saw it raised, the
    flag staying raised at every later look (the latch).  After that look
    the philosopher reports nothing any more (so none of the three phase
    messages): it only puts forks down and looks at the flag at most once
    more.  And its loop exits: the run does not lack loop iterations, and
    it has returned unless the environment showed it no further
    snapshot. *)
Theorem no_phase_after_termination_seen
  (sim : t_simulation) (philo : Z) (fuel : nat) (env : list snapshot) :
  let r := run (philosopher_lifecycle sim philo) fuel env in
  (forall tr1 tr2 i msg d,
     fst r = tr1 ++ EvStatus i msg d :: tr2 ->
     phase_message msg ->
     exists pre v taking,
       tr1 = pre ++ EvFinished v :: taking /\ c_true v = false /\
       Forall fork_taking taking) /\
  (forall tr1 tr2 v,
     fst r = tr1 ++ EvFinished v :: tr2 ->
     (forall v', In (EvFinished v') tr1 -> c_true v' = false) ->
     c_true v = true ->
     (forall v', In (EvFinished v') tr2 -> c_true v' = true) ->
     (forall i msg d, In (EvStatus i msg d) tr2 -> ~ phase_message msg) /\
     (exists unlocks last,
        tr2 = unlocks ++ last /\ Forall is_unlock unlocks /\
        (last = [] \/ exists v', last = [EvFinished v'])) /\
     snd r <> FuelEnd /\
     ((looks (fst r) < length env)%nat -> exists rest, snd r = Done tt rest)).
Proof.
  intros r. split.
  { intros tr1 tr2 i msg d. apply phase_follows_look. }
  intros tr1 tr2 v Htr Hfirst Hv Hlatch.
  destruct (philosopher_lifecycle_leaving sim philo fuel env) as (q & Hscan & Hpost).
  fold r in Hscan, Hpost. rewrite Htr, scan_app in Hscan.
  rewrite (scan_watching_quiet _ Hfirst) in Hscan. cbn in Hscan. rewrite Hv in Hscan.
  destruct (scan_leaving_shape _ _ Hscan Hlatch)
    as (unlocks & last & -> & Hun & Hlast).
  assert (Hq : q = Leaving \/ q = Gone) by (destruct Hlast as [[_ ->]|[_ ->]]; auto).
  assert (Hfuel : snd r <> FuelEnd).
  { intros Ho. rewrite Ho in Hpost.
    destruct Hpost as [-> | ->], Hq; discriminate. }
  split; [|split; [|split]].
  - intros i msg d Hin. exfalso. apply in_app_or in Hin as [Hin|Hin].
    + exact (unlocks_report_nothing _ _ _ _ Hun Hin).
    + destruct Hlast as [[-> _]|[[v' ->] _]]; cbn in Hin; intuition discriminate.
  - exists unlocks, last. repeat split; try assumption.
    destruct Hlast as [[-> _]|[Hv' _]]; auto.
  - exact Hfuel.
  - intros Hleft. pose proof (run_looks (philosopher_lifecycle sim philo) fuel env) as Hacc.
    unfold looks_accounted in Hacc. fold r in Hacc.
    destruct (snd r) as [[] rest| |]; [eauto | lia | contradiction].
Qed.

Lemma no_phase_after_termination_seen_witness :
  let r := run (philosopher_lifecycle two_philosophers 0) 3 flag_raised_while_eating in
  skipn 13 (fst r) = [EvUnlock (fork_mutex 0); EvUnlock (fork_mutex 1); EvFinished 1]
  /\ (forall i msg d, In (EvStatus i msg d) (skipn 13 (fst r)) -> ~ phase_message msg)
  /\ exists rest, snd r = Done tt rest.
Proof.
  intros r.
  pose proof (proj2 (no_phase_after_termination_seen two_philosophers 0 3
                       flag_raised_while_eating)
                (firstn 12 (fst r)) (skipn 13 (fst r)) 1)
    as H.
  fold r in H.
  destruct H as (Hquiet & _ & _ & Hdone).
  - vm_compute. reflexivity.
  - vm_compute. intros v' Hin.
    repeat (destruct Hin as [Hin|Hin]; [try discriminate Hin; injection Hin as <-; reflexivity|]).
    destruct Hin.
  - reflexivity.
  - vm_compute. intros v' Hin.
    repeat (destruct Hin as [Hin|Hin]; [try discriminate Hin; injection Hin as <-; reflexivity|]).
    destruct Hin.
  - split; [vm_compute; reflexivity|]. split; [exact Hquiet|].
    apply Hdone. vm_compute. lia.
Defined.

(** ** The staggered start *)

Lemma then_run_fst {A R : Type} (first : list ev * outcome A)
  (next : A -> list snapshot -> list ev * outcome R) :
  exists tail, fst (then_run first next) = fst first ++ tail.
Proof.
  unfold then_run. destruct (snd first); cbn [fst]; eauto.
  all: exists []; rewrite app_nil_r; reflexivity.
Qed.

(** An even-id philosopher first calls [usleep] with half of
    [time_to_eat]; an odd-id philosopher first looks at the flag. *)
Lemma philosopher_lifecycle_first_event
  (sim : t_simulation) (philo : Z) (fuel : nat) (env : list snapshot) :
  let tr := fst (run (philosopher_lifecycle sim philo) fuel env) in
  if Z.rem (id (philosopher_at sim philo)) 2 =? 0
  then exists tr', tr = EvSleep (Z.quot (time_to_eat sim) 2) :: tr'
  else tr = [] \/ exists v tr', tr = EvFinished v :: tr'.
Proof.
  intros tr. subst tr. rewrite philosopher_lifecycle_unfold. cbn [run].
  destruct (Z.rem _ 2 =? 0).
  - cbn. eexists. reflexivity.
  - cbn [run then_run fst snd app].
    destruct fuel as [|fuel]; [left; reflexivity|].
    destruct env as [|s env]; [left; reflexivity|].
    right. exists (simulation_ended (snap_sim s)).
    cbn [iterate].
    destruct (then_run_fst
                (run (philosopher_lifecycle_body sim philo) (S fuel) (s :: env))
                (fun continue env' =>
                   if continue
                   then iterate (run (philosopher_lifecycle_body sim philo) (S fuel))
                          fuel env'
                   else ([], Done tt env'))) as [tail ->].
    unfold philosopher_lifecycle_body at 1. cbn [run].
    match goal with
    | |- context [then_run ?first ?next] =>
        destruct (then_run_fst first next) as [tail' ->]
    end.
    cbn. eauto.
Qed.

(** C8, on the code: the second of two philosophers (id 2), with
    [time_to_eat] of 200 milliseconds, starts with [usleep(100)], a delay
    of 100 microseconds; half the eating time is 100 milliseconds, that is
    100000 microseconds.  The first philosopher (id 1) starts by looking
    at the flag. *)
Theorem stagger_delay_passed_in_microseconds :
  fst (run (philosopher_lifecycle two_philosophers 1) 0 []) = [EvSleep 100] /\
  stagger_delay_us two_philosophers = 100000 /\
  fst (run (philosopher_lifecycle two_philosophers 0) 1 [two_snapshot 0 1])
  = [EvFinished 1].
Proof. repeat split. Qed.

(** ** All threads together: the flag latches *)

Lemma thread_code_latch (sim : t_simulation) (t : nat) :
  every latch_event (thread_code sim t).
Proof.
  destruct t as [|i]; [apply monitor_latch | apply philosopher_lifecycle_latch].
Qed.

Lemma is_trace_last {R : Type} (phi : ev -> Prop) (p : prog R) (tr : list ev) (e : ev) :
  every phi p -> is_trace p (tr ++ [e]) -> phi e.
Proof.
  intros Hp Htr. pose proof (every_trace phi p _ Hp Htr) as H.
  apply Forall_app in H as [_ H]. inversion H. assumption.
Qed.

Lemma effect_mem_inv (sim : t_simulation) (t : nat) (w w' : world) (e : ev) :
  effect sim t w e w' ->
  mem w' = mem w \/ (e = EvMem (mem w) (mem w')).
Proof. destruct 1; cbn; auto. Qed.

Lemma gstep_latch (sim : t_simulation) (w w' : world) :
  gstep sim w w' ->
  simulation_ended (mem w) = TRUE -> simulation_ended (mem w') = TRUE.
Proof.
  destruct 1 as [t e w w' Ht Htr Heff | d w Hd]; intros Hup; [|exact Hup].
  cbn [record mem].
  destruct (effect_mem_inv _ _ _ _ _ Heff) as [-> | ->]; [exact Hup|].
  pose proof (is_trace_last latch_event _ _ _ (thread_code_latch sim t) Htr) as H.
  cbn in H. destruct H as [H|H]; congruence.
Qed.

Lemma rtc_gstep_latch (sim : t_simulation) (w w' : world) :
  rtc (gstep sim) w w' ->
  simulation_ended (mem w) = TRUE -> simulation_ended (mem w') = TRUE.
Proof.
  induction 1 as [|w w1 w2 Hstep _ IH]; [auto|].
  intros Hup. apply IH. exact (gstep_latch _ _ _ Hstep Hup).
Qed.

(** C6: the termination flag latches.  The death check and the
    satisfaction check leave the flag as it is or set it to [TRUE]; every
    access of a philosopher leaves the flag as it is; every access of every
    thread (the monitor and each philosopher) leaves the flag as it is or
    sets it to [TRUE]; so in every run of the system, once the flag is
    [TRUE] in a reachable state it is [TRUE] in every later state. *)
Theorem termination_flag_latches (sim : t_simulation) :
  (forall current_time s,
     simulation_ended (fst (check_for_death_at current_time s)) = simulation_ended s \/
     simulation_ended (fst (check_for_death_at current_time s)) = TRUE) /\
  (forall s,
     simulation_ended (fst (check_all_philosophers_satisfied s)) = simulation_ended s \/
     simulation_ended (fst (check_all_philosophers_satisfied s)) = TRUE) /\
  (forall philo tr s s',
     is_trace (philosopher_lifecycle sim philo) tr -> In (EvMem s s') tr ->
     simulation_ended s' = simulation_ended s) /\
  (forall t tr s s',
     is_trace (thread_code sim t) tr -> In (EvMem s s') tr ->
     simulation_ended s' = simulation_ended s \/ simulation_ended s' = TRUE) /\
  (forall w w',
     reachable sim w -> rtc (gstep sim) w w' ->
     simulation_ended (mem w) = TRUE -> simulation_ended (mem w') = TRUE).
Proof.
  repeat split.
  - intros now s. destruct (check_for_death_at_frame now s) as [-> | ->]; cbn; auto.
  - intros s. destruct (check_all_philosophers_satisfied_frame s) as [-> | ->]; cbn; auto.
  - intros philo tr s s' Htr Hin.
    pose proof (every_trace flag_kept _ _
                  (philosopher_lifecycle_keeps_flag sim philo) Htr) as H.
    exact (Forall_In _ _ _ H Hin).
  - intros t tr s s' Htr Hin.
    pose proof (every_trace latch_event _ _ (thread_code_latch sim t) Htr) as H.
    exact (Forall_In _ _ _ H Hin).
  - intros w w' _. apply rtc_gstep_latch.
Qed.

Lemma flag_raised_reachable : reachable lone_hungry flag_raised.
Proof.
  exists 1000.
  eapply rtc_l; [|eapply rtc_l; [|eapply rtc_l; [|apply rtc_refl]]].
  - apply (gstep_thread lone_hungry 0 (EvLock data_mutex)); [cbn; lia | |].
    + exists 1%nat, []. eexists. vm_compute. reflexivity.
    + apply effect_lock. reflexivity.
  - fold monitor_locked.
    apply (gstep_thread lone_hungry 0 (EvTime 1000) monitor_locked monitor_locked);
      [cbn; lia | |].
    + exists 1%nat, [mk_snapshot 1000 lone_hungry]. eexists. vm_compute. reflexivity.
    + exact (effect_time lone_hungry 0 monitor_locked).
  - fold monitor_timed.
    apply (gstep_thread lone_hungry 0
             (EvMem lone_hungry (set_simulation_ended TRUE lone_hungry))
             monitor_timed
             (set_mem (set_simulation_ended TRUE lone_hungry) monitor_timed));
      [cbn; lia | |].
    + exists 1%nat, [mk_snapshot 1000 lone_hungry; mk_snapshot 1000 lone_hungry].
      eexists. vm_compute. reflexivity.
    + exact (effect_mem lone_hungry 0 monitor_timed
               (set_simulation_ended TRUE lone_hungry)).
Qed.

Lemma termination_flag_latches_witness :
  simulation_ended (mem (advance 5 flag_raised)) = TRUE.
Proof.
  refine (proj2 (proj2 (proj2 (proj2 (termination_flag_latches lone_hungry))))
            flag_raised (advance 5 flag_raised) flag_raised_reachable _ _).
  - apply rtc_once. apply gstep_tick. lia.
  - reflexivity.
Defined.

(** ** The monitor only raises the flag *)

Lemma poll_event_no_fork (e : ev) : poll_event e -> ~ fork_event e.
Proof.
  destruct e as [m|m|m| | | | | | |]; cbn; try tauto; intros ->; tauto.
Qed.

Lemma poll_event_keeps_records (s s' : t_simulation) :
  poll_event (EvMem s s') -> philosophers s' = philosophers s.
Proof. cbn. intros [-> | ->]; reflexivity. Qed.

(** C9: the monitor's evaluation reads the records and writes the flag.
    The death check and the satisfaction check leave the structure as it
    is or raise the flag in it, so no [last_meal_time] and no
    [meals_eaten] is modified.  In every run of the polling loop each
    access leaves the records as they are, and no event touches a fork
    mutex.  A run of the monitor is a run of the polling loop followed,
    once the loop has returned, by the cleanup. *)
Theorem monitor_reads_records_writes_flag
  (sim : t_simulation) (fuel : nat) (env : list snapshot) :
  (forall current_time s,
     fst (check_for_death_at current_time s) = s \/
     fst (check_for_death_at current_time s) = set_simulation_ended TRUE s) /\
  (forall s,
     fst (check_all_philosophers_satisfied s) = s \/
     fst (check_all_philosophers_satisfied s) = set_simulation_ended TRUE s) /\
  (forall current_time s,
     philosophers (fst (check_for_death_at current_time s)) = philosophers s /\
     philosophers (fst (check_all_philosophers_satisfied s)) = philosophers s) /\
  let poll := run (monitor_poll sim) fuel env in
  Forall poll_event (fst poll) /\
  (forall s s', In (EvMem s s') (fst poll) ->
     (s' = s \/ s' = set_simulation_ended TRUE s) /\
     philosophers s' = philosophers s) /\
  (forall e, In e (fst poll) -> ~ fork_event e) /\
  run (monitor_simulation_and_cleanup sim) fuel env =
    match snd poll with
    | Done _ rest =>
        (fst poll ++ fst (run (cleanup_simulation_resources sim) fuel rest),
         snd (run (cleanup_simulation_resources sim) fuel rest))
    | EnvEnd => (fst poll, EnvEnd)
    | FuelEnd => (fst poll, FuelEnd)
    end.
Proof.
  split; [exact check_for_death_at_frame|].
  split; [exact check_all_philosophers_satisfied_frame|].
  split.
  { intros now s. split.
    - destruct (check_for_death_at_frame now s) as [-> | ->]; reflexivity.
    - destruct (check_all_philosophers_satisfied_frame s) as [-> | ->]; reflexivity. }
  intros poll.
  pose proof (every_run poll_event _ (monitor_poll_events sim) fuel env) as Hpoll.
  fold poll in Hpoll.
  split; [exact Hpoll|]. split; [|split].
  - intros s s' Hin. pose proof (Forall_In _ _ _ Hpoll Hin) as H.
    split; [exact H | exact (poll_event_keeps_records _ _ H)].
  - intros e Hin. apply poll_event_no_fork. exact (Forall_In _ _ _ Hpoll Hin).
  - reflexivity.
Qed.

(** ** A lone philosopher never eats *)

Lemma monitor_check_events (sim : t_simulation) :
  every check_event (monitor_simulation_and_cleanup sim).
Proof.
  unfold monitor_simulation_and_cleanup, cleanup_simulation_resources. cbn zeta.
  repeat first [apply every_for_each_index; intros ? | every_step].
  - apply every_access. intros s. cbn. eauto.
  - apply every_access. intros s. cbn. auto.
Qed.

Lemma monitor_frame_events (sim : t_simulation) :
  every (fun e => match e with
                  | EvMem s s' => s' = s \/ s' = set_simulation_ended TRUE s
                  | _ => True
                  end) (monitor_simulation_and_cleanup sim).
Proof.
  eapply every_weaken; [|apply monitor_check_events].
  intros [] H; cbn in *; auto.
  destruct H as [[now ->] | ->].
  - apply check_for_death_at_frame.
  - apply check_all_philosophers_satisfied_frame.
Qed.

(** With one philosopher only the flag of the structure ever changes. *)
Lemma lone_gstep_frame (sim : t_simulation) (w w' : world) :
  philosopher_count sim = 1 ->
  gstep sim w w' ->
  (exists v, mem w = set_simulation_ended v sim) ->
  exists v, mem w' = set_simulation_ended v sim.
Proof.
  intros Hone Hstep Hinv.
  destruct Hstep as [t e w w' Ht Htr Heff | d w Hd]; [|exact Hinv].
  cbn [record mem].
  destruct (effect_mem_inv _ _ _ _ _ Heff) as [-> | ->]; [exact Hinv|].
  destruct t as [|[|t]]; [| |lia].
  - pose proof (is_trace_last _ _ _ _ (monitor_frame_events sim) Htr) as H.
    cbn in H. destruct H as [-> | ->]; [exact Hinv|].
    destruct Hinv as [v ->]. exists TRUE. reflexivity.
  - exfalso.
    exact (is_trace_last _ _ _ _ (single_philosopher_no_access sim _ Hone) Htr I).
Qed.

Lemma lone_reachable_frame (sim : t_simulation) (w : world) :
  philosopher_count sim = 1 ->
  reachable sim w ->
  exists v, mem w = set_simulation_ended v sim.
Proof.
  intros Hone [t0 Hrun].
  assert (Hstart : exists v, mem (start sim t0) = set_simulation_ended v sim).
  { exists (simulation_ended sim). destruct sim; reflexivity. }
  revert Hstart. induction Hrun as [|w0 w1 w2 Hstep _ IH]; intros Hstart;
    [exact Hstart|].
  apply IH. exact (lone_gstep_frame _ _ _ Hone Hstep Hstart).
Qed.

Lemma lone_never_satisfied (sim : t_simulation) (v : Z) :
  philosopher_count sim = 1 ->
  meals_eaten (philosopher_at sim 0) = 0 ->
  required_meals sim >= 1 ->
  check_all_philosophers_satisfied (set_simulation_ended v sim)
  = (set_simulation_ended v sim, FALSE).
Proof.
  intros Hone Hmeals Hreq.
  unfold check_all_philosophers_satisfied.
  change (required_meals (set_simulation_ended v sim)) with (required_meals sim).
  change (philosopher_count (set_simulation_ended v sim)) with (philosopher_count sim).
  destruct (Z.eqb_spec (required_meals sim) (-1)) as [|_]; [lia|].
  rewrite Hone. change (Z.to_nat 1) with 1%nat. cbn [count_satisfied].
  change (philosopher_count (set_simulation_ended v sim)) with (philosopher_count sim).
  change (required_meals (set_simulation_ended v sim)) with (required_meals sim).
  change (philosopher_at (set_simulation_ended v sim) 0) with (philosopher_at sim 0).
  rewrite Hone, Hmeals. change (0 <? 1) with true. cbn iota.
  destruct (Z.geb_spec 0 (required_meals sim)) as [|_]; [lia|].
  reflexivity.
Qed.

(** C10: with one philosopher, whose record is allocated and starts with
    [meals_eaten] 0, no meal is ever recorded.  The eat phase
    makes no access to the shared structure.  In every reachable state the
    records are those of the start, so [meals_eaten] is still 0 and the
    satisfaction check, with [required_meals >= 1], changes nothing and
    answers [FALSE].  Hence a step that changes the flag is an access
    of the death check, which found a starving philosopher. *)
Theorem lone_philosopher_ends_by_death (sim : t_simulation) :
  records_allocated sim ->
  philosopher_count sim = 1 ->
  meals_eaten (philosopher_at sim 0) = 0 ->
  required_meals sim >= 1 ->
  (forall philo fuel env s s',
     ~ In (EvMem s s') (fst (run (philosopher_eat sim philo) fuel env))) /\
  (forall w, reachable sim w ->
     philosophers (mem w) = philosophers sim /\
     meals_eaten (philosopher_at (mem w) 0) = 0 /\
     last_meal_time (philosopher_at (mem w) 0) = last_meal_time (philosopher_at sim 0) /\
     check_all_philosophers_satisfied (mem w) = (mem w, FALSE)) /\
  (forall w w', reachable sim w -> gstep sim w w' ->
     simulation_ended (mem w') <> simulation_ended (mem w) ->
     exists current_time,
       mem w' = fst (check_for_death_at current_time (mem w)) /\
       snd (check_for_death_at current_time (mem w)) > 0).
Proof.
  intros _ Hone Hmeals Hreq. split; [|split].
  - intros philo fuel env s s'.
    pose proof (every_run _ _ (single_philosopher_eat_no_access sim philo Hone)
                  fuel env) as H.
    intros Hin. exact (Forall_In _ _ _ H Hin I).
  - intros w Hw. destruct (lone_reachable_frame _ _ Hone Hw) as [v ->].
    repeat split; try reflexivity; try assumption.
    apply lone_never_satisfied; assumption.
  - intros w w' Hw Hstep Hchange.
    destruct (lone_reachable_frame _ _ Hone Hw) as [v Hv].
    destruct Hstep as [t e w w' Ht Htr Heff | d w Hd]; [|contradiction].
    cbn [record mem] in *.
    destruct (effect_mem_inv _ _ _ _ _ Heff) as [Heq | ->];
      [rewrite Heq in Hchange; contradiction|].
    destruct t as [|[|t]]; [| |lia].
    + pose proof (is_trace_last _ _ _ _ (monitor_check_events sim) Htr) as H.
      cbn in H. destruct H as [[now Hnow] | Hsat].
      * exists now. split; [exact Hnow|].
        destruct (check_for_death_at_spec now (mem w))
          as [(j & Hj & _ & _ & Hr)|[_ Hr]]; rewrite Hr in *; cbn [fst snd] in *.
        -- lia.
        -- rewrite Hnow in Hchange. contradiction.
      * exfalso. rewrite Hv in Hsat.
        rewrite (lone_never_satisfied _ _ Hone Hmeals Hreq) in Hsat.
        cbn [fst] in Hsat. rewrite Hsat, Hv in Hchange. contradiction.
    + exfalso.
      exact (is_trace_last _ _ _ _ (single_philosopher_no_access sim _ Hone) Htr I).
Qed.

Lemma lone_philosopher_ends_by_death_witness :
  meals_eaten (philosopher_at (mem flag_raised) 0) = 0 /\
  check_all_philosophers_satisfied (mem flag_raised) = (mem flag_raised, FALSE).
Proof.
  assert (Hreq : required_meals lone_hungry >= 1) by (vm_compute; discriminate).
  destruct (proj1 (proj2 (lone_philosopher_ends_by_death lone_hungry
                            eq_refl eq_refl eq_refl Hreq))
              flag_raised flag_raised_reachable) as (_ & Hmeals & _ & Hcheck).
  exact (conj Hmeals Hcheck).
Defined.

(** * Further properties of the code *)

(** ** The polling interval of the monitor *)




(** ** The cleanup *)

Lemma run_for_each_index (count : Z) (call : Z -> prog unit) (event : Z -> ev)
  (fuel : nat) (env : list snapshot) :
  (forall i, run (call i) fuel env = ([event i], Done tt env)) ->
  forall n i, iterations_suffice count i n ->
  run (for_each_index n i count call) fuel env
  = (map event (indices_from (Z.to_nat (count - i)) i), Done tt env).
Proof.
  intros Hcall. induction n as [|n IH]; intros i Hn; unfold iterations_suffice in Hn.
  - replace (Z.to_nat (count - i)) with O by lia. reflexivity.
  - cbn [for_each_index]. destruct (Z.ltb_spec i count) as [Hlt|Hge].
    + cbn [run]. rewrite Hcall. unfold then_run. cbn [fst snd].
      rewrite IH by (unfold iterations_suffice; lia).
      replace (Z.to_nat (count - i)) with (S (Z.to_nat (count - (i + 1)))) by lia.
      reflexivity.
    + replace (Z.to_nat (count - i)) with O by lia. reflexivity.
Qed.

Lemma in_indices_from (n : nat) :
  forall i j, In j (indices_from n i) <-> i <= j < i + Z.of_nat n.
Proof.
  induction n as [|n IH]; intros i j; cbn [indices_from In].
  - split; [contradiction | lia].
  - rewrite IH. lia.
Qed.

Lemma NoDup_indices_from (n : nat) : forall i, List.NoDup (indices_from n i).
Proof.
  induction n as [|n IH]; intros i; cbn [indices_from]; constructor.
  - rewrite in_indices_from. lia.
  - apply IH.
Qed.

(** X2: the cleanup joins every philosopher, then destroys every fork
    mutex, then the two other mutexes, then frees the two arrays.  For
    [philosopher_count] philosophers the trace is: one join for each
    position 0 .. count - 1, in order; one destroy for each fork mutex
    0 .. count - 1, in order; the destroy of [print_mutex] and of
    [data_mutex]; the two frees.  No position is joined or destroyed
    twice, the cleanup looks at nothing and always returns; a count of zero
    or less joins and destroys no fork at all. *)
Theorem cleanup_joins_then_destroys
  (sim : t_simulation) (fuel : nat) (env : list snapshot) :
  let positions := indices_from (Z.to_nat (philosopher_count sim)) 0 in
  run (cleanup_simulation_resources sim) fuel env =
    (map EvJoin positions
     ++ map (fun i => EvDestroy (fork_mutex i)) positions
     ++ [EvDestroy print_mutex; EvDestroy data_mutex;
         EvFree "philosophers"; EvFree "fork_mutexes"],
     Done tt env) /\
  (forall i, In i positions <-> 0 <= i < philosopher_count sim) /\
  List.NoDup positions /\
  (philosopher_count sim <= 0 -> positions = []).
Proof.
  intros positions. split; [|split; [|split]].
  - unfold cleanup_simulation_resources. cbn zeta. cbn [run].
    rewrite (run_for_each_index _ pthread_join EvJoin) by
      (try (intros i; reflexivity); unfold iterations_suffice; lia).
    unfold then_run at 1. cbn [fst snd].
    rewrite (run_for_each_index _ (fun i => pthread_mutex_destroy (fork_mutex i))
               (fun i => EvDestroy (fork_mutex i))) by
      (try (intros i; reflexivity); unfold iterations_suffice; lia).
    rewrite Z.sub_0_r. reflexivity.
  - intros i. subst positions. rewrite in_indices_from. lia.
  - apply NoDup_indices_from.
  - intros H. subst positions. replace (Z.to_nat (philosopher_count sim)) with O by lia.
    reflexivity.
Qed.

(** ** Commands that restore the state of an automaton *)

Lemma keeps_ret {Q R : Type} (delta : Q -> ev -> option Q) (q : Q) (r : R) :
  keeps delta q (Ret r).
Proof. intros fuel env. exists q. cbn. auto. Qed.

Lemma keeps_bind {Q A R : Type} (delta : Q -> ev -> option Q) (q : Q)
  (p : prog A) (k : A -> prog R) :
  keeps delta q p -> (forall a, keeps delta q (k a)) -> keeps delta q (Bind p k).
Proof.
  intros Hp Hk fuel env. cbn [run].
  eapply accepts_then; [apply Hp | | |]; cbn beta.
  - intros a rest q1 Hq1. rewrite (Hq1 eq_refl). apply Hk.
  - intros q1 _ H. discriminate H.
  - intros q1 _ H. discriminate H.
Qed.

Lemma keeps_iterate {Q : Type} (delta : Q -> ev -> option Q) (q : Q)
  (body : list snapshot -> list ev * outcome bool) :
  (forall env, accepts delta q (body env) (fun o q' => returned o = true -> q' = q)) ->
  forall n env,
    accepts delta q (iterate body n env) (fun o q' => returned o = true -> q' = q).
Proof.
  intros Hbody. induction n as [|n IH]; intros env; cbn [iterate].
  - exists q. cbn. split; [reflexivity | discriminate].
  - eapply accepts_then; [apply Hbody | | |]; cbn beta.
    + intros [|] rest q1 Hq1; rewrite (Hq1 eq_refl).
      * apply IH.
      * exists q. cbn. auto.
    + intros q1 _ H. discriminate H.
    + intros q1 _ H. discriminate H.
Qed.

Lemma keeps_loop {Q : Type} (delta : Q -> ev -> option Q) (q : Q) (body : prog bool) :
  keeps delta q body -> keeps delta q (Loop body).
Proof.
  intros Hbody fuel env. cbn [run]. apply keeps_iterate. intros env'. apply Hbody.
Qed.

Lemma scan_fixed {Q : Type} (delta : Q -> ev -> option Q) (q : Q)
  (phi : ev -> Prop) (tr : list ev) :
  (forall e, phi e -> delta q e = Some q) ->
  Forall phi tr -> scan delta q tr = Some q.
Proof.
  intros Hfix. induction 1 as [|e tr He _ IH]; [reflexivity|].
  cbn. rewrite (Hfix e He). exact IH.
Qed.

Lemma keeps_every {Q R : Type} (delta : Q -> ev -> option Q) (q : Q)
  (phi : ev -> Prop) (p : prog R) :
  (forall e, phi e -> delta q e = Some q) -> every phi p -> keeps delta q p.
Proof.
  intros Hfix Hp fuel env. exists q. split; [|auto].
  apply (scan_fixed delta q phi); [exact Hfix | apply every_run; exact Hp].
Qed.

Lemma scan_prefix {Q : Type} (delta : Q -> ev -> option Q) (q : Q) (tr k : list ev) :
  scan delta q (tr ++ k) <> None -> scan delta q tr <> None.
Proof.
  rewrite scan_app. destruct (scan delta q tr); [discriminate | auto].
Qed.

Lemma keeps_trace {Q R : Type} (delta : Q -> ev -> option Q) (q : Q)
  (p : prog R) (tr : list ev) :
  keeps delta q p -> is_trace p tr -> exists q', scan delta q tr = Some q'.
Proof.
  intros Hp (fuel & env & k & Hk).
  destruct (Hp fuel env) as (q' & Hscan & _). rewrite Hk in Hscan.
  destruct (scan delta q tr) as [q1|] eqn:H; [eauto|].
  exfalso. apply (scan_prefix delta q tr k); [rewrite Hscan; discriminate | exact H].
Qed.

(** ** The locking discipline of each thread *)

Lemma release_head (m : mutex) (held : list mutex) : release m (m :: held) = Some held.
Proof. cbn. destruct (decide (m = m)); [reflexivity | contradiction]. Qed.

Lemma release_pair (a b : mutex) (held : list mutex) :
  held = [b; a] \/ held = [a; b] ->
  exists held1, release a held = Some held1 /\ release b held1 = Some [].
Proof.
  intros [-> | ->].
  - change (release a [b; a])
      with (if decide (b = a) then Some [a] else option_map (cons b) (release a [a])).
    destruct (decide (b = a)) as [->|Hne].
    + exists [a]. split; [reflexivity | apply release_head].
    + rewrite release_head. exists [b]. split; [reflexivity | apply release_head].
  - rewrite release_head. exists [b]. split; [reflexivity | apply release_head].
Qed.

Lemma lock_free_fixed (held : list mutex) (e : ev) :
  holds data_mutex held = false -> lock_free_event e ->
  discipline_step held e = Some held.
Proof.
  intros Hfree He. destruct e; cbn in *; try contradiction; rewrite ?Hfree; reflexivity.
Qed.

Lemma wait_event_lock_free (e : ev) : wait_event e -> lock_free_event e.
Proof. destruct e; cbn; tauto. Qed.

Lemma philo_spend_time_disciplined (d : Z) (held : list mutex) :
  holds data_mutex held = false ->
  keeps discipline_step held (philo_spend_time d).
Proof.
  intros Hfree. apply (keeps_every _ _ lock_free_event).
  - intros e. apply lock_free_fixed. exact Hfree.
  - eapply every_weaken; [exact wait_event_lock_free | apply philo_spend_time_events].
Qed.

Lemma acquire_forks_disciplined (sim : t_simulation) (philo : Z)
  (fuel : nat) (env : list snapshot) :
  let l := fork_mutex (left_fork_index (philosopher_at sim philo)) in
  let r := fork_mutex (right_fork_index (philosopher_at sim philo)) in
  accepts discipline_step [] (run (acquire_forks sim philo) fuel env)
    (fun o held => returned o = true /\ (held = [r; l] \/ held = [l; r])).
Proof.
  intros l r. unfold acquire_forks. cbn zeta.
  destruct (acquire_forks_branch _);
    [exists [r; l] | exists [l; r] | exists [l; r]]; cbn; auto.
Qed.

Lemma philosopher_eat_disciplined (sim : t_simulation) (philo : Z) :
  keeps discipline_step [] (philosopher_eat sim philo).
Proof.
  intros fuel env. unfold philosopher_eat. cbn zeta.
  set (l := fork_mutex (left_fork_index (philosopher_at sim philo))).
  set (r := fork_mutex (right_fork_index (philosopher_at sim philo))).
  destruct (philosopher_count sim =? 1).
  - cbn [run].
    eapply accepts_then with (mid := fun o held => returned o = true /\ held = [l]).
    { exists [l]. cbn. auto. }
    2, 3: intros held [H _]; discriminate H.
    intros [] env1 held [_ ->].
    eapply accepts_then with (mid := fun o held => returned o = true /\ held = [l]).
    { exists [l]. cbn. auto. }
    2, 3: intros held [H _]; discriminate H.
    intros [] env2 held [_ ->].
    eapply accepts_then; [apply philo_spend_time_disciplined; reflexivity | | |];
      cbn beta.
    2, 3: intros held _ H; discriminate H.
    intros [] env3 held Hheld. rewrite (Hheld eq_refl).
    exists []. split; [|auto]. cbn [run pthread_mutex_unlock perform fst scan].
    unfold discipline_step. change (holds data_mutex [l]) with false. cbn [andb].
    rewrite release_head. reflexivity.
  - cbn [run].
    eapply accepts_then; [apply acquire_forks_disciplined | | |]; cbn beta.
    2, 3: intros held [H _]; discriminate H.
    intros [] env1 held [_ Hheld]. fold l r in Hheld.
    assert (Hfree : holds data_mutex held = false)
      by (destruct Hheld as [-> | ->]; reflexivity).
    eapply accepts_then with (mid := fun o h => returned o = true /\ h = held).
    { exists held. cbn -[holds]. rewrite Hfree. auto. }
    2, 3: intros h [H _]; discriminate H.
    intros [] env2 h [_ ->].
    eapply accepts_then with
      (mid := fun o h => returned o = true /\ h = data_mutex :: held).
    { exists (data_mutex :: held). cbn -[holds]. rewrite Hfree. auto. }
    2, 3: intros h [H _]; discriminate H.
    intros [] env3 h [_ ->].
    eapply accepts_then with (mid := fun o h => h = data_mutex :: held).
    { exists (data_mutex :: held). destruct env3; cbn; auto. }
    2, 3: intros h _ H; discriminate H.
    intros now env4 h ->.
    eapply accepts_then with (mid := fun o h => h = data_mutex :: held).
    { exists (data_mutex :: held). destruct env4; cbn; auto. }
    2, 3: intros h _ H; discriminate H.
    intros [] env5 h ->.
    eapply accepts_then with (mid := fun o h => h = data_mutex :: held).
    { exists (data_mutex :: held). destruct env5; cbn; auto. }
    2, 3: intros h _ H; discriminate H.
    intros [] env6 h ->.
    eapply accepts_then with (mid := fun o h => returned o = true /\ h = held).
    { exists held. cbn. auto. }
    2, 3: intros h [H _]; discriminate H.
    intros [] env7 h [_ ->].
    eapply accepts_then; [apply philo_spend_time_disciplined; exact Hfree | | |];
      cbn beta.
    2, 3: intros h _ H; discriminate H.
    intros [] env8 h Hh. rewrite (Hh eq_refl).
    destruct (release_pair l r held Hheld) as (held1 & Hl & Hr).
    assert (Hfree1 : holds data_mutex held1 = false).
    { destruct Hheld as [-> | ->].
      - change (release l [r; l])
          with (if decide (r = l) then Some [l]
                else option_map (cons r) (release l [l])) in Hl.
        rewrite release_head in Hl.
        destruct (decide (r = l)); injection Hl as <-; reflexivity.
      - rewrite release_head in Hl. injection Hl as <-. reflexivity. }
    exists []. split; [|auto]. unfold release_forks. cbn -[holds release]. fold l r.
    rewrite Hfree. cbn [andb]. rewrite Hl, Hfree1. cbn [andb]. rewrite Hr. reflexivity.
Qed.

Lemma lock_free_disciplined {R : Type} (p : prog R) :
  every lock_free_event p -> keeps discipline_step [] p.
Proof.
  apply keeps_every. intros e. apply lock_free_fixed. reflexivity.
Qed.

Lemma philosopher_lifecycle_disciplined (sim : t_simulation) (philo : Z) :
  keeps discipline_step [] (philosopher_lifecycle sim philo).
Proof.
  rewrite philosopher_lifecycle_unfold. unfold philosopher_lifecycle_body.
  repeat first
    [ apply keeps_ret
    | apply keeps_loop
    | apply keeps_bind; [|intros ?]
    | apply philosopher_eat_disciplined
    | apply philo_spend_time_disciplined; reflexivity
    | match goal with |- keeps _ _ (if ?b then _ else _) => destruct b end
    | apply lock_free_disciplined; repeat every_step ].
Qed.

Lemma evaluate_simulation_status_disciplined :
  keeps discipline_step [] evaluate_simulation_status.
Proof.
  intros fuel env. unfold accepts, evaluate_simulation_status, check_for_death.
  destruct env as [|s1 [|s2 env]]; cbn;
    try (eexists; split; [reflexivity | discriminate]).
  destruct (snd (check_for_death_at (snap_time s1) (snap_sim s2)) >? 0); cbn.
  - exists []. auto.
  - destruct env as [|s3 env]; cbn.
    + eexists; split; [reflexivity | discriminate].
    + exists []. auto.
Qed.

Lemma monitor_disciplined (sim : t_simulation) :
  keeps discipline_step [] (monitor_simulation_and_cleanup sim).
Proof.
  unfold monitor_simulation_and_cleanup, monitor_poll. cbn zeta.
  apply keeps_bind.
  - apply keeps_loop. apply keeps_bind; [apply evaluate_simulation_status_disciplined|].
    intros status. destruct (status =? TRUE); [apply keeps_ret|].
    apply lock_free_disciplined. repeat every_step.
  - intros _. apply lock_free_disciplined.
    unfold cleanup_simulation_resources. cbn zeta.
    repeat first [apply every_for_each_index; intros ? | every_step].
Qed.

Lemma thread_disciplined (sim : t_simulation) (t : nat) :
  keeps discipline_step [] (thread_code sim t).
Proof.
  destruct t as [|i]; [apply monitor_disciplined | apply philosopher_lifecycle_disciplined].
Qed.

(** ** What a thread holds *)

Lemma holds_In (m : mutex) (held : list mutex) : holds m held = true <-> In m held.
Proof.
  unfold holds. rewrite existsb_exists. split.
  - intros (m' & Hin & Heq). apply bool_decide_eq_true in Heq. subst. exact Hin.
  - intros Hin. exists m. split; [exact Hin | apply bool_decide_eq_true; reflexivity].
Qed.

Lemma holds_false (m : mutex) (held : list mutex) : holds m held = false <-> ~ In m held.
Proof.
  rewrite <- holds_In. destruct (holds m held); split; congruence.
Qed.

Lemma held_count_In (m : mutex) (held : list mutex) :
  (0 < held_count m held)%nat <-> In m held.
Proof.
  induction held as [|m' held IH]; cbn; [split; [lia | contradiction]|].
  destruct (decide (m' = m)); [split; [auto | lia]|].
  rewrite IH. split; [auto|]. intros [H|H]; [contradiction | exact H].
Qed.

Lemma release_count (m : mutex) (held held1 : list mutex) :
  release m held = Some held1 ->
  forall m', held_count m' held
             = (held_count m' held1 + if decide (m = m') then 1 else 0)%nat.
Proof.
  revert held1. induction held as [|m0 held IH]; intros held1 Hrel m'; [discriminate|].
  cbn [release] in Hrel. destruct (decide (m0 = m)) as [->|Hne].
  - injection Hrel as <-. cbn. destruct (decide (m = m')); lia.
  - destruct (release m held) as [h|] eqn:Hh; [|discriminate].
    injection Hrel as <-. cbn. rewrite (IH h eq_refl m').
    destruct (decide (m0 = m')), (decide (m = m')); lia.
Qed.

Lemma release_In (m : mutex) (held held1 : list mutex) :
  release m held = Some held1 ->
  In m held /\ forall m', In m' held1 -> In m' held.
Proof.
  intros Hrel. split.
  - apply held_count_In. rewrite (release_count _ _ _ Hrel m).
    destruct (decide (m = m)); [lia | contradiction].
  - intros m' Hin. apply held_count_In. apply held_count_In in Hin.
    rewrite (release_count _ _ _ Hrel m'). lia.
Qed.

Lemma NoDup_count (held : list mutex) :
  List.NoDup held <-> forall m, (held_count m held <= 1)%nat.
Proof.
  induction held as [|m0 held IH]; cbn.
  - split; [intros _ m; lia | intros _; constructor].
  - split.
    + intros Hnd m. inversion Hnd as [|? ? Hnotin Hnd']. subst.
      destruct (decide (m0 = m)) as [->|Hne].
      * assert (held_count m held = 0)%nat; [|lia].
        destruct (held_count m held) eqn:Hc; [reflexivity|].
        exfalso. apply Hnotin. apply held_count_In. lia.
      * apply IH. exact Hnd'.
    + intros Hc. constructor.
      * intros Hin. apply held_count_In in Hin. specialize (Hc m0).
        destruct (decide (m0 = m0)); [lia | contradiction].
      * apply IH. intros m. specialize (Hc m). destruct (decide (m0 = m)); lia.
Qed.

Lemma release_NoDup (m : mutex) (held held1 : list mutex) :
  release m held = Some held1 -> List.NoDup held ->
  List.NoDup held1 /\ ~ In m held1.
Proof.
  intros Hrel Hnd. rewrite NoDup_count in Hnd. split.
  - apply NoDup_count. intros m'. specialize (Hnd m').
    rewrite (release_count _ _ _ Hrel m') in Hnd. lia.
  - intros Hin. apply held_count_In in Hin. specialize (Hnd m).
    rewrite (release_count _ _ _ Hrel m) in Hnd.
    destruct (decide (m = m)); [lia | contradiction].
Qed.

(** What a step of the discipline does to the mutexes held. *)
Lemma discipline_step_inv (held held' : list mutex) (e : ev) :
  discipline_step held e = Some held' ->
  match e with
  | EvLock m => holds data_mutex held = false /\ held' = m :: held
  | EvUnlock m =>
      release m held = Some held' /\
      (holds data_mutex held = true -> m = data_mutex)
  | EvMem _ _ => holds data_mutex held = true /\ held' = held
  | EvTime _ => held' = held
  | _ => holds data_mutex held = false /\ held' = held
  end.
Proof.
  intros H. unfold discipline_step in H.
  destruct e; destruct (holds data_mutex held) eqn:Hd; cbn [andb] in H;
    try discriminate H; try (injection H as <-; auto; fail).
  - destruct (bool_decide (m = data_mutex)) eqn:Hm; cbn [negb] in H;
      [|discriminate H].
    apply bool_decide_eq_true in Hm. auto.
  - split; [exact H | discriminate].
Qed.

Lemma scan_discipline_counts (tr : list ev) :
  forall held held', scan discipline_step held tr = Some held' ->
  forall m, (held_count m held + lock_count m tr
             = held_count m held' + unlock_count m tr)%nat.
Proof.
  induction tr as [|e tr IH]; intros held held' Hscan m.
  - injection Hscan as <-. cbn. lia.
  - cbn [scan] in Hscan.
    destruct (discipline_step held e) as [held1|] eqn:Hstep; [|discriminate].
    specialize (IH held1 held' Hscan m).
    apply discipline_step_inv in Hstep.
    destruct e; cbn [lock_count unlock_count];
      try match type of Hstep with
          | _ /\ held1 = held => destruct Hstep as [_ Heq]; subst held1; exact IH
          | held1 = held => subst held1; exact IH
          end.
    + destruct Hstep as [_ Heq]. subst held1. cbn [held_count] in IH.
      destruct (decide (m0 = m)); lia.
    + destruct Hstep as [Hrel _]. rewrite (release_count _ _ _ Hrel m).
      destruct (decide (m0 = m)); lia.
Qed.




(** X3: a thread releases what it locks.  In any run of the monitor or of
    a philosopher, no mutex has been unlocked more often than locked; and
    when the thread has returned, every mutex has been unlocked exactly as
    often as it was locked: the thread exits holding nothing. *)
Theorem threads_release_what_they_lock
  (sim : t_simulation) (t : nat) (fuel : nat) (env : list snapshot) (m : mutex) :
  let r := run (thread_code sim t) fuel env in
  (forall tr, tr `prefix_of` fst r ->
     (unlock_count m tr <= lock_count m tr)%nat) /\
  (returned (snd r) = true -> lock_count m (fst r) = unlock_count m (fst r)).
Proof.
  intros r. split.
  - intros tr Hpre.
    destruct (keeps_trace _ _ _ tr (thread_disciplined sim t)) as [held Hscan].
    { exists fuel, env. exact Hpre. }
    pose proof (scan_discipline_counts _ _ _ Hscan m) as H. cbn in H. lia.
  - intros Hret. destruct (thread_disciplined sim t fuel env) as (held & Hscan & Hpost).
    fold r in Hscan, Hpost. rewrite (Hpost Hret) in Hscan.
    pose proof (scan_discipline_counts _ _ _ Hscan m) as H. cbn in H. lia.
Qed.


(** ** What a thread holds is what it owns *)

Lemma events_of_app (t : nat) (h1 h2 : list (nat * ev)) :
  events_of t (h1 ++ h2) = events_of t h1 ++ events_of t h2.
Proof.
  induction h1 as [|[t' e] h1 IH]; [reflexivity|].
  cbn. destruct (Nat.eqb t' t); [cbn; f_equal|]; exact IH.
Qed.

Lemma effect_history (sim : t_simulation) (t : nat) (w w' : world) (e : ev) :
  effect sim t w e w' -> history w' = history w.
Proof. destruct 1; reflexivity. Qed.

Lemma effect_owner (sim : t_simulation) (t : nat) (w w' : world) (e : ev) :
  effect sim t w e w' ->
  match e with
  | EvLock m =>
      owner w m = None /\ owner w' m = Some t /\
      forall m', m' <> m -> owner w' m' = owner w m'
  | EvUnlock m =>
      owner w m = Some t /\ owner w' m = None /\
      forall m', m' <> m -> owner w' m' = owner w m'
  | _ => owner w' = owner w
  end.
Proof.
  destruct 1; try reflexivity; cbn.
  - repeat split; [assumption | destruct (decide (m = m)); [reflexivity|contradiction] |].
    intros m' Hne. destruct (decide (m' = m)); [contradiction | reflexivity].
  - repeat split; [assumption | destruct (decide (m = m)); [reflexivity|contradiction] |].
    intros m' Hne. destruct (decide (m' = m)); [contradiction | reflexivity].
Qed.

Lemma gstep_owned_as_held (sim : t_simulation) (w w' : world) :
  gstep sim w w' -> owned_as_held w -> owned_as_held w'.
Proof.
  intros Hstep Hinv.
  destruct Hstep as [t' e w w1 _ _ Heff | d w Hd]; [|exact Hinv].
  intros t held Hscan. cbn [record history owner] in *.
  rewrite (effect_history _ _ _ _ _ Heff), events_of_app in Hscan.
  pose proof (effect_owner _ _ _ _ _ Heff) as Hown.
  cbn [events_of] in Hscan. destruct (Nat.eqb_spec t' t) as [->|Hne].
  - rewrite scan_app in Hscan.
    destruct (scan discipline_step [] (events_of t (history w))) as [held0|] eqn:H0;
      [|discriminate].
    destruct (Hinv t held0 H0) as [Hnd Howned].
    cbn [scan] in Hscan.
    destruct (discipline_step held0 e) as [held1|] eqn:Hstep; [|discriminate].
    injection Hscan as <-. apply discipline_step_inv in Hstep.
    destruct e;
      try match type of Hstep with
          | _ /\ held1 = held0 =>
              destruct Hstep as [_ Heq]; subst held1; rewrite Hown; auto
          | held1 = held0 => subst held1; rewrite Hown; auto
          end.
    + destruct Hstep as [_ Heq]. subst held1.
      destruct Hown as (Hfree & Hnew & Hother).
      assert (Hnotin : ~ In m held0).
      { intros Hin. rewrite (Howned m Hin) in Hfree. discriminate. }
      split; [constructor; assumption|].
      intros m' [<- | Hin]; [exact Hnew|].
      rewrite Hother; [apply Howned; exact Hin|]. intros ->. contradiction.
    + destruct Hstep as [Hrel _]. destruct Hown as (_ & _ & Hother).
      destruct (release_NoDup _ _ _ Hrel Hnd) as [Hnd1 Hnotin].
      split; [exact Hnd1|]. intros m' Hin.
      rewrite Hother; [|intros ->; contradiction].
      apply Howned. exact (proj2 (release_In _ _ _ Hrel) m' Hin).
  - rewrite app_nil_r in Hscan. destruct (Hinv t held Hscan) as [Hnd Howned].
    split; [exact Hnd|]. intros m Hin. specialize (Howned m Hin).
    destruct e; try (rewrite Hown; exact Howned).
    + destruct Hown as (Hfree & _ & Hother).
      rewrite Hother; [exact Howned|]. intros ->. congruence.
    + destruct Hown as (Hmine & _ & Hother).
      rewrite Hother; [exact Howned|]. intros ->. congruence.
Qed.

Lemma reachable_owned_as_held (sim : t_simulation) (w : world) :
  reachable sim w -> owned_as_held w.
Proof.
  intros [t0 Hrun].
  assert (Hstart : owned_as_held (start sim t0)).
  { intros t held Hscan. cbn in Hscan. injection Hscan as <-.
    split; [constructor | intros m []]. }
  revert Hstart. induction Hrun as [|w0 w1 w2 Hstep _ IH]; intros Hstart;
    [exact Hstart|].
  apply IH. exact (gstep_owned_as_held _ _ _ Hstep Hstart).
Qed.




(** ** The monitor cleans up only after raising the flag *)

Lemma check_for_death_at_found (current_time : Z) (s : t_simulation) :
  (snd (check_for_death_at current_time s) >? 0) = true ->
  simulation_ended (fst (check_for_death_at current_time s)) = TRUE.
Proof.
  destruct (check_for_death_at_spec current_time s)
    as [(j & _ & _ & _ & Hr)|[_ Hr]]; rewrite Hr; cbn [fst snd].
  - reflexivity.
  - discriminate.
Qed.

Lemma check_for_death_at_not_found (current_time : Z) (s : t_simulation) :
  (snd (check_for_death_at current_time s) >? 0) = false ->
  fst (check_for_death_at current_time s) = s.
Proof.
  destruct (check_for_death_at_spec current_time s)
    as [(j & Hj & _ & _ & Hr)|[_ Hr]]; rewrite Hr; cbn [fst snd].
  - intros H. destruct (Z.gtb_spec (j + 1) 0); [discriminate | lia].
  - reflexivity.
Qed.

Lemma check_all_philosophers_satisfied_answer (s : t_simulation) :
  (snd (check_all_philosophers_satisfied s) = TRUE /\
   fst (check_all_philosophers_satisfied s) = set_simulation_ended TRUE s) \/
  (snd (check_all_philosophers_satisfied s) = FALSE /\
   fst (check_all_philosophers_satisfied s) = s).
Proof.
  unfold check_all_philosophers_satisfied.
  destruct (required_meals s =? -1); [right; auto|].
  destruct (_ >=? _); [left | right]; auto.
Qed.

Lemma evaluate_simulation_status_raises (raised : bool) (fuel : nat) (env : list snapshot) :
  accepts raised_step raised (run evaluate_simulation_status fuel env)
    (fun o raised' =>
       forall status rest, o = Done status rest ->
                           (status =? TRUE) = true -> raised' = true).
Proof.
  unfold accepts, evaluate_simulation_status, check_for_death.
  destruct env as [|s1 [|s2 env]]; cbn;
    try (eexists; split; [reflexivity | discriminate]).
  destruct (snd (check_for_death_at (snap_time s1) (snap_sim s2)) >? 0) eqn:Hdead; cbn.
  - eexists. split; [reflexivity|]. intros status rest _ _.
    rewrite (check_for_death_at_found _ _ Hdead). reflexivity.
  - destruct env as [|s3 env]; cbn.
    + eexists; split; [reflexivity | discriminate].
    + eexists. split; [reflexivity|]. intros status rest [= <- _] Hstatus.
      apply Z.eqb_eq in Hstatus.
      destruct (check_all_philosophers_satisfied_answer (snap_sim s3))
        as [[_ ->] | [Hno _]]; [reflexivity|].
      rewrite Hno in Hstatus. discriminate.
Qed.

Lemma monitor_poll_raises (sim : t_simulation) (fuel : nat) :
  forall n raised env,
  accepts raised_step raised
    (iterate
       (run (status ← evaluate_simulation_status ;
             if status =? TRUE then Ret false
             else usleep (check_interval sim) ;; Ret true) fuel) n env)
    (fun o raised' => returned o = true -> raised' = true).
Proof.
  induction n as [|n IH]; intros raised env; cbn [iterate].
  - exists raised. cbn. split; [reflexivity | discriminate].
  - eapply accepts_then with
      (mid := fun o raised' =>
                forall rest, o = Done false rest -> raised' = true).
    + cbn [run].
      eapply accepts_then; [apply evaluate_simulation_status_raises | | |]; cbn beta.
      * intros status rest raised1 Hraised1.
        destruct (status =? TRUE) eqn:Hstatus.
        -- exists raised1. cbn. split; [reflexivity|]. intros rest' _.
           exact (Hraised1 status rest eq_refl Hstatus).
        -- exists raised1. cbn. split; [reflexivity|]. intros rest' H.
           discriminate H.
      * intros raised1 _ rest H. discriminate H.
      * intros raised1 _ rest H. discriminate H.
    + intros [|] rest raised1 Hmid.
      * apply IH.
      * exists raised1. cbn. split; [reflexivity|]. intros _.
        exact (Hmid rest eq_refl).
    + intros raised1 _ H. discriminate H.
    + intros raised1 _ H. discriminate H.
Qed.

Lemma cleanup_events (sim : t_simulation) :
  every cleanup_event (cleanup_simulation_resources sim).
Proof.
  unfold cleanup_simulation_resources. cbn zeta.
  repeat first [apply every_for_each_index; intros ? | every_step].
Qed.

Lemma monitor_raises_then_cleans (sim : t_simulation) (fuel : nat) (env : list snapshot) :
  exists raised,
    scan raised_step false (fst (run (monitor_simulation_and_cleanup sim) fuel env))
    = Some raised.
Proof.
  assert (H : accepts raised_step false
                (run (monitor_simulation_and_cleanup sim) fuel env)
                (fun _ _ => True)).
  { unfold monitor_simulation_and_cleanup, monitor_poll. cbn zeta. cbn [run].
    eapply accepts_then; [apply monitor_poll_raises | | auto | auto]. cbn beta.
    intros [] rest raised Hraised. rewrite (Hraised eq_refl).
    exists true. split; [|exact I].
    apply (scan_fixed raised_step true cleanup_event).
    - intros e He. destruct e; cbn in *; tauto.
    - apply every_run. apply cleanup_events. }
  destruct H as (raised & Hscan & _). eauto.
Qed.

Lemma scan_raised (tr : list ev) :
  forall raised, scan raised_step raised tr = Some true ->
  (raised = true /\ Forall (fun e => ~ is_mem e) tr) \/
  (exists pre s s' post,
     tr = pre ++ EvMem s s' :: post /\ simulation_ended s' = TRUE /\
     Forall (fun e => ~ is_mem e) post).
Proof.
  induction tr as [|e tr IH]; intros raised Hscan.
  - injection Hscan as ->. left. split; [reflexivity | constructor].
  - cbn [scan] in Hscan.
    destruct (raised_step raised e) as [raised1|] eqn:Hstep; [|discriminate].
    destruct (IH raised1 Hscan)
      as [[-> Hquiet] | (pre & s & s' & post & -> & Hs' & Hquiet)].
    2: { right. exists (e :: pre), s, s', post. auto. }
    destruct e; cbn in Hstep;
      try (injection Hstep as ->; left; split; [reflexivity|];
           constructor; [cbn; tauto | exact Hquiet]);
      try (destruct raised; [|discriminate]; left; split; [reflexivity|];
           constructor; [cbn; tauto | exact Hquiet]).
    injection Hstep as Hstep. apply Z.eqb_eq in Hstep.
    right. exists [], before, after, tr. auto.
Qed.

(** X6: the monitor cleans up only after raising the flag.  In any run of
    the monitor, every event of the cleanup (a join, the destroy of a
    mutex, a free) comes after an access that left the termination flag
    at [TRUE], with no access in between: the philosophers are joined only
    once they have been told to stop. *)
Theorem monitor_cleans_up_after_raising_flag
  (sim : t_simulation) (fuel : nat) (env : list snapshot)
  (tr1 tr2 : list ev) (e : ev) :
  fst (run (monitor_simulation_and_cleanup sim) fuel env) = tr1 ++ e :: tr2 ->
  cleanup_event e ->
  exists pre s s' post,
    tr1 = pre ++ EvMem s s' :: post /\ simulation_ended s' = TRUE /\
    Forall (fun e' => ~ is_mem e') post.
Proof.
  intros Htr He.
  destruct (monitor_raises_then_cleans sim fuel env) as [raised Hscan].
  rewrite Htr, scan_app in Hscan.
  destruct (scan raised_step false tr1) as [raised1|] eqn:H1; [|discriminate].
  assert (raised1 = true) as ->.
  { destruct raised1; [reflexivity|]. destruct e; cbn in He, Hscan; try contradiction;
      discriminate. }
  destruct (scan_raised _ _ H1) as [[Hbad _] | H]; [discriminate | exact H].
Qed.

Lemma monitor_cleans_up_after_raising_flag_witness :
  exists pre s s' post,
    firstn 5 (fst (run (monitor_simulation_and_cleanup lone_hungry) 1
                     [mk_snapshot 1000 lone_hungry; mk_snapshot 1000 lone_hungry]))
    = pre ++ EvMem s s' :: post /\
    simulation_ended s' = TRUE /\ Forall (fun e' => ~ is_mem e') post.
Proof.
  apply (monitor_cleans_up_after_raising_flag lone_hungry 1
           [mk_snapshot 1000 lone_hungry; mk_snapshot 1000 lone_hungry]
           (firstn 5 (fst (run (monitor_simulation_and_cleanup lone_hungry) 1
                             [mk_snapshot 1000 lone_hungry; mk_snapshot 1000 lone_hungry])))
           (skipn 6 (fst (run (monitor_simulation_and_cleanup lone_hungry) 1
                            [mk_snapshot 1000 lone_hungry; mk_snapshot 1000 lone_hungry])))
           (EvJoin 0)).
  - vm_compute. reflexivity.
  - exact I.
Defined.

(** ** The order of the phases *)

Lemma quiet_phase_fixed (lone : bool) (q : phase) (e : ev) :
  quiet_event e -> phase_step lone q e = Some q.
Proof. destruct e; cbn; try reflexivity. intros ->. reflexivity. Qed.

Lemma quiet_keeps_phase {R : Type} (lone : bool) (q : phase) (p : prog R) :
  every quiet_event p -> keeps (phase_step lone) q p.
Proof. apply keeps_every. intros e. apply quiet_phase_fixed. Qed.

Lemma acquire_forks_quiet (sim : t_simulation) (philo : Z) :
  every quiet_event (acquire_forks sim philo).
Proof. repeat every_step. Qed.

Lemma philosopher_eat_phase (sim : t_simulation) (philo : Z)
  (fuel : nat) (env : list snapshot) :
  let lone := philosopher_count sim =? 1 in
  accepts (phase_step lone) (first_phase lone)
    (run (philosopher_eat sim philo) fuel env)
    (fun o q => returned o = true -> q = Sleeping).
Proof.
  intros lone. subst lone. unfold philosopher_eat. cbn zeta.
  destruct (philosopher_count sim =? 1).
  - apply (quiet_keeps_phase true Sleeping).
    repeat first [apply philo_spend_time_quiet | every_step].
  - cbn [run first_phase].
    eapply accepts_then; [apply (quiet_keeps_phase false Eating), acquire_forks_quiet | | |];
      cbn beta.
    2, 3: intros q _ H; discriminate H.
    intros [] env1 q Hq. rewrite (Hq eq_refl).
    eapply accepts_then with (mid := fun o q => q = Sleeping).
    { exists Sleeping. cbn. auto. }
    2, 3: intros q' _ H; discriminate H.
    intros [] env2 q' ->.
    change (accepts (phase_step false) Sleeping
              (run (pthread_mutex_lock data_mutex ;;
                    now ← get_current_time_ms ;
                    store (set_last_meal_time philo now) ;;
                    store (incr_meals_eaten philo) ;;
                    pthread_mutex_unlock data_mutex ;;
                    philo_spend_time (time_to_eat sim) ;;
                    release_forks sim philo) fuel env2)
              (fun o q => returned o = true -> q = Sleeping)).
    apply (quiet_keeps_phase false Sleeping).
    repeat first [apply philo_spend_time_quiet | apply every_access; intros ?; exact I
                 | every_step].
Qed.

Lemma philosopher_lifecycle_body_phase (sim : t_simulation) (philo : Z)
  (fuel : nat) (env : list snapshot) :
  let lone := philosopher_count sim =? 1 in
  accepts (phase_step lone) (first_phase lone)
    (run (philosopher_lifecycle_body sim philo) fuel env)
    (fun o q => forall rest, o = Done true rest -> q = first_phase lone).
Proof.
  intros lone. unfold philosopher_lifecycle_body. cbn [run].
  eapply accepts_then with (mid := fun o q => q = first_phase lone).
  { exists (first_phase lone). destruct env; cbn; auto. }
  2, 3: intros q _ rest H; discriminate H.
  intros v1 env1 q ->.
  destruct (c_true v1).
  { exists (first_phase lone). cbn. split; [reflexivity|]. intros rest H. discriminate H. }
  cbn [run].
  eapply accepts_then; [apply philosopher_eat_phase | | |]; cbn beta.
  2, 3: intros q _ rest H; discriminate H.
  intros [] env2 q Hq. rewrite (Hq eq_refl).
  eapply accepts_then with (mid := fun o q => q = Sleeping).
  { exists Sleeping. destruct env2; cbn; auto. }
  2, 3: intros q' _ rest H; discriminate H.
  intros v2 env3 q' ->.
  destruct (c_true v2).
  { exists Sleeping. cbn. split; [reflexivity|]. intros rest H. discriminate H. }
  cbn [run].
  eapply accepts_then with (mid := fun o q => q = Thinking).
  { exists Thinking. cbn. auto. }
  2, 3: intros q' _ rest H; discriminate H.
  intros [] env4 q' ->.
  eapply accepts_then;
    [apply (quiet_keeps_phase lone Thinking), philo_spend_time_quiet | | |]; cbn beta.
  2, 3: intros q' _ rest H; discriminate H.
  intros [] env5 q' Hq'. rewrite (Hq' eq_refl).
  eapply accepts_then with (mid := fun o q => q = Thinking).
  { exists Thinking. destruct env5; cbn; auto. }
  2, 3: intros q'' _ rest H; discriminate H.
  intros v3 env6 q'' ->.
  destruct (c_true v3).
  { exists Thinking. cbn. split; [reflexivity|]. intros rest H. discriminate H. }
  cbn [run].
  eapply accepts_then with (mid := fun o q => q = first_phase lone).
  { exists (first_phase lone). cbn. split; [|reflexivity].
    unfold first_phase. destruct lone; reflexivity. }
  2, 3: intros q'' _ rest H; discriminate H.
  intros [] env7 q'' ->.
  exists (first_phase lone).
  destruct (Z.rem (philosopher_count sim) 2 =? 1); cbn; auto.
Qed.

Lemma philosopher_lifecycle_phase (sim : t_simulation) (philo : Z)
  (fuel : nat) (env : list snapshot) :
  let lone := philosopher_count sim =? 1 in
  exists q, scan (phase_step lone) (first_phase lone)
              (fst (run (philosopher_lifecycle sim philo) fuel env)) = Some q.
Proof.
  intros lone.
  assert (H : accepts (phase_step lone) (first_phase lone)
                (run (philosopher_lifecycle sim philo) fuel env) (fun _ _ => True)).
  { rewrite philosopher_lifecycle_unfold. cbn [run].
    eapply accepts_then;
      [apply (quiet_keeps_phase lone (first_phase lone)); repeat every_step
      | | auto | auto].
    cbn beta. intros [] rest q Hq. rewrite (Hq eq_refl). clear Hq. revert rest.
    induction fuel as [|n IH] at 2; intros rest; cbn [iterate].
    - eexists. cbn. eauto.
    - eapply accepts_then; [apply philosopher_lifecycle_body_phase | | auto | auto].
      cbn beta. intros [|] rest' q' Hq'.
      + rewrite (Hq' rest' eq_refl). apply IH.
      + exists q'. cbn. auto. }
  destruct H as (q & Hscan & _). eauto.
Qed.

Lemma scan_phase_in_cycle (lone : bool) (tr : list ev) :
  forall q q', scan (phase_step lone) q tr = Some q' ->
  in_cycle lone q (phases_of tr).
Proof.
  induction tr as [|e tr IH]; intros q q' Hscan; [exact I|].
  cbn [scan] in Hscan.
  destruct (phase_step lone q e) as [q1|] eqn:Hstep; [|discriminate].
  destruct e; cbn in Hstep; try (injection Hstep as <-; exact (IH _ _ Hscan)).
  cbn [phases_of]. destruct (is_phase_message msg).
  - destruct (String.eqb_spec msg (message_of q)) as [->|]; [|discriminate].
    injection Hstep as <-. split; [reflexivity | exact (IH _ _ Hscan)].
  - injection Hstep as <-. exact (IH _ _ Hscan).
Qed.

(** X7: the phases are reported in the order of the cycle.  In any run of
    a philosopher among two or more, the phase messages are, in order,
    "is eating", "is sleeping", "is thinking", "is eating", and so on,
    starting with "is eating"; a lone philosopher, whose eat phase reports
    no eating, alternates "is sleeping" and "is thinking", starting with
    "is sleeping". *)
Theorem phases_follow_the_cycle
  (sim : t_simulation) (philo : Z) (fuel : nat) (env : list snapshot) :
  let lone := philosopher_count sim =? 1 in
  in_cycle lone (first_phase lone)
    (phases_of (fst (run (philosopher_lifecycle sim philo) fuel env))).
Proof.
  intros lone.
  destruct (philosopher_lifecycle_phase sim philo fuel env) as [q Hscan].
  exact (scan_phase_in_cycle _ _ _ _ Hscan).
Qed.

(** ** What the threads write *)

Lemma map_alter_fixed {A B : Type} (f : A -> B) (g : A -> A) (l : list A) :
  (forall x, f (g x) = f x) -> forall n, map f (alter g n l) = map f l.
Proof.
  intros H. induction l as [|x l IH]; intros [|n]; cbn; try reflexivity.
  - rewrite H. reflexivity.
  - f_equal. apply IH.
Qed.

Lemma set_last_meal_time_static (philo t : Z) (s : t_simulation) :
  static_of (set_last_meal_time philo t s) = static_of s.
Proof.
  unfold static_of, set_last_meal_time. cbn.
  rewrite map_alter_fixed by reflexivity. reflexivity.
Qed.

Lemma incr_meals_eaten_static (philo : Z) (s : t_simulation) :
  static_of (incr_meals_eaten philo s) = static_of s.
Proof.
  unfold static_of, incr_meals_eaten. cbn.
  rewrite map_alter_fixed by reflexivity. reflexivity.
Qed.

Lemma meals_grow_refl (s : t_simulation) : meals_grow s s.
Proof. intros n p Hp. exists p. split; [exact Hp | lia]. Qed.

Lemma meals_grow_trans (s1 s2 s3 : t_simulation) :
  meals_grow s1 s2 -> meals_grow s2 s3 -> meals_grow s1 s3.
Proof.
  intros H12 H23 n p Hp. destruct (H12 n p Hp) as (p2 & Hp2 & Hle2).
  destruct (H23 n p2 Hp2) as (p3 & Hp3 & Hle3). exists p3. split; [exact Hp3 | lia].
Qed.

Lemma alter_meals_grow (g : t_philosopher -> t_philosopher) (i : nat)
  (s : t_simulation) :
  (forall p, meals_eaten p <= meals_eaten (g p)) ->
  meals_grow s (set_philosophers (alter g i (philosophers s)) s).
Proof.
  intros Hg n p Hp. cbn. destruct (decide (i = n)) as [->|Hne].
  - rewrite list_lookup_alter_eq, Hp. cbn. eauto.
  - rewrite list_lookup_alter_ne by exact Hne. exists p. split; [exact Hp | lia].
Qed.

Lemma meal_event_effect (philo : Z) (s s' : t_simulation) :
  meal_event philo (EvMem s s') ->
  static_of s' = static_of s /\ meals_grow s s' /\
  simulation_ended s' = simulation_ended s /\
  forall n, n <> Z.to_nat philo -> philosophers s' !! n = philosophers s !! n.
Proof.
  intros [[t ->] | ->].
  - split; [apply set_last_meal_time_static|]. split; [|split; [reflexivity|]].
    + apply alter_meals_grow. intros p. cbn. lia.
    + intros n Hne. cbn. apply list_lookup_alter_ne. congruence.
  - split; [apply incr_meals_eaten_static|]. split; [|split; [reflexivity|]].
    + apply alter_meals_grow. intros p. cbn. lia.
    + intros n Hne. cbn. apply list_lookup_alter_ne. congruence.
Qed.

Lemma philosopher_lifecycle_meal_events (sim : t_simulation) (philo : Z) :
  every (meal_event philo) (philosopher_lifecycle sim philo).
Proof.
  repeat every_step; apply every_access; intros s; cbn; eauto.
Qed.

(** What a step of the system does to the shared structure: nothing, or
    the monitor raises the flag, or a philosopher updates its meal. *)
Lemma gstep_mem (sim : t_simulation) (w w' : world) :
  gstep sim w w' ->
  mem w' = mem w \/
  mem w' = set_simulation_ended TRUE (mem w) \/
  exists i e, history w' = history w ++ [(S i, e)] /\
              meal_event (Z.of_nat i) (EvMem (mem w) (mem w')).
Proof.
  destruct 1 as [t e w w' Ht Htr Heff | d w Hd]; [|left; reflexivity].
  cbn [record mem history].
  destruct (effect_mem_inv _ _ _ _ _ Heff) as [-> | ->]; [left; reflexivity|].
  rewrite (effect_history _ _ _ _ _ Heff).
  destruct t as [|i].
  - pose proof (is_trace_last _ _ _ _ (monitor_frame_events sim) Htr) as H.
    cbn in H. destruct H as [-> | ->]; auto.
  - right. right. exists i. eexists. split; [reflexivity|].
    exact (is_trace_last _ _ _ _ (philosopher_lifecycle_meal_events sim _) Htr).
Qed.

Lemma gstep_static (sim : t_simulation) (w w' : world) :
  gstep sim w w' ->
  static_of (mem w') = static_of (mem w) /\ meals_grow (mem w) (mem w').
Proof.
  intros Hstep. destruct (gstep_mem _ _ _ Hstep) as [-> | [-> | (i & e & _ & He)]].
  - split; [reflexivity | apply meals_grow_refl].
  - split; [reflexivity | exact (meals_grow_refl (mem w))].
  - destruct (meal_event_effect _ _ _ He) as (Hs & Hg & _). auto.
Qed.

(** X8: what is set up once stays as it is, and meal counts only grow.  In
    every reachable state the configuration ([philosopher_count], the
    three durations, [required_meals]) is that of the start.  In every
    reachable state in which the cleanup has not freed the array of
    philosophers, every philosopher's id and fork indices are those of the
    start, the array has the length it started with, every record of the
    start is still there, and no [meals_eaten] is below its value at the
    start. *)
Theorem configuration_never_changes (sim : t_simulation) (w : world) :
  reachable sim w ->
  configuration (mem w) = configuration sim /\
  (array_freed (history w) = false ->
   static_of (mem w) = static_of sim /\
   length (philosophers (mem w)) = length (philosophers sim) /\
   meals_grow sim (mem w)).
Proof.
  intros [t0 Hrun].
  assert (H : static_of (mem w) = static_of sim /\ meals_grow sim (mem w)).
  { assert (Hstart : static_of (mem (start sim t0)) = static_of sim /\
                     meals_grow sim (mem (start sim t0)))
      by (split; [reflexivity | apply meals_grow_refl]).
    revert Hstart. induction Hrun as [|w0 w1 w2 Hstep _ IH]; intros Hstart;
      [exact Hstart|].
    apply IH. destruct Hstart as [Hs Hg].
    destruct (gstep_static _ _ _ Hstep) as [Hs1 Hg1].
    split; [congruence | exact (meals_grow_trans _ _ _ Hg Hg1)]. }
  destruct H as [Hs Hg]. split.
  - unfold static_of in Hs. unfold configuration. congruence.
  - intros _. split; [exact Hs|]. split; [|exact Hg].
    unfold static_of in Hs. injection Hs as _ _ _ _ _ Hmap.
    apply (f_equal (@length _)) in Hmap. rewrite !length_map in Hmap. exact Hmap.
Qed.

Lemma configuration_never_changes_witness :
  configuration (mem flag_raised) = configuration lone_hungry /\
  static_of (mem flag_raised) = static_of lone_hungry /\
  length (philosophers (mem flag_raised)) = length (philosophers lone_hungry) /\
  meals_grow lone_hungry (mem flag_raised).
Proof.
  exact (conj
           (proj1 (configuration_never_changes lone_hungry flag_raised
                     flag_raised_reachable))
           (proj2 (configuration_never_changes lone_hungry flag_raised
                     flag_raised_reachable) eq_refl)).
Defined.

(** X9: a record is written by its own philosopher only.  Whenever a step
    of the system changes the record at position [n] of the array, the step
    is an event of thread [n + 1], the philosopher at that position; the
    monitor and the other philosophers leave it as it is. *)
Theorem record_written_by_its_philosopher
  (sim : t_simulation) (w w' : world) (n : nat) :
  gstep sim w w' ->
  philosophers (mem w') !! n <> philosophers (mem w) !! n ->
  exists e, history w' = history w ++ [(S n, e)].
Proof.
  intros Hstep Hchange.
  destruct (gstep_mem _ _ _ Hstep) as [Heq | [Heq | (i & e & Hh & He)]].
  - rewrite Heq in Hchange. contradiction.
  - rewrite Heq in Hchange. contradiction.
  - destruct (meal_event_effect _ _ _ He) as (_ & _ & _ & Hother).
    destruct (decide (n = i)) as [->|Hne]; [eauto|].
    exfalso. apply Hchange. apply Hother. lia.
Qed.

Lemma record_written_by_its_philosopher_witness :
  exists e,
    history (record 1 (EvMem two_philosophers (set_last_meal_time 0 10 two_philosophers))
               (set_mem (set_last_meal_time 0 10 two_philosophers) about_to_stamp))
    = history about_to_stamp ++ [(1%nat, e)].
Proof.
  refine (record_written_by_its_philosopher two_philosophers about_to_stamp _ 0 _ _).
  - apply (gstep_thread two_philosophers 1
             (EvMem two_philosophers (set_last_meal_time 0 10 two_philosophers))
             about_to_stamp); [cbn; lia | |].
    + exists 3%nat, flag_raised_while_eating. eexists. vm_compute. reflexivity.
    + exact (effect_mem two_philosophers 1 about_to_stamp
               (set_last_meal_time 0 10 two_philosophers)).
  - vm_compute. discriminate.
Defined.

(** ** Eating with both forks *)

Lemma holds_pair (l r : mutex) (held : list mutex) :
  held = [r; l] \/ held = [l; r] ->
  holds l held = true /\ holds r held = true.
Proof.
  intros [-> | ->]; split; apply holds_In; cbn; auto.
Qed.

Lemma wait_event_at_table (l r : mutex) (held : list mutex) (e : ev) :
  holds data_mutex held = false -> wait_event e -> table_step l r held e = Some held.
Proof.
  intros Hfree He. destruct e; cbn in *; try contradiction; rewrite ?Hfree; reflexivity.
Qed.

Lemma philo_spend_time_at_table (l r : mutex) (d : Z) (held : list mutex) :
  holds data_mutex held = false ->
  keeps (table_step l r) held (philo_spend_time d).
Proof.
  intros Hfree. apply (keeps_every _ _ wait_event).
  - intros e. apply wait_event_at_table. exact Hfree.
  - apply philo_spend_time_events.
Qed.

Lemma acquire_forks_at_table (sim : t_simulation) (philo : Z)
  (fuel : nat) (env : list snapshot) :
  let l := left_fork sim philo in
  let r := right_fork sim philo in
  accepts (table_step l r) [] (run (acquire_forks sim philo) fuel env)
    (fun o held => returned o = true /\ (held = [r; l] \/ held = [l; r])).
Proof.
  intros l r. subst l r. unfold left_fork, right_fork, acquire_forks. cbn zeta.
  set (l := fork_mutex (left_fork_index (philosopher_at sim philo))).
  set (r := fork_mutex (right_fork_index (philosopher_at sim philo))).
  destruct (acquire_forks_branch _);
    [exists [r; l] | exists [l; r] | exists [l; r]]; cbn; auto.
Qed.

Lemma philosopher_eat_at_table (sim : t_simulation) (philo : Z) :
  keeps (table_step (left_fork sim philo) (right_fork sim philo)) []
    (philosopher_eat sim philo).
Proof.
  intros fuel env. unfold philosopher_eat. cbn zeta.
  fold (left_fork sim philo) (right_fork sim philo).
  set (l := left_fork sim philo). set (r := right_fork sim philo).
  destruct (philosopher_count sim =? 1).
  - cbn [run].
    eapply accepts_then with (mid := fun o held => returned o = true /\ held = [l]).
    { exists [l]. cbn. auto. }
    2, 3: intros held [H _]; discriminate H.
    intros [] env1 held [_ ->].
    eapply accepts_then with (mid := fun o held => returned o = true /\ held = [l]).
    { exists [l]. cbn. auto. }
    2, 3: intros held [H _]; discriminate H.
    intros [] env2 held [_ ->].
    eapply accepts_then; [apply philo_spend_time_at_table; reflexivity | | |];
      cbn beta.
    2, 3: intros held _ H; discriminate H.
    intros [] env3 held Hheld. rewrite (Hheld eq_refl).
    exists []. split; [|auto].
    cbn [run pthread_mutex_unlock perform fst scan table_step].
    unfold discipline_step. change (holds data_mutex [l]) with false. cbn [andb].
    rewrite release_head. reflexivity.
  - cbn [run].
    eapply accepts_then; [apply acquire_forks_at_table | | |]; cbn beta.
    2, 3: intros held [H _]; discriminate H.
    intros [] env1 held [_ Hheld]. fold l r in Hheld.
    assert (Hfree : holds data_mutex held = false)
      by (destruct Hheld as [-> | ->]; reflexivity).
    destruct (holds_pair l r held Hheld) as [Hhl Hhr].
    eapply accepts_then with (mid := fun o h => returned o = true /\ h = held).
    { exists held. cbn -[holds]. rewrite Hhl, Hhr, Hfree. auto. }
    2, 3: intros h [H _]; discriminate H.
    intros [] env2 h [_ ->].
    eapply accepts_then with
      (mid := fun o h => returned o = true /\ h = data_mutex :: held).
    { exists (data_mutex :: held). cbn -[holds]. rewrite Hfree. auto. }
    2, 3: intros h [H _]; discriminate H.
    intros [] env3 h [_ ->].
    eapply accepts_then with (mid := fun o h => h = data_mutex :: held).
    { exists (data_mutex :: held). destruct env3; cbn; auto. }
    2, 3: intros h _ H; discriminate H.
    intros now env4 h ->.
    eapply accepts_then with (mid := fun o h => h = data_mutex :: held).
    { exists (data_mutex :: held). destruct env4; cbn; auto. }
    2, 3: intros h _ H; discriminate H.
    intros [] env5 h ->.
    eapply accepts_then with (mid := fun o h => h = data_mutex :: held).
    { exists (data_mutex :: held). destruct env5; cbn; auto. }
    2, 3: intros h _ H; discriminate H.
    intros [] env6 h ->.
    eapply accepts_then with (mid := fun o h => returned o = true /\ h = held).
    { exists held. cbn. auto. }
    2, 3: intros h [H _]; discriminate H.
    intros [] env7 h [_ ->].
    eapply accepts_then; [apply philo_spend_time_at_table; exact Hfree | | |];
      cbn beta.
    2, 3: intros h _ H; discriminate H.
    intros [] env8 h Hh. rewrite (Hh eq_refl).
    destruct (release_pair l r held Hheld) as (held1 & Hl & Hr).
    assert (Hfree1 : holds data_mutex held1 = false).
    { destruct Hheld as [-> | ->].
      - change (release l [r; l])
          with (if decide (r = l) then Some [l]
                else option_map (cons r) (release l [l])) in Hl.
        rewrite release_head in Hl.
        destruct (decide (r = l)); injection Hl as <-; reflexivity.
      - rewrite release_head in Hl. injection Hl as <-. reflexivity. }
    exists []. split; [|auto]. unfold release_forks.
    fold (left_fork sim philo) (right_fork sim philo). fold l r.
    cbn -[holds release]. 
    rewrite Hfree. cbn [andb]. rewrite Hl, Hfree1. cbn [andb]. rewrite Hr. reflexivity.
Qed.

Lemma empty_handed_at_table (l r : mutex) (e : ev) :
  lock_free_event e ->
  match e with EvStatus _ msg _ => (msg =? "is eating")%string = false | _ => True end ->
  table_step l r [] e = Some [].
Proof.
  destruct e; cbn; try contradiction; try reflexivity.
  intros _ Hmsg. unfold phase_allowed. rewrite Hmsg.
  destruct (is_phase_message msg); reflexivity.
Qed.

Lemma philosopher_lifecycle_at_table (sim : t_simulation) (philo : Z) :
  keeps (table_step (left_fork sim philo) (right_fork sim philo)) []
    (philosopher_lifecycle sim philo).
Proof.
  rewrite philosopher_lifecycle_unfold. unfold philosopher_lifecycle_body.
  repeat first
    [ apply keeps_ret
    | apply keeps_loop
    | apply keeps_bind; [|intros ?]
    | apply philosopher_eat_at_table
    | apply philo_spend_time_at_table; reflexivity
    | match goal with |- keeps _ _ (if ?b then _ else _) => destruct b end
    | apply (keeps_every _ _
               (fun e => lock_free_event e /\
                         match e with
                         | EvStatus _ msg _ => (msg =? "is eating")%string = false
                         | _ => True
                         end));
      [intros e [H1 H2]; apply empty_handed_at_table; assumption
      | repeat every_step] ].
Qed.

Lemma table_scan_discipline (l r : mutex) (tr : list ev) :
  forall held held',
    scan (table_step l r) held tr = Some held' ->
    scan discipline_step held tr = Some held'.
Proof.
  induction tr as [|e tr IH]; intros held held' Hscan; [exact Hscan|].
  cbn [scan] in *.
  destruct (table_step l r held e) as [h1|] eqn:Hstep; [|discriminate].
  assert (Hd : discipline_step held e = Some h1).
  { destruct e; try exact Hstep. cbn [table_step] in Hstep.
    destruct (phase_allowed l r held msg); [exact Hstep | discriminate]. }
  rewrite Hd. apply IH. exact Hscan.
Qed.

Lemma release_holds (m m' : mutex) (held held1 : list mutex) :
  release m held = Some held1 -> m' <> m -> holds m' held1 = holds m' held.
Proof.
  intros Hrel Hne.
  destruct (holds m' held) eqn:Hh.
  - apply holds_In. apply holds_In in Hh. apply held_count_In.
    apply held_count_In in Hh. rewrite (release_count _ _ _ Hrel m') in Hh.
    destruct (decide (m = m')); [congruence | lia].
  - apply holds_false. apply holds_false in Hh. intros Hin. apply Hh.
    exact (proj2 (release_In _ _ _ Hrel) m' Hin).
Qed.

Lemma table_dining (a b : Z) (tr : list ev) :
  forall held held' flag,
    scan (table_step (fork_mutex a) (fork_mutex b)) held tr = Some held' ->
    (flag = true ->
     holds (fork_mutex a) held = true /\ holds (fork_mutex b) held = true) ->
    dining_from flag tr = true ->
    holds (fork_mutex a) held' = true /\ holds (fork_mutex b) held' = true.
Proof.
  induction tr as [|e tr IH]; intros held held' flag Hscan Hinv Hdin.
  - cbn in *. injection Hscan as <-. auto.
  - cbn [scan] in Hscan.
    destruct (table_step (fork_mutex a) (fork_mutex b) held e) as [h1|] eqn:Hstep;
      [|discriminate].
    destruct e; cbn [dining_from] in Hdin.
    + (* lock *)
      cbn in Hstep. destruct (holds data_mutex held); [discriminate|].
      injection Hstep as <-. apply (IH _ _ flag Hscan); [|exact Hdin].
      intros Hf. destruct (Hinv Hf) as [Ha Hb].
      split; apply holds_In; right; apply holds_In; assumption.
    + (* unlock *)
      cbn [table_step] in Hstep. unfold discipline_step in Hstep.
      destruct (holds data_mutex held && negb (bool_decide (m = data_mutex)));
        [discriminate|].
      destruct m as [i| |].
      * apply (IH _ _ false Hscan); [discriminate | exact Hdin].
      * apply (IH _ _ flag Hscan); [|exact Hdin].
        intros Hf. destruct (Hinv Hf) as [Ha Hb].
        rewrite !(release_holds _ _ _ _ Hstep) by discriminate. auto.
      * apply (IH _ _ flag Hscan); [|exact Hdin].
        intros Hf. destruct (Hinv Hf) as [Ha Hb].
        rewrite !(release_holds _ _ _ _ Hstep) by discriminate. auto.
    + cbn in Hstep. destruct (holds data_mutex held); [discriminate|].
      injection Hstep as <-. exact (IH _ _ _ Hscan Hinv Hdin).
    + cbn in Hstep. destruct (holds data_mutex held); [discriminate|].
      injection Hstep as <-. exact (IH _ _ _ Hscan Hinv Hdin).
    + cbn in Hstep. destruct (holds data_mutex held); [discriminate|].
      injection Hstep as <-. exact (IH _ _ _ Hscan Hinv Hdin).
    + cbn in Hstep. destruct (holds data_mutex held); [discriminate|].
      injection Hstep as <-. exact (IH _ _ _ Hscan Hinv Hdin).
    + cbn in Hstep. injection Hstep as <-. exact (IH _ _ _ Hscan Hinv Hdin).
    + cbn in Hstep. destruct (holds data_mutex held); [discriminate|].
      injection Hstep as <-. exact (IH _ _ _ Hscan Hinv Hdin).
    + (* report *)
      cbn [table_step] in Hstep.
      destruct (phase_allowed (fork_mutex a) (fork_mutex b) held msg) eqn:Hok;
        [|discriminate].
      cbn in Hstep. destruct (holds data_mutex held); [discriminate|].
      injection Hstep as <-.
      apply (IH _ _ (flag || (msg =? "is eating")%string) Hscan); [|exact Hdin].
      intros Hf. apply orb_true_iff in Hf as [Hf | Hf]; [exact (Hinv Hf)|].
      unfold phase_allowed in Hok. rewrite Hf in Hok.
      apply andb_true_iff in Hok. exact Hok.
    + cbn in Hstep. destruct (holds data_mutex held); [|discriminate].
      injection Hstep as <-. exact (IH _ _ _ Hscan Hinv Hdin).
Qed.

Lemma reachable_history_is_trace (sim : t_simulation) (w : world) (t : nat) :
  reachable sim w -> is_trace (thread_code sim t) (events_of t (history w)).
Proof.
  intros [t0 Hrun].
  assert (Hstart : is_trace (thread_code sim t) (events_of t (history (start sim t0)))).
  { exists O, []. apply prefix_nil. }
  revert Hstart. induction Hrun as [|w0 w1 w2 Hstep _ IH]; intros Hstart;
    [exact Hstart|].
  apply IH. destruct Hstep as [t' e w w' _ Htr Heff | d w Hd]; [|exact Hstart].
  cbn [record history]. rewrite (effect_history _ _ _ _ _ Heff), events_of_app.
  cbn [events_of]. destruct (Nat.eqb_spec t' t) as [->|Hne].
  - exact Htr.
  - rewrite app_nil_r. exact Hstart.
Qed.

Lemma dining_owns_forks (sim : t_simulation) (w : world) (i : nat) :
  reachable sim w ->
  dining (events_of (S i) (history w)) = true ->
  owner w (left_fork sim (Z.of_nat i)) = Some (S i) /\
  owner w (right_fork sim (Z.of_nat i)) = Some (S i).
Proof.
  intros Hw Hdin.
  pose proof (reachable_history_is_trace sim w (S i) Hw) as Htr.
  destruct (keeps_trace _ _ _ _ (philosopher_lifecycle_at_table sim (Z.of_nat i)) Htr)
    as [held Hscan].
  destruct (table_dining _ _ _ _ _ false Hscan) as [Hl Hr];
    [discriminate | exact Hdin |].
  apply table_scan_discipline in Hscan.
  destruct (reachable_owned_as_held _ _ Hw (S i) held Hscan) as [_ Howned].
  split; apply Howned, holds_In; assumption.
Qed.

(** X10: a philosopher eats owning both its forks, so no two philosophers
    who share a fork eat at once.  In every reachable state of the system,
    a philosopher that has reported "is eating" and has put down no fork
    since owns its left and its right fork mutex; and two different
    philosophers who both are at their meal have no fork in common. *)
Theorem philosophers_eat_owning_both_forks
  (sim : t_simulation) (w : world) (i : nat) :
  reachable sim w ->
  dining (events_of (S i) (history w)) = true ->
  (owner w (left_fork sim (Z.of_nat i)) = Some (S i) /\
   owner w (right_fork sim (Z.of_nat i)) = Some (S i)) /\
  forall j, j <> i -> dining (events_of (S j) (history w)) = true ->
    left_fork sim (Z.of_nat j) <> left_fork sim (Z.of_nat i) /\
    left_fork sim (Z.of_nat j) <> right_fork sim (Z.of_nat i) /\
    right_fork sim (Z.of_nat j) <> left_fork sim (Z.of_nat i) /\
    right_fork sim (Z.of_nat j) <> right_fork sim (Z.of_nat i).
Proof.
  intros Hw Hdin.
  destruct (dining_owns_forks sim w i Hw Hdin) as [Hl Hr].
  split; [auto|]. intros j Hne Hj.
  destruct (dining_owns_forks sim w j Hw Hj) as [Hlj Hrj].
  repeat split; intros Heq; rewrite Heq in *; congruence.
Qed.

Lemma first_at_table_reachable : reachable two_philosophers first_at_table.
Proof.
  exists 10. unfold first_at_table.
  do 6 (eapply rtc_l;
          [eapply (gstep_thread two_philosophers 1);
           [cbn; lia
           | exists 3%nat, flag_raised_while_eating; eexists; vm_compute; reflexivity
           | econstructor; reflexivity]
          |]).
  apply rtc_refl.
Qed.

Lemma philosophers_eat_owning_both_forks_witness :
  owner first_at_table (left_fork two_philosophers 0) = Some 1%nat /\
  owner first_at_table (right_fork two_philosophers 0) = Some 1%nat.
Proof.
  exact (proj1 (philosophers_eat_owning_both_forks two_philosophers first_at_table 0
                  first_at_table_reachable eq_refl)).
Defined.

(** ** The recording of a meal *)

Lemma meal_free_fixed (philo : Z) (e : ev) :
  meal_free_event e -> meal_step philo Away e = Some Away.
Proof.
  destruct e as [[]|[]| | | | | | | |]; cbn; try contradiction; try reflexivity.
  intros ->. reflexivity.
Qed.

Lemma meal_free_keeps {R : Type} (philo : Z) (p : prog R) :
  every meal_free_event p -> keeps (meal_step philo) Away p.
Proof. apply keeps_every. intros e. apply meal_free_fixed. Qed.

Lemma wait_event_meal_free (e : ev) : wait_event e -> meal_free_event e.
Proof. destruct e; cbn; tauto. Qed.

Lemma philo_spend_time_meal_free (d : Z) : every meal_free_event (philo_spend_time d).
Proof.
  eapply every_weaken; [exact wait_event_meal_free | apply philo_spend_time_events].
Qed.

Lemma philosopher_eat_meal (sim : t_simulation) (philo : Z) :
  keeps (meal_step philo) Away (philosopher_eat sim philo).
Proof.
  unfold philosopher_eat. cbn zeta.
  destruct (philosopher_count sim =? 1).
  - apply meal_free_keeps.
    repeat first [apply philo_spend_time_meal_free | every_step].
  - intros fuel env. cbn [run].
    eapply accepts_then;
      [apply (meal_free_keeps philo (acquire_forks sim philo)); repeat every_step
      | | |]; cbn beta.
    2, 3: intros q _ H; discriminate H.
    intros [] env1 q Hq. rewrite (Hq eq_refl).
    eapply accepts_then with (mid := fun o q => q = Reported).
    { exists Reported. cbn. auto. }
    2, 3: intros q' _ H; discriminate H.
    intros [] env2 q' ->.
    eapply accepts_then with (mid := fun o q => q = Taken).
    { exists Taken. cbn. auto. }
    2, 3: intros q' _ H; discriminate H.
    intros [] env3 q' ->.
    eapply accepts_then with
      (mid := fun o q => forall now rest, o = Done now rest -> q = Read now).
    { destruct env3 as [|s3 env3]; cbn.
      - exists Taken. split; [reflexivity | discriminate].
      - exists (Read (snap_time s3)). split; [reflexivity|].
        intros now rest [= <- _]. reflexivity. }
    2, 3: intros q' _ H; discriminate H.
    intros now env4 q' Hq'. rewrite (Hq' now env4 eq_refl).
    eapply accepts_then with
      (mid := fun o q => returned o = true -> q = Stamped).
    { destruct env4 as [|s4 env4]; cbn.
      - exists (Read now). split; [reflexivity | discriminate].
      - exists Stamped. split; [|reflexivity].
        cbn [fst scan meal_step].
        destruct (decide _) as [_|Hne]; [reflexivity | contradiction]. }
    2, 3: intros q'' _ H; discriminate H.
    intros [] env5 q'' Hq''. rewrite (Hq'' eq_refl).
    eapply accepts_then with
      (mid := fun o q => returned o = true -> q = Counted).
    { destruct env5 as [|s5 env5]; cbn.
      - exists Stamped. split; [reflexivity | discriminate].
      - exists Counted. split; [|reflexivity].
        cbn [fst scan meal_step].
        destruct (decide _) as [_|Hne]; [reflexivity | contradiction]. }
    2, 3: intros q3 _ H; discriminate H.
    intros [] env6 q3 Hq3. rewrite (Hq3 eq_refl).
    eapply accepts_then with (mid := fun o q => q = Away).
    { exists Away. cbn. auto. }
    2, 3: intros q4 _ H; discriminate H.
    intros [] env7 q4 ->.
    change (accepts (meal_step philo) Away
              (run (philo_spend_time (time_to_eat sim) ;; release_forks sim philo)
                 fuel env7)
              (fun o q => returned o = true -> q = Away)).
    apply meal_free_keeps.
    repeat first [apply philo_spend_time_meal_free | every_step].
Qed.

Lemma philosopher_lifecycle_meal (sim : t_simulation) (philo : Z) :
  keeps (meal_step philo) Away (philosopher_lifecycle sim philo).
Proof.
  rewrite philosopher_lifecycle_unfold. unfold philosopher_lifecycle_body.
  repeat first
    [ apply keeps_ret
    | apply keeps_loop
    | apply keeps_bind; [|intros ?]
    | apply philosopher_eat_meal
    | match goal with |- keeps _ _ (if ?b then _ else _) => destruct b end
    | apply meal_free_keeps;
      repeat first [apply philo_spend_time_meal_free | every_step] ].
Qed.

Lemma meal_step_so_far (philo : Z) (q q' : meal) (e : ev) (tr : list ev) :
  meal_step philo q e = Some q' ->
  meal_so_far philo q tr -> meal_so_far philo q' (tr ++ [e]).
Proof.
  intros Hstep Hq.
  destruct q; cbn in Hstep.
  - destruct e as [[]| | | | | | | | |]; try discriminate Hstep;
      try (injection Hstep as <-; exact I).
    destruct (msg =? "is eating")%string eqn:Hmsg; injection Hstep as <-; [|exact I].
    apply String.eqb_eq in Hmsg. subst msg. cbn. eauto.
  - destruct e as [[]| | | | | | | | |]; try discriminate Hstep.
    injection Hstep as <-. destruct Hq as (pre & i & d & ->).
    exists pre, i, d. rewrite <- app_assoc. reflexivity.
  - destruct e; try discriminate Hstep.
    injection Hstep as <-. destruct Hq as (pre & i & d & ->).
    exists pre, i, d. rewrite <- app_assoc. reflexivity.
  - destruct e; try discriminate Hstep.
    destruct (decide _) as [->|]; [|discriminate]. injection Hstep as <-.
    destruct Hq as (pre & i & d & ->).
    exists pre, i, d, now, before. rewrite <- app_assoc. reflexivity.
  - destruct e; try discriminate Hstep.
    destruct (decide _) as [->|]; [|discriminate]. injection Hstep as <-.
    destruct Hq as (pre & i & d & now & s & ->).
    exists pre, i, d, now, s, before. rewrite <- app_assoc. reflexivity.
  - destruct e as [|[]| | | | | | | |]; try discriminate Hstep.
    injection Hstep as <-. exact I.
Qed.

Lemma scan_meal_so_far (philo : Z) (tr : list ev) :
  forall q, scan (meal_step philo) Away tr = Some q -> meal_so_far philo q tr.
Proof.
  induction tr as [|e tr IH] using rev_ind; intros q Hscan.
  - cbn in Hscan. injection Hscan as <-. exact I.
  - rewrite scan_app in Hscan.
    destruct (scan (meal_step philo) Away tr) as [q0|] eqn:H0; [|discriminate].
    cbn [scan] in Hscan.
    destruct (meal_step philo q0 e) as [q1|] eqn:Hstep; [|discriminate].
    injection Hscan as <-. exact (meal_step_so_far _ _ _ _ _ Hstep (IH _ eq_refl)).
Qed.

Lemma set_last_meal_time_only (philo now : Z) (s : t_simulation) :
  only_record_changed philo (with_last_meal now) s (set_last_meal_time philo now s).
Proof.
  unfold only_record_changed, set_last_meal_time. cbn.
  repeat split.
  - apply length_alter.
  - intros p Hp. rewrite list_lookup_alter_eq, Hp. reflexivity.
  - intros n Hne. apply list_lookup_alter_ne. congruence.
Qed.

Lemma incr_meals_eaten_only (philo : Z) (s : t_simulation) :
  only_record_changed philo with_one_more_meal s (incr_meals_eaten philo s).
Proof.
  unfold only_record_changed, incr_meals_eaten. cbn.
  repeat split.
  - apply length_alter.
  - intros p Hp. rewrite list_lookup_alter_eq, Hp. reflexivity.
  - intros n Hne. apply list_lookup_alter_ne. congruence.
Qed.

(** X11: how a meal is recorded.  In any run of a philosopher thread,
    every access to the shared structure belongs to the recording of a
    meal.  Either it comes right after "is eating" was reported,
    [data_mutex] taken and the clock read, and it makes the philosopher's
    [last_meal_time] the time just read: the record at the philosopher's
    position gets that time as its [last_meal_time] and keeps its other
    fields, and nothing else of the structure changes.  Or it comes right
    after such a setting and increments the philosopher's [meals_eaten]:
    the record gets one meal more and keeps its other fields, and nothing
    else changes.  And an "is eating" report that five events follow is
    followed by exactly these: the lock of [data_mutex], a clock reading,
    the setting of [last_meal_time] to the time read, the increment of
    [meals_eaten], and the unlock of [data_mutex]; so one meal is counted
    for each report. *)
Theorem meal_recorded_with_each_report
  (sim : t_simulation) (philo : Z) (fuel : nat) (env : list snapshot) :
  let tr := fst (run (philosopher_lifecycle sim philo) fuel env) in
  (forall pre s s' post, tr = pre ++ EvMem s s' :: post ->
     (exists pre' i d now,
        pre = pre' ++ [EvStatus i "is eating" d; EvLock data_mutex; EvTime now] /\
        s' = set_last_meal_time philo now s /\
        only_record_changed philo (with_last_meal now) s s') \/
     (exists pre' now s0,
        pre = pre' ++ [EvTime now; EvMem s0 (set_last_meal_time philo now s0)] /\
        s' = incr_meals_eaten philo s /\
        only_record_changed philo with_one_more_meal s s')) /\
  (forall pre i d e1 e2 e3 e4 e5 post,
     tr = pre ++ EvStatus i "is eating" d :: e1 :: e2 :: e3 :: e4 :: e5 :: post ->
     exists now s s' s2 s2',
       e1 = EvLock data_mutex /\ e2 = EvTime now /\
       e3 = EvMem s s' /\ s' = set_last_meal_time philo now s /\
       only_record_changed philo (with_last_meal now) s s' /\
       e4 = EvMem s2 s2' /\ s2' = incr_meals_eaten philo s2 /\
       only_record_changed philo with_one_more_meal s2 s2' /\
       e5 = EvUnlock data_mutex).
Proof.
  intros tr.
  destruct (philosopher_lifecycle_meal sim philo fuel env) as (qf & Hscan & _).
  fold tr in Hscan. split.
  - intros pre s s' post Htr. rewrite Htr, scan_app in Hscan.
    destruct (scan (meal_step philo) Away pre) as [q|] eqn:Hpre; [|discriminate].
    apply scan_meal_so_far in Hpre. cbn [scan] in Hscan.
    destruct q; cbn in Hscan; try discriminate Hscan.
    + destruct (decide _) as [->|]; [|discriminate].
      destruct Hpre as (pre' & i & d & ->). left. exists pre', i, d, now.
      split; [reflexivity|]. split; [reflexivity | apply set_last_meal_time_only].
    + destruct (decide _) as [->|]; [|discriminate].
      destruct Hpre as (pre' & i & d & now & s0 & ->). right.
      exists (pre' ++ [EvStatus i "is eating" d; EvLock data_mutex]), now, s0.
      rewrite <- app_assoc.
      split; [reflexivity|]. split; [reflexivity | apply incr_meals_eaten_only].
  - intros pre i d e1 e2 e3 e4 e5 post Htr. rewrite Htr, scan_app in Hscan.
    destruct (scan (meal_step philo) Away pre) as [q|]; [|discriminate].
    cbn [scan] in Hscan.
    destruct q; cbn in Hscan; try discriminate Hscan.
    destruct e1 as [[]| | | | | | | | |]; cbn in Hscan; try discriminate Hscan.
    destruct e2; cbn in Hscan; try discriminate Hscan.
    destruct e3; cbn in Hscan; try discriminate Hscan.
    destruct (decide _) as [->|]; [|discriminate].
    destruct e4; cbn in Hscan; try discriminate Hscan.
    destruct (decide _) as [->|]; [|discriminate].
    destruct e5 as [|[]| | | | | | | |]; cbn in Hscan; try discriminate Hscan.
    eexists _, _, _, _, _.
    repeat (split; [reflexivity|]).
    split; [apply set_last_meal_time_only|].
    repeat (split; [reflexivity|]).
    split; [apply incr_meals_eaten_only | reflexivity].
Qed.

(** ** The meal counter *)

Lemma meals_counted_app (philo : Z) (tr1 tr2 : list ev) :
  meals_counted philo (tr1 ++ tr2) = meals_counted philo tr1 + meals_counted philo tr2.
Proof.
  induction tr1 as [|e tr1 IH]; [reflexivity|].
  destruct e; cbn [app meals_counted]; rewrite IH; try reflexivity.
  destruct (decide _); lia.
Qed.

Lemma stamp_is_no_increment (philo t : Z) (s : t_simulation) (p : t_philosopher) :
  philosophers s !! Z.to_nat philo = Some p ->
  set_last_meal_time philo t s <> incr_meals_eaten philo s.
Proof.
  intros Hp Heq.
  apply (f_equal (fun s => meals_eaten <$> philosophers s !! Z.to_nat philo)) in Heq.
  cbn in Heq. rewrite !list_lookup_alter_eq, Hp in Heq. cbn in Heq.
  injection Heq as Heq. lia.
Qed.

Lemma gstep_meals_accounted (sim : t_simulation) (w w' : world) :
  gstep sim w w' -> meals_accounted sim w -> meals_accounted sim w'.
Proof.
  intros Hstep Hinv.
  destruct Hstep as [t e w w1 _ Htr Heff | d w Hd]; [|exact Hinv].
  intros i p0 Hp0. destruct (Hinv i p0 Hp0) as (p & Hp & Hmeals).
  cbn [record mem history].
  rewrite (effect_history _ _ _ _ _ Heff), events_of_app, meals_counted_app.
  cbn [events_of].
  destruct Heff as [m _|m _|m|j _|a|us| | |j msg d|s'];
    try (exists p; split; [exact Hp|];
         destruct (Nat.eqb t (S i)); cbn [meals_counted]; lia).
  cbn [set_mem mem]. destruct t as [|j].
  - pose proof (is_trace_last _ _ _ _ (monitor_frame_events sim) Htr) as H.
    cbn in H. cbn [Nat.eqb meals_counted].
    exists p. split; [|lia]. destruct H as [-> | ->]; exact Hp.
  - pose proof (is_trace_last _ _ _ _ (philosopher_lifecycle_meal_events sim _) Htr)
      as H.
    destruct (Nat.eqb_spec (S j) (S i)) as [[= ->]|Hne].
    + cbn [meals_counted].
      assert (Hi : philosophers (mem w) !! Z.to_nat (Z.of_nat i) = Some p)
        by (rewrite Nat2Z.id; exact Hp).
      destruct H as [[now ->] | ->].
      * destruct (decide _) as [Heq|_];
          [exfalso; exact (stamp_is_no_increment _ _ _ _ Hi Heq)|].
        eexists. split.
        { cbn. rewrite Nat2Z.id, list_lookup_alter_eq, Hp. reflexivity. }
        cbn. lia.
      * destruct (decide _) as [_|Hne]; [|contradiction].
        eexists. split.
        { cbn. rewrite Nat2Z.id, list_lookup_alter_eq, Hp. reflexivity. }
        cbn. lia.
    + cbn [meals_counted]. exists p. split; [|lia].
      destruct (meal_event_effect _ _ _ H) as (_ & _ & _ & Hother).
      rewrite Hother; [exact Hp|]. rewrite Nat2Z.id. congruence.
Qed.

(** X12: the meal counter counts the philosopher's own increments, and
    none is lost.  In every reachable state of the system in which the
    cleanup has not freed the array of philosophers, each record the
    simulation started with is still in the array, and its [meals_eaten]
    is its initial value plus the number of increments that the
    philosopher at that position has made so far: no other thread changes
    the counter and no increment is overwritten. *)
Theorem meal_counter_counts_own_meals
  (sim : t_simulation) (w : world) (i : nat) (p0 : t_philosopher) :
  reachable sim w ->
  array_freed (history w) = false ->
  philosophers sim !! i = Some p0 ->
  exists p, philosophers (mem w) !! i = Some p /\
    meals_eaten p
    = meals_eaten p0 + meals_counted (Z.of_nat i) (events_of (S i) (history w)).
Proof.
  intros [t0 Hrun] _ Hp0.
  assert (Hinv : meals_accounted sim w); [|exact (Hinv i p0 Hp0)].
  assert (Hstart : meals_accounted sim (start sim t0)).
  { intros j q0 Hq0. exists q0. split; [exact Hq0 | cbn; lia]. }
  revert Hstart. clear Hp0. induction Hrun as [|w0 w1 w2 Hstep _ IH]; intros Hstart;
    [exact Hstart|].
  apply IH. exact (gstep_meals_accounted _ _ _ Hstep Hstart).
Qed.

Lemma meal_counted_run :
  rtc (gstep two_philosophers) (start two_philosophers 10) meal_counted.
Proof.
  unfold meal_counted, meal_stamped, about_to_stamp, first_at_table.
  do 10 (eapply rtc_l;
         [eapply (gstep_thread two_philosophers 1);
          [cbn; lia
          | exists 1%nat, first_meal_answers; eexists; vm_compute; reflexivity
          | econstructor; reflexivity]
         |]).
  apply rtc_refl.
Qed.

Lemma meal_counted_reachable : reachable two_philosophers meal_counted.
Proof. exists 10. exact meal_counted_run. Qed.

Lemma meal_counter_counts_own_meals_witness :
  exists p, philosophers (mem meal_counted) !! 0%nat = Some p /\
    meals_eaten p
    = meals_eaten (mk_philosopher 1 0 1 0 0)
      + meals_counted (Z.of_nat 0) (events_of 1 (history meal_counted)).
Proof.
  exact (meal_counter_counts_own_meals two_philosophers meal_counted 0
           (mk_philosopher 1 0 1 0 0) meal_counted_reachable eq_refl eq_refl).
Defined.

(** ** The clock and the last meal *)

Lemma events_of_In (t : nat) (e : ev) (h : list (nat * ev)) :
  In e (events_of t h) -> In (t, e) h.
Proof.
  induction h as [|[t' e'] h IH]; cbn; [auto|].
  destruct (Nat.eqb_spec t' t) as [->|Hne].
  - intros [<- | Hin]; auto.
  - auto.
Qed.

Lemma effect_clock (sim : t_simulation) (t : nat) (w w' : world) (e : ev) :
  effect sim t w e w' ->
  clock w' = clock w /\ forall v, e = EvTime v -> v = clock w.
Proof.
  destruct 1; (split; [reflexivity|]); intros v Hv; try discriminate Hv.
  injection Hv as <-. reflexivity.
Qed.

Lemma gstep_clock_bounds (sim : t_simulation) (w w' : world) :
  gstep sim w w' -> clock_bounds w -> clock_bounds w'.
Proof.
  intros Hstep [Htimes Hmeals].
  destruct Hstep as [t e w w1 _ Htr Heff | d w Hd].
  2: { split; cbn [advance history mem clock].
       - intros t v Hin. specialize (Htimes t v Hin). lia.
       - intros i p Hp. specialize (Hmeals i p Hp). lia. }
  destruct (effect_clock _ _ _ _ _ Heff) as [Hclock Hread].
  pose proof (effect_history _ _ _ _ _ Heff) as Hhist.
  split; cbn [record history mem clock]; rewrite Hclock.
  - intros t' v Hin. rewrite Hhist in Hin. apply in_app_or in Hin as [Hin | Hin].
    + exact (Htimes t' v Hin).
    + destruct Hin as [[= <- ->] | []]. rewrite (Hread v eq_refl). lia.
  - intros i p Hp.
    destruct (effect_mem_inv _ _ _ _ _ Heff) as [Hsame | ->];
      [rewrite Hsame in Hp; exact (Hmeals i p Hp)|].
    destruct t as [|j].
    + pose proof (is_trace_last _ _ _ _ (monitor_frame_events sim) Htr) as H.
      cbn in H. apply (Hmeals i p).
      destruct H as [Heq | Heq]; rewrite Heq in Hp; exact Hp.
    + destruct (keeps_trace _ _ _ _ (philosopher_lifecycle_meal sim (Z.of_nat j)) Htr)
        as [q' Hscan].
      rewrite scan_app in Hscan.
      destruct (scan (meal_step (Z.of_nat j)) Away (events_of (S j) (history w)))
        as [q|] eqn:Hpre; [|discriminate].
      apply scan_meal_so_far in Hpre. cbn [scan] in Hscan.
      destruct q; cbn in Hscan; try discriminate Hscan.
      * destruct (decide _) as [Heq|]; [|discriminate]. rewrite Heq in Hp.
        cbn in Hp. destruct (decide (Z.to_nat (Z.of_nat j) = i)) as [<-|Hne].
        -- rewrite list_lookup_alter_eq in Hp.
           destruct (philosophers (mem w) !! Z.to_nat (Z.of_nat j)) as [p1|];
             [|discriminate].
           injection Hp as <-. cbn.
           destruct Hpre as (pre & k & d & Hev).
           apply (Htimes (S j)). apply events_of_In. rewrite Hev.
           apply in_or_app. right. cbn. auto.
        -- rewrite list_lookup_alter_ne in Hp by exact Hne. exact (Hmeals i p Hp).
      * destruct (decide _) as [Heq|]; [|discriminate]. rewrite Heq in Hp.
        cbn in Hp. destruct (decide (Z.to_nat (Z.of_nat j) = i)) as [<-|Hne].
        -- rewrite list_lookup_alter_eq in Hp.
           destruct (philosophers (mem w) !! Z.to_nat (Z.of_nat j)) as [p1|] eqn:Hp1;
             [|discriminate].
           injection Hp as <-. cbn. exact (Hmeals _ p1 Hp1).
        -- rewrite list_lookup_alter_ne in Hp by exact Hne. exact (Hmeals i p Hp).
Qed.

(** X13: no last meal lies in the future.  If the system is started at
    time [t0] with no [last_meal_time] later than [t0], then in every state
    it reaches every philosopher's [last_meal_time] is at most the clock:
    what a philosopher records as its last meal is a time it has read from
    the clock, and the clock does not run backwards. *)
Theorem last_meal_never_in_future
  (sim : t_simulation) (t0 : Z) (w : world) :
  rtc (gstep sim) (start sim t0) w ->
  (forall i p, philosophers sim !! i = Some p -> last_meal_time p <= t0) ->
  forall i p, philosophers (mem w) !! i = Some p -> last_meal_time p <= clock w.
Proof.
  intros Hrun Hinit.
  assert (Hinv : clock_bounds w); [|exact (proj2 Hinv)].
  assert (Hstart : clock_bounds (start sim t0))
    by (split; [intros t v [] | exact Hinit]).
  revert Hstart. clear Hinit.
  induction Hrun as [|w0 w1 w2 Hstep _ IH]; intros Hstart; [exact Hstart|].
  apply IH. exact (gstep_clock_bounds _ _ _ Hstep Hstart).
Qed.

Lemma last_meal_never_in_future_witness :
  last_meal_time (mk_philosopher 1 0 1 10 1) <= clock meal_counted.
Proof.
  refine (last_meal_never_in_future two_philosophers 10 meal_counted meal_counted_run
            _ 0%nat (mk_philosopher 1 0 1 10 1) eq_refl).
  intros [|[|i]] p Hp; cbn in Hp; try discriminate Hp;
    injection Hp as <-; cbn; lia.
Defined.
